(** * Car service: the Lambda request handler of [lambda/lambda.go]

    A shallow embedding of [handler], [handleGet] and [handlePost] together
    with the parts of the Go standard library and of the DynamoDB client
    they call: [strconv.Atoi], [fmt.Sprintf "%d"], [encoding/json]
    ([Unmarshal] into the [Car] struct, [Marshal] of a [Car] and of a
    [[]Car]) and [unicode/utf8].

    Go strings are byte sequences; they are modelled by [string], whose
    characters are the 256 byte values.  Go's [int] is the 64-bit signed
    integer of the platforms the function is deployed on
    ([provided.al2023]); it is modelled by [Z] with the range written out
    where the library checks it. *)

From Stdlib Require Import ZArith NArith Ascii String List Lia.
From Stdlib Require Import DecimalString DecimalN DecimalPos DecimalFacts.
From stdpp Require Import base option gmap strings list.

Local Open Scope N_scope.

(** ** Bytes *)

Definition byte_val (c : ascii) : N := N_of_ascii c.
Definition chr (n : N) : ascii := ascii_of_N n.

Definition byte_eqb (c : ascii) (n : N) : bool := byte_val c =? n.
Definition byte_in (lo hi : N) (c : ascii) : bool :=
  (lo <=? byte_val c) && (byte_val c <=? hi).

(** Byte values of the ASCII characters the code below looks at. *)
Definition cQuote : N := 34.       (* the double quote *)
Definition cBackslash : N := 92.
Definition cSlash : N := 47.
Definition cMinus : N := 45.
Definition cPlus : N := 43.
Definition cDot : N := 46.
Definition cComma : N := 44.
Definition cColon : N := 58.
Definition cLBrace : N := 123.
Definition cRBrace : N := 125.
Definition cLBracket : N := 91.
Definition cRBracket : N := 93.

Definition str1 (n : N) : string := String (chr n) EmptyString.

(** [q] writes a JSON text with apostrophes in place of double quotes, for
    the examples below. *)
Fixpoint q (s : string) : string :=
  match s with
  | EmptyString => EmptyString
  | String c r => String (if byte_eqb c 39 then chr cQuote else c) (q r)
  end.

(** ** [strconv]: decimal integers *)

Definition maxInt64 : Z := (2 ^ 63 - 1)%Z.
Definition minInt64 : Z := (- 2 ^ 63)%Z.
Definition in_int64 (n : Z) : Prop := (minInt64 <= n <= maxInt64)%Z.

Inductive NumError := ErrSyntax | ErrRange.

Definition is_digit (c : ascii) : bool := byte_in 48 57 c.

Definition maxUint64 : N := 2 ^ 64 - 1.

(** What [strconv.ParseUint(s, 10, 64)] finds in a non-empty [s]. *)
Inductive UintResult :=
| UintOk (n : N)
| UintSyntax
| UintRange.

(** The loop of [ParseUint] in base 10 over the characters of [s], [n]
    being the value of those read so far.  It stops at the first
    character that is not a digit, and at the first digit with which the
    value leaves the 64-bit range, without looking at what follows. *)
Fixpoint parseUintLoop (s : string) (n : N) : UintResult :=
  match s with
  | EmptyString => UintOk n
  | String c r =>
      if is_digit c then
        if maxUint64 / 10 + 1 <=? n then UintRange
        else
          let n1 := n * 10 + (byte_val c - 48) in
          if maxUint64 <? n1 then UintRange else parseUintLoop r n1
      else UintSyntax
  end.

(** [strconv.ParseInt(s, 10, 64)]: an optional sign, then at least one
    digit and nothing else.  A value outside the 64-bit range is reported
    as a range error together with the nearest bound. *)
Definition ParseInt (s : string) : Z * option NumError :=
  let '(neg, ds) :=
    match s with
    | String c r =>
        if byte_eqb c cMinus then (true, r)
        else if byte_eqb c cPlus then (false, r)
        else (false, s)
    | EmptyString => (false, s)
    end in
  match ds with
  | EmptyString => (0%Z, Some ErrSyntax)
  | _ =>
      match parseUintLoop ds 0 with
      | UintSyntax => (0%Z, Some ErrSyntax)
      | UintRange => (if neg : bool then minInt64 else maxInt64, Some ErrRange)
      | UintOk un =>
          if negb neg && (2 ^ 63 <=? un) then (maxInt64, Some ErrRange)
          else if neg && (2 ^ 63 <? un) then (minInt64, Some ErrRange)
          else (if neg then (- Z.of_N un)%Z else Z.of_N un, None)
      end
  end.

(** [strconv.Atoi] is [ParseInt(s, 10, 0)] with the result converted to
    [int]; its fast path for short inputs computes the same result. *)
Definition Atoi (s : string) : Z * option NumError := ParseInt s.

(** [fmt.Sprintf("%d", n)] and [strconv.AppendInt(_, n, 10)]. *)
Definition formatInt (n : Z) : string :=
  if (n <? 0)%Z
  then String (chr cMinus) (NilZero.string_of_uint (N.to_uint (Z.to_N (- n))))
  else NilZero.string_of_uint (N.to_uint (Z.to_N n)).

(** ** [unicode/utf8] and [unicode/utf16] *)

Definition RuneError : N := 65533.     (* U+FFFD *)
Definition MaxRune : N := 1114111.     (* U+10FFFF *)

Fixpoint sdrop (n : nat) (s : string) : string :=
  match n, s with
  | S n', String _ r => sdrop n' r
  | _, _ => s
  end.

Fixpoint stake (n : nat) (s : string) : string :=
  match n, s with
  | S n', String c r => String c (stake n' r)
  | _, _ => EmptyString
  end.

(** The entry of [utf8.first] and [utf8.acceptRanges] for a lead byte:
    the length of the sequence and the range of its second byte. *)
Definition lead_info (p0 : N) : option (nat * N * N) :=
  if (194 <=? p0) && (p0 <=? 223) then Some (2%nat, 128, 191)
  else if p0 =? 224 then Some (3%nat, 160, 191)
  else if (225 <=? p0) && (p0 <=? 236) then Some (3%nat, 128, 191)
  else if p0 =? 237 then Some (3%nat, 128, 159)
  else if (238 <=? p0) && (p0 <=? 239) then Some (3%nat, 128, 191)
  else if p0 =? 240 then Some (4%nat, 144, 191)
  else if (241 <=? p0) && (p0 <=? 243) then Some (4%nat, 128, 191)
  else if p0 =? 244 then Some (4%nat, 128, 143)
  else None.

Definition out_of (lo hi b : N) : bool := (b <? lo) || (hi <? b).

(** [utf8.DecodeRune]: the first rune of [s] and its width in bytes;
    [(RuneError, 1)] on an invalid or truncated sequence.  The masks and
    shifts of the library are written as [mod] and multiplication. *)
Definition decodeRune (s : string) : N * nat :=
  match s with
  | EmptyString => (RuneError, 0%nat)
  | String c0 s1 =>
    let p0 := byte_val c0 in
    if p0 <? 128 then (p0, 1%nat) else
    match lead_info p0, s1 with
    | Some (sz, lo, hi), String c1 s2 =>
      let b1 := byte_val c1 in
      if out_of lo hi b1 then (RuneError, 1%nat) else
      if (sz =? 2)%nat then ((p0 mod 32) * 64 + b1 mod 64, 2%nat) else
      match s2 with
      | String c2 s3 =>
        let b2 := byte_val c2 in
        if out_of 128 191 b2 then (RuneError, 1%nat) else
        if (sz =? 3)%nat
        then ((p0 mod 16) * 4096 + (b1 mod 64) * 64 + b2 mod 64, 3%nat) else
        match s3 with
        | String c3 _ =>
          let b3 := byte_val c3 in
          if out_of 128 191 b3 then (RuneError, 1%nat) else
          ((p0 mod 8) * 262144 + (b1 mod 64) * 4096
           + (b2 mod 64) * 64 + b3 mod 64, 4%nat)
        | EmptyString => (RuneError, 1%nat)
        end
      | EmptyString => (RuneError, 1%nat)
      end
    | _, _ => (RuneError, 1%nat)
    end
  end.

Definition isSurrogate (r : N) : bool := (55296 <=? r) && (r <? 57344).

Definition enc3 (r : N) : string :=
  String (chr (224 + r / 4096))
    (String (chr (128 + (r / 64) mod 64))
       (String (chr (128 + r mod 64)) EmptyString)).

(** [utf8.EncodeRune] / [utf8.AppendRune]. *)
Definition encodeRune (r : N) : string :=
  if r <=? 127 then str1 r
  else if r <=? 2047 then
    String (chr (192 + r / 64)) (String (chr (128 + r mod 64)) EmptyString)
  else if (MaxRune <? r) || isSurrogate r then enc3 RuneError
  else if r <=? 65535 then enc3 r
  else
    String (chr (240 + r / 262144))
      (String (chr (128 + (r / 4096) mod 64))
         (String (chr (128 + (r / 64) mod 64))
            (String (chr (128 + r mod 64)) EmptyString))).

(** [utf16.DecodeRune]. *)
Definition decodeSurrogates (r1 r2 : N) : N :=
  if (55296 <=? r1) && (r1 <? 56320) && (56320 <=? r2) && (r2 <? 57344)
  then (r1 - 55296) * 1024 + (r2 - 56320) + 65536
  else RuneError.

(** A rune that has an encoding of its own: not a surrogate, at most
    [MaxRune]. *)
Definition scalar (r : N) : Prop := r <= MaxRune /\ isSurrogate r = false.

Definition encodeRunes (rs : list N) : string :=
  fold_right (fun r acc => encodeRune r +:+ acc) EmptyString rs.

(** Well-formed UTF-8: the encoding of a sequence of runes. *)
Definition valid_utf8 (s : string) : Prop :=
  exists rs, Forall scalar rs /\ s = encodeRunes rs.

(** ** [encoding/json]: string literals *)

Definition hexdigit (n : N) : ascii :=
  if n <? 10 then chr (48 + n) else chr (87 + n).

(** [htmlSafeSet]: the ASCII bytes [Marshal] copies unchanged (it
    escapes for HTML by default). *)
Definition html_safe (b : N) : bool :=
  (32 <=? b) && negb ((b =? cQuote) || (b =? cBackslash)
                      || (b =? 38) || (b =? 60) || (b =? 62)).

Definition bslash (rest : string) : string := String (chr cBackslash) rest.

(** The escape [appendString] writes for an ASCII byte outside
    [htmlSafeSet].  (Before Go 1.22 the bytes 8 and 12 are written in the
    six-character form; the decoder reads both forms alike.) *)
Definition escape_byte (b : N) : string :=
  if (b =? cBackslash) || (b =? cQuote) then bslash (str1 b)
  else if b =? 8 then bslash "b"
  else if b =? 12 then bslash "f"
  else if b =? 10 then bslash "n"
  else if b =? 13 then bslash "r"
  else if b =? 9 then bslash "t"
  else bslash (String "u" (String "0" (String "0"
         (String (hexdigit (b / 16)) (String (hexdigit (b mod 16)) EmptyString))))).

(** One turn of the loop of [appendString]: what is written for the
    first character of [s], and what is left of [s]. *)
Definition escape_step (s : string) : string * string :=
  match s with
  | EmptyString => (EmptyString, EmptyString)
  | String c r =>
    let b := byte_val c in
    if b <? 128 then
      ((if html_safe b then String c EmptyString else escape_byte b), r)
    else
      let '(rr, size) := decodeRune s in
      if (rr =? RuneError) && (size =? 1)%nat then (bslash "ufffd", r)
      else if (rr =? 8232) || (rr =? 8233)
      then (bslash (String "u" (String "2" (String "0" (String "2"
              (String (hexdigit (rr mod 16)) EmptyString))))), sdrop size s)
      else (stake size s, sdrop size s)
  end.

Fixpoint escape_loop (fuel : nat) (s : string) : string :=
  match fuel, s with
  | S f, String _ _ =>
      let '(out, r) := escape_step s in out +:+ escape_loop f r
  | _, _ => EmptyString
  end.

(** The body of the string literal [appendString] writes for [s]. *)
Definition escape (s : string) : string := escape_loop (String.length s) s.

(** [appendString]: the quoted literal. *)
Definition quote (s : string) : string :=
  String (chr cQuote) (escape s +:+ str1 cQuote).

Definition hexval (c : ascii) : option N :=
  let b := byte_val c in
  if byte_in 48 57 c then Some (b - 48)
  else if byte_in 97 102 c then Some (b - 87)
  else if byte_in 65 70 c then Some (b - 55)
  else None.

(** [getu4]: the value of a six-character escape at the head of [s]. *)
Definition getu4 (s : string) : option N :=
  match s with
  | String c0 (String c1 (String h1 (String h2 (String h3 (String h4 _))))) =>
    if byte_eqb c0 cBackslash && byte_eqb c1 117 then
      match hexval h1, hexval h2, hexval h3, hexval h4 with
      | Some a, Some b, Some c, Some d => Some (((a * 16 + b) * 16 + c) * 16 + d)
      | _, _, _, _ => None
      end
    else None
  | _ => None
  end.

(** One turn of the loop of [unquoteBytes], on input the scanner accepts:
    the bytes written for the first character or escape of [s], and what
    is left.  [None] where the scanner reports a syntax error (a control
    character, an unknown escape, a bad hexadecimal digit). *)
Definition unquote_step (s : string) : option (string * string) :=
  match s with
  | EmptyString => None
  | String c r =>
    let b := byte_val c in
    if b =? cBackslash then
      match r with
      | EmptyString => None
      | String e r' =>
        let eb := byte_val e in
        if (eb =? cQuote) || (eb =? cBackslash) || (eb =? cSlash)
        then Some (str1 eb, r')
        else if eb =? 98 then Some (str1 8, r')
        else if eb =? 102 then Some (str1 12, r')
        else if eb =? 110 then Some (str1 10, r')
        else if eb =? 114 then Some (str1 13, r')
        else if eb =? 116 then Some (str1 9, r')
        else if eb =? 117 then
          match getu4 s with
          | None => None
          | Some rr =>
            let r6 := sdrop 6 s in
            if isSurrogate rr then
              match getu4 r6 with
              | Some rr1 =>
                let dec := decodeSurrogates rr rr1 in
                if dec =? RuneError then Some (encodeRune RuneError, r6)
                else Some (encodeRune dec, sdrop 6 r6)
              | None => Some (encodeRune RuneError, r6)
              end
            else Some (encodeRune rr, r6)
          end
        else None
      end
    else if (b =? cQuote) || (b <? 32) then None
    else if b <? 128 then Some (String c EmptyString, r)
    else let '(rr, size) := decodeRune s in Some (encodeRune rr, sdrop size s)
  end.

(** A string literal after its opening quote: the unquoted bytes and the
    input after the closing quote. *)
Fixpoint unquote_loop (fuel : nat) (s : string) : option (string * string) :=
  match fuel, s with
  | S f, String c r =>
      if byte_eqb c cQuote then Some (EmptyString, r)
      else
        match unquote_step s with
        | Some (out, s') =>
            match unquote_loop f s' with
            | Some (t, rest) => Some (out +:+ t, rest)
            | None => None
            end
        | None => None
        end
  | _, _ => None
  end.

Definition parse_string (s : string) : option (string * string) :=
  unquote_loop (String.length s) s.

(** ** [encoding/json]: the scanner *)

(** A JSON text as the decoder sees it.  A number keeps its literal (the
    decoder hands it to [strconv]); strings and keys are unquoted. *)
Unset Elimination Schemes.
Inductive json :=
| JNull
| JBool (b : bool)
| JNumber (lit : string)
| JString (s : string)
| JArray (elems : list json)
| JObject (members : list (string * json)).
Set Elimination Schemes.

Definition is_space (c : ascii) : bool :=
  byte_eqb c 32 || byte_eqb c 9 || byte_eqb c 13 || byte_eqb c 10.

Fixpoint skip_ws (s : string) : string :=
  match s with
  | String c r => if is_space c then skip_ws r else s
  | EmptyString => s
  end.

(** The longest run of digits at the head of [s], and the rest. *)
Fixpoint take_digits (s : string) : string * string :=
  match s with
  | String c r =>
      if is_digit c then let '(ds, rest) := take_digits r in (String c ds, rest)
      else (EmptyString, s)
  | EmptyString => (EmptyString, s)
  end.

(** The integer part of a number: [0], or a digit from 1 to 9 followed
    by digits. *)
Definition scan_int (s : string) : option (string * string) :=
  match s with
  | String c r =>
      if byte_eqb c 48 then Some (String c EmptyString, r)
      else if byte_in 49 57 c
      then let '(ds, rest) := take_digits r in Some (String c ds, rest)
      else None
  | EmptyString => None
  end.

(** An optional fraction: a dot and at least one digit. *)
Definition scan_frac (s : string) : option (string * string) :=
  match s with
  | String c r =>
      if byte_eqb c cDot then
        match take_digits r with
        | (EmptyString, _) => None
        | (ds, rest) => Some (String c ds, rest)
        end
      else Some (EmptyString, s)
  | EmptyString => Some (EmptyString, s)
  end.

(** An optional exponent: [e] or [E], an optional sign, at least one
    digit. *)
Definition scan_exp (s : string) : option (string * string) :=
  match s with
  | String c r =>
      if byte_eqb c 101 || byte_eqb c 69 then
        let '(sg, r1) :=
          match r with
          | String c1 r' =>
              if byte_eqb c1 cPlus || byte_eqb c1 cMinus
              then (String c1 EmptyString, r') else (EmptyString, r)
          | EmptyString => (EmptyString, r)
          end in
        match take_digits r1 with
        | (EmptyString, _) => None
        | (ds, rest) => Some (String c (sg +:+ ds), rest)
        end
      else Some (EmptyString, s)
  | EmptyString => Some (EmptyString, s)
  end.

(** A number literal at the head of [s]: the literal and the rest. *)
Definition scan_number (s : string) : option (string * string) :=
  let '(sg, s1) :=
    match s with
    | String c r =>
        if byte_eqb c cMinus then (String c EmptyString, r) else (EmptyString, s)
    | EmptyString => (EmptyString, s)
    end in
  match scan_int s1 with
  | None => None
  | Some (ip, s2) =>
    match scan_frac s2 with
    | None => None
    | Some (fp, s3) =>
      match scan_exp s3 with
      | None => None
      | Some (ep, s4) => Some (sg +:+ ip +:+ fp +:+ ep, s4)
      end
    end
  end.

(** [s] begins with [w]: the rest of [s]. *)
Fixpoint strip_prefix (w s : string) : option string :=
  match w, s with
  | EmptyString, _ => Some s
  | String a w', String b s' =>
      if Ascii.eqb a b then strip_prefix w' s' else None
  | _, EmptyString => None
  end.

(** [maxNestingDepth] of the scanner. *)
Definition maxNestingDepth : N := 10000.

(** One value at the head of [s] (no leading white space), with what
    follows it.  [depth] counts the arrays and objects being open.  Every
    call consumes a character before it recurses, so a fuel of the length
    of the input is never used up. *)
Fixpoint parse_value (fuel : nat) (depth : N) (s : string)
  : option (json * string) :=
  match fuel, s with
  | S f, String c r =>
    let b := byte_val c in
    if b =? cQuote then
      match parse_string r with
      | Some (t, rest) => Some (JString t, rest)
      | None => None
      end
    else if b =? cLBrace then
      if maxNestingDepth <=? depth then None else
      match skip_ws r with
      | String c1 r1 =>
          if byte_eqb c1 cRBrace then Some (JObject [], r1)
          else
            match parse_members f (depth + 1) (String c1 r1) with
            | Some (ms, rest) => Some (JObject ms, rest)
            | None => None
            end
      | EmptyString => None
      end
    else if b =? cLBracket then
      if maxNestingDepth <=? depth then None else
      match skip_ws r with
      | String c1 r1 =>
          if byte_eqb c1 cRBracket then Some (JArray [], r1)
          else
            match parse_elements f (depth + 1) (String c1 r1) with
            | Some (vs, rest) => Some (JArray vs, rest)
            | None => None
            end
      | EmptyString => None
      end
    else if b =? 116 then
      match strip_prefix "true" s with
      | Some rest => Some (JBool true, rest) | None => None end
    else if b =? 102 then
      match strip_prefix "false" s with
      | Some rest => Some (JBool false, rest) | None => None end
    else if b =? 110 then
      match strip_prefix "null" s with
      | Some rest => Some (JNull, rest) | None => None end
    else if (b =? cMinus) || is_digit c then
      match scan_number s with
      | Some (lit, rest) => Some (JNumber lit, rest)
      | None => None
      end
    else None
  | _, _ => None
  end

(** The members of an object from the opening quote of a key up to and
    including the closing brace. *)
with parse_members (fuel : nat) (depth : N) (s : string)
  : option (list (string * json) * string) :=
  match fuel, s with
  | S f, String c r =>
    if byte_eqb c cQuote then
      match parse_string r with
      | Some (k, r1) =>
        match skip_ws r1 with
        | String c2 r2 =>
          if byte_eqb c2 cColon then
            match parse_value f depth (skip_ws r2) with
            | Some (v, r3) =>
              match skip_ws r3 with
              | String c4 r4 =>
                if byte_eqb c4 cRBrace then Some ([(k, v)], r4)
                else if byte_eqb c4 cComma then
                  match parse_members f depth (skip_ws r4) with
                  | Some (ms, r5) => Some ((k, v) :: ms, r5)
                  | None => None
                  end
                else None
              | EmptyString => None
              end
            | None => None
            end
          else None
        | EmptyString => None
        end
      | None => None
      end
    else None
  | _, _ => None
  end

(** The elements of an array from its first value up to and including
    the closing bracket. *)
with parse_elements (fuel : nat) (depth : N) (s : string)
  : option (list json * string) :=
  match fuel with
  | S f =>
    match parse_value f depth s with
    | Some (v, r1) =>
      match skip_ws r1 with
      | String c2 r2 =>
        if byte_eqb c2 cRBracket then Some ([v], r2)
        else if byte_eqb c2 cComma then
          match parse_elements f depth (skip_ws r2) with
          | Some (vs, r3) => Some (v :: vs, r3)
          | None => None
          end
        else None
      | EmptyString => None
      end
    | None => None
    end
  | O => None
  end.

(** [checkValid] and the scan of the decoder: the whole input is one
    value between optional white space.  [None] is a [SyntaxError]. *)
Definition decode (body : string) : option json :=
  match parse_value (S (String.length body)) 0 (skip_ws body) with
  | Some (v, rest) =>
      match skip_ws rest with
      | EmptyString => Some v
      | String _ _ => None
      end
  | None => None
  end.

(** ** The record *)

(** [type Car struct], with the JSON names [id], [make], [model] and
    [year] of its tags. *)
Record Car := mkCar { ID : string; Make : string; Model : string; Year : Z }.

Definition zeroCar : Car := mkCar EmptyString EmptyString EmptyString 0.

Inductive CarField := FID | FMake | FModel | FYear.

(** [foldName]: the form under which the decoder compares an object key
    with the field names when the key is not a field name exactly.  ASCII
    letters are put in upper case, and the two non-ASCII runes that fold
    to an ASCII letter, U+017F (to [S]) and U+212A (to [K]), are replaced
    by it.  Go replaces every other rune by the smallest rune of its fold
    orbit, which is never an ASCII character; such runes are left as they
    are here, which decides the same keys equal to the four (ASCII) field
    names. *)
Fixpoint foldName (s : string) : string :=
  match s with
  | EmptyString => EmptyString
  | String c r =>
    let b := byte_val c in
    if byte_in 97 122 c then String (chr (b - 32)) (foldName r)
    else
      match r with
      | String c1 r1 =>
        if (b =? 197) && byte_eqb c1 191 then String "S" (foldName r1)
        else
          match r1 with
          | String c2 r2 =>
            if (b =? 226) && byte_eqb c1 132 && byte_eqb c2 170
            then String "K" (foldName r2)
            else String c (foldName r)
          | EmptyString => String c (foldName r)
          end
      | EmptyString => String c (foldName r)
      end
  end.

(** The field of [Car] an object key is decoded into: the one whose name
    is the key, exactly or up to [foldName]. *)
Definition field_of_key (k : string) : option CarField :=
  let f := foldName k in
  if String.eqb f "ID" then Some FID
  else if String.eqb f "MAKE" then Some FMake
  else if String.eqb f "MODEL" then Some FModel
  else if String.eqb f "YEAR" then Some FYear
  else None.

(** The state of the decoder inside the object: the struct being filled
    and whether an [UnmarshalTypeError] has been saved. *)
Definition dstate : Type := Car * bool.

(** A member value decoded into a field.  [null] leaves the field as it
    is.  A value of the wrong kind, or a number that [ParseInt] rejects,
    saves an error and leaves the field as it is; decoding goes on. *)
Definition set_field (f : CarField) (v : json) (st : dstate) : dstate :=
  let '(c, err) := st in
  match f, v with
  | _, JNull => st
  | FID, JString s => (mkCar s (Make c) (Model c) (Year c), err)
  | FMake, JString s => (mkCar (ID c) s (Model c) (Year c), err)
  | FModel, JString s => (mkCar (ID c) (Make c) s (Year c), err)
  | FYear, JNumber lit =>
      match ParseInt lit with
      | (n, None) => (mkCar (ID c) (Make c) (Model c) n, err)
      | (_, Some _) => (c, true)
      end
  | _, _ => (c, true)
  end.

Definition decode_member (st : dstate) (m : string * json) : dstate :=
  match field_of_key (fst m) with
  | Some f => set_field f (snd m) st
  | None => st
  end.

Definition unmarshal_object (ms : list (string * json)) : dstate :=
  fold_left decode_member ms (zeroCar, false).

(** [json.Unmarshal([]byte(body), &item)] with [item] a fresh [Car]:
    [Some] of the struct when the error is nil. *)
Definition Unmarshal (body : string) : option Car :=
  match decode body with
  | None => None
  | Some (JObject ms) =>
      let '(c, err) := unmarshal_object ms in if err : bool then None else Some c
  | Some JNull => Some zeroCar
  | Some _ => None
  end.

Definition lit_open_id : string := Eval cbv in q "{'id':".
Definition lit_make : string := Eval cbv in q ",'make':".
Definition lit_model : string := Eval cbv in q ",'model':".
Definition lit_year : string := Eval cbv in q ",'year':".

(** [json.Marshal] of a [Car]. *)
Definition marshalCar (c : Car) : string :=
  lit_open_id +:+ quote (ID c) +:+ lit_make +:+ quote (Make c)
  +:+ lit_model +:+ quote (Model c) +:+ lit_year +:+ formatInt (Year c)
  +:+ str1 cRBrace.

Fixpoint join_cars (cs : list Car) : string :=
  match cs with
  | [] => EmptyString
  | [c] => marshalCar c
  | c :: cs' => marshalCar c +:+ str1 cComma +:+ join_cars cs'
  end.

(** [json.Marshal] of a non-nil [[]Car]. *)
Definition marshalCars (cs : list Car) : string :=
  str1 cLBracket +:+ join_cars cs +:+ str1 cRBracket.

Definition corolla : Car := mkCar "c1" "Toyota" "Corolla" 2020.
Definition corolla_body : string :=
  Eval cbv in q "{'id':'c1','make':'Toyota','model':'Corolla','year':2020}".

(** ** The storage capability and the world of an invocation *)

(** [types.AttributeValue]: a tagged value.  The handler tells [S] and
    [N] from the rest; the list, map and set members of the union behave
    like the other members written here and are left out. *)
Inductive AttributeValue :=
| AttributeValueMemberS (Value : string)
| AttributeValueMemberN (Value : string)
| AttributeValueMemberB (Value : string)
| AttributeValueMemberBOOL (Value : bool)
| AttributeValueMemberNULL (Value : bool).

(** An item: [map[string]types.AttributeValue]. *)
Abbreviation Item := (gmap string AttributeValue).

(** What a call of the client returns: the output, or an error with the
    text its [Error] method gives. *)
Inductive result (A : Type) :=
| Ok (a : A)
| Err (msg : string).
Arguments Ok {A} a.
Arguments Err {A} msg.

(** The calls the handler makes on [db], with the fields of their
    inputs. *)
Inductive Call :=
| CallScan (TableName : string)
| CallGetItem (TableName : string) (Key : Item)
| CallPutItem (TableName : string) (It : Item).

(** [*dynamodb.Client] as a capability over a state [St] of the service
    (its tables, and whatever decides its failures).  [Scan] returns the
    [Items] of the output, [GetItem] its [Item], [None] for nil. *)
Record Client (St : Type) := mkClient {
  Scan : string -> St -> result (list Item) * St;
  GetItem : string -> Item -> St -> result (option Item) * St;
  PutItem : string -> Item -> St -> result unit * St
}.
Arguments Scan {St} _ _ _.
Arguments GetItem {St} _ _ _ _.
Arguments PutItem {St} _ _ _ _.

(** The world of an invocation: the process environment, the state of
    the storage service, and the calls made on [db] so far (oldest
    first). *)
Record World (St : Type) := mkWorld {
  env : gmap string string;
  dbstate : St;
  calls : list Call
}.
Arguments mkWorld {St} _ _ _.
Arguments env {St} _.
Arguments dbstate {St} _.
Arguments calls {St} _.

(** [events.APIGatewayV2HTTPRequest], the fields the handler reads
    ([Method] and [Path] are those of [RequestContext.HTTP]). *)
Record APIGatewayV2HTTPRequest := mkRequest {
  Method : string;
  Path : string;
  QueryStringParameters : gmap string string;
  ReqBody : string
}.

(** [events.APIGatewayV2HTTPResponse], the fields the handler sets.  A
    nil [Headers] is the empty map. *)
Record APIGatewayV2HTTPResponse := mkResponse {
  StatusCode : Z;
  Headers : gmap string string;
  Body : string
}.

(** How an invocation ends: with a response (the error the handler
    returns with it is nil on every path), or in a run-time panic. *)
Inductive Outcome (A : Type) :=
| Returned (a : A)
| Panicked.
Arguments Returned {A} a.
Arguments Panicked {A}.

Definition StatusOK : Z := 200.
Definition StatusCreated : Z := 201.
Definition StatusBadRequest : Z := 400.
Definition StatusNotFound : Z := 404.
Definition StatusMethodNotAllowed : Z := 405.
Definition StatusInternalServerError : Z := 500.

Definition plain (status : Z) (body : string) : APIGatewayV2HTTPResponse :=
  mkResponse status ∅ body.

Definition content_type (v : string) : gmap string string :=
  {[ "Content-Type"%string := v ]}.

Section Handler.
Context {St : Type} (db : Client St).

(** Computations of the handler: the world goes in and comes out, and
    a panic ends the computation. *)
Definition M (A : Type) : Type := World St -> Outcome A * World St.

Definition ret {A} (a : A) : M A := fun w => (Returned a, w).

Definition bind {A B} (m : M A) (k : A -> M B) : M B :=
  fun w =>
    match m w with
    | (Returned a, w') => k a w'
    | (Panicked, w') => (Panicked, w')
    end.

Definition panic {A} : M A := fun w => (Panicked, w).

Notation "x <- m ;; k" := (bind m (fun x => k))
  (at level 100, m at next level, right associativity).

(** [os.Getenv]: the value of the variable, empty when it is unset. *)
Definition Getenv (name : string) : M string :=
  fun w => (Returned (default EmptyString (env w !! name)), w).

Definition dbScan (tbl : string) : M (result (list Item)) :=
  fun w =>
    let '(r, st) := Scan db tbl (dbstate w) in
    (Returned r, mkWorld (env w) st (calls w ++ [CallScan tbl])).

Definition dbGetItem (tbl : string) (key : Item) : M (result (option Item)) :=
  fun w =>
    let '(r, st) := GetItem db tbl key (dbstate w) in
    (Returned r, mkWorld (env w) st (calls w ++ [CallGetItem tbl key])).

Definition dbPutItem (tbl : string) (it : Item) : M (result unit) :=
  fun w =>
    let '(r, st) := PutItem db tbl it (dbstate w) in
    (Returned r, mkWorld (env w) st (calls w ++ [CallPutItem tbl it])).

(** The [Value] of [item[k]] asserted to be an [AttributeValueMemberS]:
    the assertion is unchecked, so it panics on a missing attribute
    and on one of another kind. *)
Definition assertS (v : option AttributeValue) : M string :=
  match v with
  | Some (AttributeValueMemberS s) => ret s
  | _ => panic
  end.

(** The checked assertion of [item["Year"]] to an
    [AttributeValueMemberN]: the [Value] when [ok]. *)
Definition assertN (v : option AttributeValue) : option string :=
  match v with
  | Some (AttributeValueMemberN s) => Some s
  | _ => None
  end.

(** The [Car] literal both read paths build from an item and the year
    they have decoded. *)
Definition carOfItem (item : Item) (year : Z) : M Car :=
  id <- assertS (item !! "ID"%string) ;;
  make <- assertS (item !! "Make"%string) ;;
  model <- assertS (item !! "Model"%string) ;;
  ret (mkCar id make model year).

(** The loop of the scan over [out.Items]. *)
Fixpoint scanItems (items : list Item) (cars : list Car) : M (list Car) :=
  match items with
  | [] => ret cars
  | item :: rest =>
      let year :=
        match assertN (item !! "Year"%string) with
        | Some y => fst (Atoi y)
        | None => 0%Z
        end in
      c <- carOfItem item year ;;
      scanItems rest (cars ++ [c])
  end.

Definition handleGet (req : APIGatewayV2HTTPRequest)
  : M APIGatewayV2HTTPResponse :=
  let id := default EmptyString (QueryStringParameters req !! "id"%string) in
  TableNameEnv <- Getenv "TABLE_NAME" ;;
  if String.eqb TableNameEnv EmptyString then
    ret (plain StatusInternalServerError
           "TABLE_NAME environment variable is not set")
  else if String.eqb id EmptyString then
    out <- dbScan TableNameEnv ;;
    match out with
    | Err e => ret (plain StatusInternalServerError e)
    | Ok items =>
        cars <- scanItems items [] ;;
        ret (mkResponse StatusOK (content_type "application/json")
               (marshalCars cars))
    end
  else
    out <- dbGetItem TableNameEnv
             {[ "ID"%string := AttributeValueMemberS id ]} ;;
    match out with
    | Err e => ret (plain StatusInternalServerError e)
    | Ok None => ret (plain StatusNotFound "item not found")
    | Ok (Some it) =>
        match assertN (it !! "Year"%string) with
        | None => ret (plain StatusInternalServerError "invalid year field")
        | Some y =>
            item <- carOfItem it (fst (Atoi y)) ;;
            ret (mkResponse StatusOK (content_type "application/json")
                   (marshalCar item))
        end
    end.

(** The item [handlePost] puts for a decoded [Car]. *)
Definition itemOfCar (item : Car) : Item :=
  {[ "ID"%string := AttributeValueMemberS (ID item);
     "Make"%string := AttributeValueMemberS (Make item);
     "Model"%string := AttributeValueMemberS (Model item);
     "Year"%string := AttributeValueMemberN (formatInt (Year item)) ]}.

Definition handlePost (req : APIGatewayV2HTTPRequest)
  : M APIGatewayV2HTTPResponse :=
  match Unmarshal (ReqBody req) with
  | None => ret (plain StatusBadRequest "invalid request body")
  | Some item =>
      TableNameEnv <- Getenv "TABLE_NAME" ;;
      if String.eqb TableNameEnv EmptyString then
        ret (plain StatusInternalServerError
               "TABLE_NAME environment variable is not set")
      else
        r <- dbPutItem TableNameEnv (itemOfCar item) ;;
        match r with
        | Err e => ret (plain StatusInternalServerError e)
        | Ok _ =>
            ret (mkResponse StatusCreated (content_type "text/plain")
                   ("item " +:+ ID item +:+ " created"))
        end
  end.

(** The dispatcher.  (The two lines it prints to the log are not
    modelled.) *)
Definition handler (req : APIGatewayV2HTTPRequest)
  : M APIGatewayV2HTTPResponse :=
  if String.eqb (Method req) "GET" then handleGet req
  else if String.eqb (Method req) "POST" then handlePost req
  else ret (plain StatusMethodNotAllowed "method not allowed").

End Handler.

Arguments ret {St A} a.
Arguments bind {St A B} m k.
Arguments panic {St A}.

(** ** A storage capability in memory *)

(** Tables by name, each a map from the value of the key attribute [ID]
    to the item: point-get by key, put of the full item, scan.  No call
    fails except on a key that is not a string attribute. *)
Abbreviation MemState := (gmap string (gmap string Item)).

Definition memTable (tbl : string) (st : MemState) : gmap string Item :=
  default ∅ (st !! tbl).

Definition keyOf (it : Item) : option string :=
  match it !! "ID"%string with
  | Some (AttributeValueMemberS k) => Some k
  | _ => None
  end.

Definition memScan (tbl : string) (st : MemState) : result (list Item) * MemState :=
  (Ok (map snd (map_to_list (memTable tbl st))), st).

Definition memGetItem (tbl : string) (key : Item) (st : MemState)
  : result (option Item) * MemState :=
  match keyOf key with
  | Some k => (Ok (memTable tbl st !! k), st)
  | None => (Err "ValidationException", st)
  end.

Definition memPutItem (tbl : string) (it : Item) (st : MemState)
  : result unit * MemState :=
  match keyOf it with
  | Some k => (Ok tt, <[ tbl := <[ k := it ]> (memTable tbl st) ]> st)
  | None => (Err "ValidationException", st)
  end.

Definition memClient : Client MemState := mkClient MemState memScan memGetItem memPutItem.

(** A deployment as the infrastructure program sets it up: the variable
    [TABLE_NAME] names the table, which is empty. *)
Definition world0 : World MemState :=
  mkWorld {[ "TABLE_NAME"%string := "MyItems"%string ]} ∅ [].

(** The same process without the variable. *)
Definition world_noenv : World MemState := mkWorld ∅ ∅ [].

Definition POST (body : string) : APIGatewayV2HTTPRequest :=
  mkRequest "POST" "/" ∅ body.
Definition GET (id : string) : APIGatewayV2HTTPRequest :=
  mkRequest "GET" "/" {[ "id"%string := id ]} EmptyString.
Definition GET_all : APIGatewayV2HTTPRequest :=
  mkRequest "GET" "/" ∅ EmptyString.

(** ** The process

    [lambda.Start]: the process takes the events of the runtime one
    after the other and hands each to the handler.  A response is
    reported to the runtime and the loop goes on; a panic is reported as
    the error of the invocation and ends the process.  The result lists
    how each invocation that was started ended. *)
Fixpoint Start {St} (h : APIGatewayV2HTTPRequest -> M (St:=St) APIGatewayV2HTTPResponse)
    (events : list APIGatewayV2HTTPRequest) (w : World St)
  : list (Outcome APIGatewayV2HTTPResponse) * World St :=
  match events with
  | [] => ([], w)
  | req :: rest =>
      match h req w with
      | (Returned resp, w') =>
          let '(outs, w'') := Start h rest w' in (Returned resp :: outs, w'')
      | (Panicked, w') => ([Panicked], w')
      end
  end.

(** [main]: [lambda.Start(handler)]. *)
Definition main {St} (db : Client St) := Start (handler db).

(** ** The deployment program *)

Module Infra.

(** The resources the program registers, each with its name and the
    arguments the program gives.  An argument that is the output of an
    earlier resource is the value the output resolves to. *)
Inductive Resource :=
| Table (name : string) (Attributes : list (string * string))
    (HashKey BillingMode : string)
| Role (name AssumeRolePolicy : string)
| RolePolicyAttachment (name Role PolicyArn : string)
| Function (name Runtime Handler Code Role : string) (Variables : gmap string string)
| Api (name ProtocolType : string)
| Integration (name ApiId IntegrationType IntegrationUri PayloadFormatVersion : string)
| Permission (name Action Function Principal SourceArn : string)
| Route (name ApiId RouteKey Target : string)
| Stage (name ApiId : string) (AutoDeploy : bool) (Name : string).

Definition resource_name (r : Resource) : string :=
  match r with
  | Table n _ _ _ | Role n _ | RolePolicyAttachment n _ _ | Function n _ _ _ _ _
  | Api n _ | Integration n _ _ _ _ | Permission n _ _ _ _ | Route n _ _ _
  | Stage n _ _ _ => n
  end.

(** The outputs of a registered resource the program reads. *)
Record Outputs := mkOutputs {
  ID : string;
  Name : string;
  Arn : string;
  ExecutionArn : string;
  ApiEndpoint : string
}.

(** The engine behind [ctx]: a registration returns the outputs of the
    resource or an error. *)
Definition Engine (St : Type) : Type := Resource -> St -> result Outputs * St.

(** The stack of a run: the state of the engine, the resources
    registered so far (oldest first) and the exports. *)
Record Stack (St : Type) := mkStack {
  engine : St;
  registered : list Resource;
  exports : gmap string string
}.
Arguments mkStack {St} _ _ _.
Arguments engine {St} _.
Arguments registered {St} _.
Arguments exports {St} _.

(** The body of the function given to [pulumi.Run]: the stack goes in
    and comes out, and an error ends the body ([if err != nil { return
    err }]). *)
Definition P (St A : Type) : Type := Stack St -> result A * Stack St.

Definition ret {St A} (a : A) : P St A := fun s => (Ok a, s).

Definition bind {St A B} (m : P St A) (k : A -> P St B) : P St B :=
  fun s =>
    match m s with
    | (Ok a, s') => k a s'
    | (Err e, s') => (Err e, s')
    end.

Notation "x <- m ;; k" := (bind m (fun x => k))
  (at level 100, m at next level, right associativity).

(** The constructors [NewTable], [NewRole] and the others. *)
Definition New {St} (eng : Engine St) (r : Resource) : P St Outputs :=
  fun s =>
    let '(o, st) := eng r (engine s) in
    (o, mkStack st (registered s ++ [r]) (exports s)).

(** [ctx.Export]. *)
Definition Export {St} (name value : string) : P St unit :=
  fun s => (Ok tt, mkStack (engine s) (registered s) (<[ name := value ]> (exports s))).

(** The policy document of the role, as the raw string of the source
    has it. *)
Definition assumeRolePolicy : string :=
  Eval cbv in q "{
				'Version': '2012-10-17',
				'Statement': [{
					'Action': 'sts:AssumeRole',
					'Principal': {
						'Service': 'lambda.amazonaws.com'
					},
					'Effect': 'Allow',
					'Sid': ''
				}]
			}".

(** [main]: the function given to [pulumi.Run]. *)
Definition main {St} (eng : Engine St) : P St unit :=
  table <- New eng (Table "MyItems" [("ID", "S")] "ID" "PAY_PER_REQUEST") ;;
  lambdaRole <- New eng (Role "lambdaRole" assumeRolePolicy) ;;
  _ <- New eng (RolePolicyAttachment "lambdaBasicExec" (Name lambdaRole)
                  "arn:aws:iam::aws:policy/service-role/AWSLambdaBasicExecutionRole") ;;
  _ <- New eng (RolePolicyAttachment "lambdaDynamoAccess" (Name lambdaRole)
                  "arn:aws:iam::aws:policy/AmazonDynamoDBFullAccess") ;;
  myLambda <- New eng (Function "myApiLambda" "provided.al2023" "bootstrap"
                         "../lambda/bootstrap.zip" (Arn lambdaRole)
                         {[ "TABLE_NAME"%string := Name table ]}) ;;
  api <- New eng (Api "httpApi" "HTTP") ;;
  integration <- New eng (Integration "apiIntegration" (ID api) "AWS_PROXY"
                            (Arn myLambda) "2.0") ;;
  _ <- New eng (Permission "apigwPermission" "lambda:InvokeFunction" (Name myLambda)
                  "apigateway.amazonaws.com" (ExecutionArn api +:+ "/*/*")) ;;
  _ <- New eng (Route "apiRoute" (ID api) "$default"
                  ("integrations/" +:+ ID integration)) ;;
  _ <- New eng (Route "getRoute" (ID api) "GET /"
                  ("integrations/" +:+ ID integration)) ;;
  _ <- New eng (Route "postRoute" (ID api) "POST /"
                  ("integrations/" +:+ ID integration)) ;;
  stage <- New eng (Stage "apiStage" (ID api) true "$default") ;;
  _ <- Export "apiUrl" (ApiEndpoint api +:+ "/" +:+ Name stage) ;;
  _ <- Export "tableName" (Name table) ;;
  ret tt.

(** [pulumi.Run]: the function on a stack with nothing registered. *)
Definition Run {St} (eng : Engine St) (st : St) : result unit * Stack St :=
  main eng (mkStack st [] ∅).

End Infra.

(** * Definitions used by the statements *)

(** The value [os.Getenv("TABLE_NAME")] has in a world. *)
Definition tableName {St} (w : World St) : string :=
  default EmptyString (env w !! "TABLE_NAME"%string).

(** [req.QueryStringParameters["id"]]: empty when the parameter is
    absent. *)
Definition queryId (req : APIGatewayV2HTTPRequest) : string :=
  default EmptyString (QueryStringParameters req !! "id"%string).

Definition table_unset_body : string :=
  "TABLE_NAME environment variable is not set".

Definition json_headers : gmap string string := content_type "application/json".

(** The [Key] of the [GetItemInput]. *)
Definition idKey (id : string) : Item := {[ "ID"%string := AttributeValueMemberS id ]}.

(** The value of a string attribute, empty when the attribute is missing
    or of another kind. *)
Definition stringAttr (it : Item) (k : string) : string :=
  match it !! k with
  | Some (AttributeValueMemberS s) => s
  | _ => EmptyString
  end.

(** The attributes [ID], [Make] and [Model] of an item are strings. *)
Definition stringsOk (it : Item) : Prop :=
  (exists s, it !! "ID"%string = Some (AttributeValueMemberS s))
  /\ (exists s, it !! "Make"%string = Some (AttributeValueMemberS s))
  /\ (exists s, it !! "Model"%string = Some (AttributeValueMemberS s)).

(** The year the scan gives an item. *)
Definition scannedYear (it : Item) : Z :=
  match assertN (it !! "Year"%string) with
  | Some y => fst (Atoi y)
  | None => 0%Z
  end.

(** The record the scan maps an item to, when it maps it. *)
Definition scannedCar (it : Item) : Car :=
  mkCar (stringAttr it "ID") (stringAttr it "Make") (stringAttr it "Model")
    (scannedYear it).

(** Worlds of the examples: a table holding the item of [corolla]; one
    holding an item whose [Year] is a string attribute; one holding an
    item without [Make]. *)
Definition world_corolla : World MemState :=
  mkWorld {[ "TABLE_NAME"%string := "MyItems"%string ]}
    {[ "MyItems"%string := {[ "c1"%string := itemOfCar corolla ]} ]} [].

Definition item_year_string : Item :=
  {[ "ID"%string := AttributeValueMemberS "c9";
     "Make"%string := AttributeValueMemberS "Fiat";
     "Model"%string := AttributeValueMemberS "Uno";
     "Year"%string := AttributeValueMemberS "old" ]}.


Definition item_no_make : Item :=
  {[ "ID"%string := AttributeValueMemberS "c2";
     "Model"%string := AttributeValueMemberS "Golf";
     "Year"%string := AttributeValueMemberN "1999" ]}.

Definition world_no_make : World MemState :=
  mkWorld {[ "TABLE_NAME"%string := "MyItems"%string ]}
    {[ "MyItems"%string := {[ "c2"%string := item_no_make ]} ]} [].

(** The world after one call on [db] that left the storage in [st]. *)
Definition after_call {St} (w : World St) (st : St) (c : Call) : World St :=
  mkWorld (env w) st (calls w ++ [c]).

(** A member value that is neither a number nor [null]. *)
Definition not_number (v : json) : bool :=
  match v with
  | JString _ | JBool _ | JArray _ | JObject _ => true
  | JNull | JNumber _ => false
  end.

(** A member the decoder has a field for. *)
Definition known_member (m : string * json) : bool :=
  match field_of_key (fst m) with
  | Some _ => true
  | None => false
  end.

(** The request [req] with the body [b]. *)
Definition with_body (req : APIGatewayV2HTTPRequest) (b : string)
  : APIGatewayV2HTTPRequest :=
  mkRequest (Method req) (Path req) (QueryStringParameters req) b.

(** The 201 response of [handlePost]. *)
Definition created (item : Car) : APIGatewayV2HTTPResponse :=
  mkResponse StatusCreated (content_type "text/plain")
    ("item " +:+ ID item +:+ " created").

Definition body_year_string : string :=
  Eval cbv in q "{'id':'c1','make':'Toyota','model':'Corolla','year':'2020'}".
Definition body_no_year : string :=
  Eval cbv in q "{'id':'c1','make':'Toyota','model':'Corolla'}".
Definition body_year_null : string :=
  Eval cbv in q "{'id':'c1','make':'Toyota','model':'Corolla','year':null}".

Definition body_extra : string :=
  Eval cbv in q "{'colour':'red','id':'c1','make':'Toyota','owner':{'n':[1,2]},'model':'Corolla','year':2020}".

(** The value of a string of digits, on unbounded numbers. *)
Fixpoint parse_digits (s : string) (acc : N) : option N :=
  match s with
  | EmptyString => Some acc
  | String c r =>
      if is_digit c then parse_digits r (acc * 10 + (byte_val c - 48))
      else None
  end.

(** [decode] with a given fuel for the parser. *)
Definition decode_with (fuel : nat) (body : string) : option json :=
  match parse_value fuel 0 (skip_ws body) with
  | Some (v, rest) =>
      match skip_ws rest with
      | EmptyString => Some v
      | String _ _ => None
      end
  | None => None
  end.

(** The shape of a decimal numeral without leading zeros. *)
Definition unorm_shape (d : Decimal.uint) : Prop :=
  match d with
  | Decimal.Nil => False
  | Decimal.D0 Decimal.Nil => True
  | Decimal.D0 _ => False
  | _ => True
  end.

(** [s] does not begin with a digit. *)
Definition not_digit_head (s : string) : Prop :=
  match s with String c _ => is_digit c = false | EmptyString => True end.

(** [s] does not begin with a character that continues a number. *)
Definition number_end (s : string) : Prop :=
  match s with
  | String c _ => is_digit c = false /\ byte_eqb c cDot = false
                  /\ byte_eqb c 101 = false /\ byte_eqb c 69 = false
  | EmptyString => True
  end.

(** What [appendString] writes for the rune [r]. *)
Definition escape_rune (r : N) : string :=
  if r <? 128 then (if html_safe r then str1 r else escape_byte r)
  else if (r =? 8232) || (r =? 8233)
  then bslash (String "u" (String "2" (String "0" (String "2"
         (String (hexdigit (r mod 16)) EmptyString)))))
  else encodeRune r.

(** What [appendString] writes, between the quotes, for the encoding of
    the runes [rs]. *)
Definition escaped (rs : list N) : string :=
  fold_right (fun r acc => escape_rune r +:+ acc) EmptyString rs.

(** Printable ASCII other than the quote and the backslash: a key the
    scanner reads as it is written. *)
Fixpoint plain_ascii (k : string) : bool :=
  match k with
  | EmptyString => true
  | String c r =>
      byte_in 32 127 c && negb (byte_eqb c cQuote) && negb (byte_eqb c cBackslash)
      && plain_ascii r
  end.

(** A record as the decoder produces it: well-formed UTF-8 in the
    strings, a year in the range of [int]. *)
Definition wf_car (c : Car) : Prop :=
  valid_utf8 (ID c) /\ valid_utf8 (Make c) /\ valid_utf8 (Model c)
  /\ in_int64 (Year c).

(** The members of the object [Marshal] writes for a record. *)
Definition members_of (c : Car) : list (string * json) :=
  [("id"%string, JString (ID c)); ("make"%string, JString (Make c));
   ("model"%string, JString (Model c)); ("year"%string, JNumber (formatInt (Year c)))].

(** The strings of a decoded value are well-formed UTF-8. *)
Definition json_ok (v : json) : Prop :=
  match v with
  | JString s => valid_utf8 s
  | _ => True
  end.

(** A storage capability that returns what was put: after a [PutItem]
    that succeeded, of an item whose key is the string [k], a [GetItem]
    with the key [k] succeeds and returns that item. *)
Definition returns_what_was_put {St} (db : Client St) : Prop :=
  forall tbl (it : Item) k st st',
    it !! "ID"%string = Some (AttributeValueMemberS k) ->
    PutItem db tbl it st = (Ok tt, st') ->
    exists st'', GetItem db tbl (idKey k) st' = (Ok (Some it), st'').

Definition civic : Car := mkCar "c1" "Honda" "Civic" 2021.
Definition body_civic : string :=
  Eval cbv in q "{'id':'c1','make':'Honda','model':'Civic','year':2021}".
Definition body_empty_id : string :=
  Eval cbv in q "{'id':'','make':'Toyota','model':'Corolla','year':2020}".
Definition body_empty_id_civic : string :=
  Eval cbv in q "{'id':'','make':'Honda','model':'Civic','year':2021}".

(** ** Definitions used by the further properties *)


(** A storage capability whose every call fails with the same error. *)
Definition failingClient (msg : string) : Client unit :=
  mkClient unit
    (fun _ st => (Err msg, st))
    (fun _ _ st => (Err msg, st))
    (fun _ _ st => (Err msg, st)).

(** A world of the failing capability, the table being named. *)
Definition world_failing : World unit :=
  mkWorld {[ "TABLE_NAME"%string := "MyItems"%string ]} tt [].

(** The storage, in the state of the world [w], hands out only items
    whose [ID], [Make] and [Model] are string attributes. *)
Definition serves_typed_items {St} (db : Client St) (w : World St) : Prop :=
  (forall tbl items st,
     Scan db tbl (dbstate w) = (Ok items, st) -> Forall stringsOk items)
  /\ (forall tbl key it st,
     GetItem db tbl key (dbstate w) = (Ok (Some it), st) -> stringsOk it).

(** A member value the decoder cannot store in the field [f]: a value
    of another kind than the field's, [null] apart, or a number that is
    not an [int]. *)
Definition wrong_kind (f : CarField) (v : json) : bool :=
  match f, v with
  | _, JNull => false
  | FID, JString _ | FMake, JString _ | FModel, JString _ => false
  | FYear, JNumber lit =>
      match ParseInt lit with
      | (_, None) => false
      | (_, Some _) => true
      end
  | _, _ => true
  end.

(** A member the decoder saves an error for. *)
Definition bad_member (m : string * json) : bool :=
  match field_of_key (fst m) with
  | Some f => wrong_kind f (snd m)
  | None => false
  end.

(** The bodies [Unmarshal] returns an error for: a text that is not
    JSON, a value that is neither an object nor [null], an object with
    a member the decoder saves an error for. *)
Definition rejected (body : string) : bool :=
  match decode body with
  | None => true
  | Some (JObject ms) => existsb bad_member ms
  | Some JNull => false
  | Some _ => true
  end.

(** The object [Marshal] writes for a record. *)
Definition object_of (c : Car) : json := JObject (members_of c).

(** After a [PutItem], whatever its outcome, a [GetItem] with another
    key finds what it found before. *)
Definition put_keeps_other_keys {St} (db : Client St) : Prop :=
  forall tbl (it : Item) k k' st r st' res st1,
    it !! "ID"%string = Some (AttributeValueMemberS k) ->
    k <> k' ->
    PutItem db tbl it st = (r, st') ->
    GetItem db tbl (idKey k') st = (res, st1) ->
    exists st2, GetItem db tbl (idKey k') st' = (res, st2).

(** The calls an invocation makes on [db], read off the request and the
    environment. *)
Definition calls_of (req : APIGatewayV2HTTPRequest) (table : string) : list Call :=
  if String.eqb (Method req) "GET" then
    if String.eqb table EmptyString then []
    else if String.eqb (queryId req) EmptyString then [CallScan table]
    else [CallGetItem table (idKey (queryId req))]
  else if String.eqb (Method req) "POST" then
    match Unmarshal (ReqBody req) with
    | None => []
    | Some item =>
        if String.eqb table EmptyString then [] else [CallPutItem table (itemOfCar item)]
    end
  else [].

(** The statuses the handler answers a method with. *)
Definition statuses_of (method : string) : list Z :=
  if String.eqb method "GET" then [200; 404; 500]%Z
  else if String.eqb method "POST" then [201; 400; 500]%Z
  else [405]%Z.

(** The headers the handler sets with a status. *)
Definition headers_of_status (status : Z) : gmap string string :=
  if (status =? StatusOK)%Z then content_type "application/json"
  else if (status =? StatusCreated)%Z then content_type "text/plain"
  else ∅.

(** [I] is an invariant of the storage under which its items have
    string attributes [ID], [Make] and [Model]: the calls keep [I], a
    [PutItem] provided the item put has these attributes, and in a state
    where [I] holds, [Scan] and [GetItem] hand out such items only. *)
Definition keeps_typed_items {St} (db : Client St) (I : St -> Prop) : Prop :=
  (forall tbl st r st', I st -> Scan db tbl st = (r, st') ->
     I st' /\ forall items, r = Ok items -> Forall stringsOk items)
  /\ (forall tbl key st r st', I st -> GetItem db tbl key st = (r, st') ->
     I st' /\ forall it, r = Ok (Some it) -> stringsOk it)
  /\ (forall tbl it st r st', I st -> stringsOk it -> PutItem db tbl it st = (r, st') ->
     I st').

(** The tables in memory hold only items with string attributes [ID],
    [Make] and [Model]. *)
Definition typed_store (st : MemState) : Prop :=
  forall tbl (t : gmap string Item) k it,
    st !! tbl = Some t -> t !! k = Some it -> stringsOk it.

Definition DELETE : APIGatewayV2HTTPRequest :=
  mkRequest "DELETE" "/" {[ "id"%string := "c1"%string ]} EmptyString.

(** The scanner reads [v] in the text [Marshal] writes for the record
    [c]: the object of the four members, in the order of the fields; the
    strings are well-formed UTF-8, and are those of [c] where those are
    well formed; the year is the decimal numeral of the year of [c]. *)
Definition object_read (c : Car) (v : json) : Prop :=
  exists i m d,
    v = JObject [("id"%string, JString i); ("make"%string, JString m);
                 ("model"%string, JString d);
                 ("year"%string, JNumber (formatInt (Year c)))]
    /\ valid_utf8 i /\ valid_utf8 m /\ valid_utf8 d
    /\ (valid_utf8 (ID c) -> i = ID c)
    /\ (valid_utf8 (Make c) -> m = Make c)
    /\ (valid_utf8 (Model c) -> d = Model c).

Definition jazz : Car := mkCar "c2" "Honda" "Jazz" 2019.
Definition body_jazz : string :=
  Eval cbv in q "{'id':'c2','make':'Honda','model':'Jazz','year':2019}".

(** A table holding the items of two records. *)
Definition world_two : World MemState :=
  mkWorld {[ "TABLE_NAME"%string := "MyItems"%string ]}
    {[ "MyItems"%string :=
         {[ "c1"%string := itemOfCar corolla; "c2"%string := itemOfCar jazz ]} ]} [].


(** An engine that names what it registers after the name the program
    gives, and fails the registration number [bad] (from 0). *)
Definition outputs_of (r : Infra.Resource) : Infra.Outputs :=
  let n := Infra.resource_name r in
  Infra.mkOutputs (n +:+ "-id") (n +:+ "-0a1b2c3") ("arn:aws:::" +:+ n)
    ("arn:aws:execute-api:::" +:+ n) ("https://" +:+ n +:+ ".example").

Definition engineFailing (bad : nat) : Infra.Engine nat :=
  fun r n => (if Nat.eqb n bad then Err "registration failed" else Ok (outputs_of r), S n).

(** [types.AttributeValue] as the table's attribute definitions name
    the kinds. *)
Definition attr_type (v : AttributeValue) : string :=
  match v with
  | AttributeValueMemberS _ => "S"
  | AttributeValueMemberN _ => "N"
  | AttributeValueMemberB _ => "B"
  | AttributeValueMemberBOOL _ => "BOOL"
  | AttributeValueMemberNULL _ => "NULL"
  end.

(** The item [it] has the hash key [hk] of a table, of the kind the
    attribute definitions [attrs] of the table give it. *)
Definition has_hash_key (attrs : list (string * string)) (hk : string) (it : Item) : Prop :=
  exists v, it !! hk = Some v /\ In (hk, attr_type v) attrs.

(** A record whose strings hold bytes that are not UTF-8 (255, and a
    lone 195). *)
Definition car_bad_utf8 : Car :=
  mkCar "c7" (String (chr 255) "iat") (String (chr 195) EmptyString) 1999.

Definition world_bad_utf8 : World MemState :=
  mkWorld {[ "TABLE_NAME"%string := "MyItems"%string ]}
    {[ "MyItems"%string := {[ "c7"%string := itemOfCar car_bad_utf8 ]} ]} [].

(** * Properties *)

Local Open Scope N_scope.

(** ** The model on examples *)

Example formatInt_2020 : formatInt 2020 = "2020"%string.
Proof. reflexivity. Qed.
Example formatInt_neg : formatInt (-7) = "-7"%string.
Proof. reflexivity. Qed.
Example Atoi_2020 : Atoi "2020" = (2020%Z, None).
Proof. reflexivity. Qed.
Example Atoi_frac : Atoi "1.5" = (0%Z, Some ErrSyntax).
Proof. reflexivity. Qed.
Example Atoi_big : Atoi "99999999999999999999" = (maxInt64, Some ErrRange).
Proof. reflexivity. Qed.
Example Atoi_big_then_letter :
  Atoi "-99999999999999999999x" = (minInt64, Some ErrRange).
Proof. reflexivity. Qed.
Example Atoi_min : Atoi "-9223372036854775808" = (minInt64, None).
Proof. reflexivity. Qed.
Example Atoi_max_plus_1 : Atoi "9223372036854775808" = (maxInt64, Some ErrRange).
Proof. reflexivity. Qed.

Example decodeRune_euro :
  decodeRune (String (chr 226) (String (chr 130) (String (chr 172) "x")))
  = (8364, 3%nat).
Proof. reflexivity. Qed.
Example encodeRune_euro :
  encodeRune 8364 = String (chr 226) (String (chr 130) (str1 172)).
Proof. reflexivity. Qed.
Example decodeRune_bad : decodeRune (String (chr 255) "abc") = (RuneError, 1%nat).
Proof. reflexivity. Qed.

Example quote_plain : quote "Toyota" = q "'Toyota'".
Proof. reflexivity. Qed.
Example quote_html : quote "a<b" = q "'a\u003cb'".
Proof. reflexivity. Qed.
Example quote_bad_utf8 : quote (str1 255) = q "'\ufffd'".
Proof. reflexivity. Qed.
Example parse_string_esc :
  parse_string (q "a\u003cb\n',")
  = Some (String "a" (String "<" (String "b" (str1 10))), ","%string).
Proof. reflexivity. Qed.
Example parse_string_pair :
  parse_string (q "\ud83d\ude00'") = Some (encodeRune 128512, EmptyString).
Proof. reflexivity. Qed.
Example parse_string_lone :
  parse_string (q "\ud83dx'") = Some (encodeRune RuneError +:+ "x", EmptyString).
Proof. reflexivity. Qed.
Example parse_string_ctl : parse_string (String (chr 10) (q "'")) = None.
Proof. reflexivity. Qed.

Example decode_obj :
  decode (q " { 'a' : [1, -2.5e+3, true, null], 'b':{} } ")
  = Some (JObject [("a"%string, JArray [JNumber "1"; JNumber "-2.5e+3"; JBool true; JNull]);
                   ("b"%string, JObject [])]).
Proof. reflexivity. Qed.
Example decode_leading_zero : decode "01" = None.
Proof. reflexivity. Qed.
Example decode_trailing : decode (q "{} x") = None.
Proof. reflexivity. Qed.
Example decode_key_escape :
  decode (q "{'\u0069d':'x'}") = Some (JObject [("id"%string, JString "x")]).
Proof. reflexivity. Qed.
Example decode_single_quote_escape :
  decode (str1 cQuote +:+ bslash "'" +:+ str1 cQuote) = None.
Proof. reflexivity. Qed.

Example Unmarshal_corolla : Unmarshal corolla_body = Some corolla.
Proof. reflexivity. Qed.
Example marshalCar_corolla : marshalCar corolla = corolla_body.
Proof. reflexivity. Qed.
Example Unmarshal_no_year :
  Unmarshal (q "{'id':'c1','make':'Toyota','model':'Corolla'}")
  = Some (mkCar "c1" "Toyota" "Corolla" 0).
Proof. reflexivity. Qed.
Example Unmarshal_year_string : Unmarshal (q "{'id':'c1','year':'2020'}") = None.
Proof. reflexivity. Qed.
Example Unmarshal_year_null :
  Unmarshal (q "{'id':'c1','year':null}") = Some (mkCar "c1" "" "" 0).
Proof. reflexivity. Qed.
Example Unmarshal_year_frac : Unmarshal (q "{'id':'c1','year':2020.0}") = None.
Proof. reflexivity. Qed.
Example Unmarshal_fold :
  Unmarshal (q "{'ID':'c1','YEAR':7}") = Some (mkCar "c1" "" "" 7).
Proof. reflexivity. Qed.
Example Unmarshal_last_wins :
  Unmarshal (q "{'year':1,'id':'a','year':2,'id':'b'}") = Some (mkCar "b" "" "" 2).
Proof. reflexivity. Qed.
Example Unmarshal_error_is_kept :
  Unmarshal (q "{'year':'x','year':3}") = None.
Proof. reflexivity. Qed.
Example Unmarshal_year_too_big :
  Unmarshal (q "{'year':9223372036854775808}") = None.
Proof. reflexivity. Qed.
Example Unmarshal_year_min :
  Unmarshal (q "{'year':-9223372036854775808}")
  = Some (mkCar "" "" "" (-9223372036854775808)).
Proof. reflexivity. Qed.
Example field_of_key_kelvin :
  field_of_key ("ma" +:+ String (chr 226) (String (chr 132) (String (chr 170) "e")))
  = Some FMake.
Proof. reflexivity. Qed.
Example field_of_key_other : field_of_key "years" = None.
Proof. reflexivity. Qed.
Example Unmarshal_null : Unmarshal "null" = Some zeroCar.
Proof. reflexivity. Qed.
Example Unmarshal_array : Unmarshal "[]" = None.
Proof. reflexivity. Qed.
Example marshalCars_empty : marshalCars [] = "[]"%string.
Proof. reflexivity. Qed.

(** The two scenarios of the specification. *)
Example scenario_post_get :
  let '(o1, w1) := handler memClient (POST corolla_body) world0 in
  let '(o2, w2) := handler memClient (GET "c1") w1 in
  o1 = Returned (mkResponse 201 (content_type "text/plain") "item c1 created")
  /\ o2 = Returned (mkResponse 200 (content_type "application/json") corolla_body)
  /\ calls w2 = [CallPutItem "MyItems" (itemOfCar corolla);
                 CallGetItem "MyItems" {[ "ID"%string := AttributeValueMemberS "c1" ]}].
Proof. vm_compute. repeat split; reflexivity. Qed.

Example scenario_missing :
  let '(_, w1) := handler memClient (POST corolla_body) world0 in
  fst (handler memClient (GET "missing") w1)
  = Returned (plain 404 "item not found").
Proof. vm_compute. reflexivity. Qed.

(** ** Strings, decimal numerals, UTF-8 and JSON literals *)

Lemma sapp_cons c s t : String c s +:+ t = String c (s +:+ t).
Proof. reflexivity. Qed.
Lemma sapp_nil_l t : EmptyString +:+ t = t.
Proof. reflexivity. Qed.
Lemma sapp_nil_r s : s +:+ EmptyString = s.
Proof. induction s as [|c s IH]; [reflexivity|]. rewrite sapp_cons, IH. reflexivity. Qed.
Lemma sapp_assoc s t u : (s +:+ t) +:+ u = s +:+ (t +:+ u).
Proof. induction s as [|c s IH]; [reflexivity|]. rewrite !sapp_cons, IH. reflexivity. Qed.
Lemma sapp_length s t : String.length (s +:+ t) = (String.length s + String.length t)%nat.
Proof. induction s as [|c s IH]; [reflexivity|]. rewrite sapp_cons. cbn. rewrite IH. reflexivity. Qed.

Lemma byte_val_chr n : n < 256 -> byte_val (chr n) = n.
Proof. apply N_ascii_embedding. Qed.
Lemma chr_byte_val c : chr (byte_val c) = c.
Proof. apply ascii_N_embedding. Qed.

(** Closed tests on bytes are evaluated. *)
Ltac eval_byte_test t :=
  let b := eval vm_compute in t in
  lazymatch b with
  | true => change t with true
  | false => change t with false
  end.

Ltac eval_bytes :=
  repeat match goal with
    | |- context [byte_eqb ?c ?n] => eval_byte_test (byte_eqb c n)
    | |- context [byte_in ?lo ?hi ?c] => eval_byte_test (byte_in lo hi c)
    | |- context [is_digit ?c] => eval_byte_test (is_digit c)
    | |- context [is_space ?c] => eval_byte_test (is_space c)
    end;
  cbn match.

(** The digit loop on a decimal numeral of the library computes the
    number the library reads in it. *)
Lemma parse_digits_uint d :
  (forall p, parse_digits (NilEmpty.string_of_uint d) (Npos p) = Some (Npos (Pos.of_uint_acc d p)))
  /\ parse_digits (NilEmpty.string_of_uint d) 0 = Some (Pos.of_uint d).
Proof.
  induction d as [|d [IH1 IH2]|d [IH1 IH2]|d [IH1 IH2]|d [IH1 IH2]|d [IH1 IH2]
                  |d [IH1 IH2]|d [IH1 IH2]|d [IH1 IH2]|d [IH1 IH2]|d [IH1 IH2]];
    (split; [intros p|]);
    cbn [NilEmpty.string_of_uint parse_digits Pos.of_uint Pos.of_uint_acc];
    eval_bytes; try reflexivity;
    first [ exact IH2 | rewrite <- IH1; f_equal; cbn; lia ].
Qed.

(** The digits written for [n] have the value [n]. *)
Lemma parse_digits_to_uint n :
  parse_digits (NilZero.string_of_uint (N.to_uint n)) 0 = Some n.
Proof.
  assert (H : forall d, parse_digits (NilZero.string_of_uint d) 0 = Some (N.of_uint d)).
  { intros d. destruct d; try apply (parse_digits_uint _). reflexivity. }
  rewrite H, DecimalN.Unsigned.of_to. reflexivity.
Qed.

Lemma unorm_has_shape d : unorm_shape (Decimal.unorm d).
Proof.
  induction d; try exact I.
  rewrite unorm_D0. exact IHd.
Qed.

Lemma to_uint_shape n : unorm_shape (N.to_uint n).
Proof.
  rewrite <- (DecimalN.Unsigned.of_to n) at 1.
  rewrite DecimalN.Unsigned.to_of. apply unorm_has_shape.
Qed.

Lemma take_digits_uint d rest :
  not_digit_head rest ->
  take_digits (NilEmpty.string_of_uint d +:+ rest) = (NilEmpty.string_of_uint d, rest).
Proof.
  intros Hr. induction d; cbn [NilEmpty.string_of_uint];
    try (rewrite sapp_cons; cbn [take_digits]; change (is_digit _) with true;
         cbn match; rewrite IHd; reflexivity).
  rewrite sapp_nil_l. destruct rest as [|c r]; [reflexivity|].
  cbn in Hr |- *. rewrite Hr. reflexivity.
Qed.

Lemma scan_int_uint d rest :
  unorm_shape d -> not_digit_head rest ->
  scan_int (NilZero.string_of_uint d +:+ rest) = Some (NilZero.string_of_uint d, rest).
Proof.
  intros Hs Hr.
  destruct d as [|d|d|d|d|d|d|d|d|d|d]; try destruct Hs;
    cbn [NilZero.string_of_uint NilEmpty.string_of_uint];
    rewrite sapp_cons; unfold scan_int; eval_bytes;
    [ destruct d; try destruct Hs; reflexivity
    | rewrite (take_digits_uint d rest Hr); reflexivity .. ].
Qed.

Lemma scan_tail rest : number_end rest ->
  scan_frac rest = Some (EmptyString, rest) /\ scan_exp rest = Some (EmptyString, rest).
Proof.
  destruct rest as [|c r]; [split; reflexivity|].
  intros (_ & Hd & He & HE). unfold scan_frac, scan_exp. rewrite Hd, He, HE.
  split; reflexivity.
Qed.

Lemma scan_number_uint m rest :
  number_end rest ->
  scan_number (NilZero.string_of_uint (N.to_uint m) +:+ rest)
  = Some (NilZero.string_of_uint (N.to_uint m), rest).
Proof.
  intros Hr.
  assert (Hd : not_digit_head rest) by (destruct rest; [exact I | apply Hr]).
  destruct (scan_tail rest Hr) as [Hf He].
  pose proof (scan_int_uint _ rest (to_uint_shape m) Hd) as Hi.
  unfold scan_number.
  destruct (NilZero.string_of_uint (N.to_uint m)) as [|c r] eqn:E.
  - destruct (N.to_uint m); discriminate E.
  - rewrite sapp_cons in Hi |- *.
    assert (Hc : byte_eqb c cMinus = false).
    { destruct (N.to_uint m) as [|d|d|d|d|d|d|d|d|d|d]; inversion E; reflexivity. }
    rewrite Hc, Hi, Hf, He. rewrite !sapp_nil_r. reflexivity.
Qed.

(** The scanner reads what [formatInt] writes as one number literal. *)
Lemma scan_number_format n rest :
  number_end rest ->
  scan_number (formatInt n +:+ rest) = Some (formatInt n, rest).
Proof.
  intros Hr. unfold formatInt. destruct (n <? 0)%Z.
  - assert (Hd : not_digit_head rest) by (destruct rest; [exact I | apply Hr]).
    destruct (scan_tail rest Hr) as [Hf He].
    rewrite sapp_cons. unfold scan_number. eval_bytes.
    rewrite (scan_int_uint _ rest (to_uint_shape _) Hd), Hf, He.
    rewrite !sapp_nil_r. reflexivity.
  - apply scan_number_uint, Hr.
Qed.

Lemma parse_digits_ge s : forall acc v, parse_digits s acc = Some v -> acc <= v.
Proof.
  induction s as [|c r IH]; intros acc v H; cbn in H.
  - inversion H. lia.
  - destruct (is_digit c); [|discriminate]. apply IH in H. lia.
Qed.

(** Below the 64-bit bound the loop of [ParseUint] computes the value of
    the digits. *)
Lemma parseUintLoop_digits s : forall acc v,
  parse_digits s acc = Some v -> v <= maxUint64 -> parseUintLoop s acc = UintOk v.
Proof.
  unfold maxUint64.
  induction s as [|c r IH]; intros acc v H Hv; cbn in H |- *.
  - inversion H. reflexivity.
  - destruct (is_digit c); [|discriminate].
    pose proof (parse_digits_ge _ _ _ H) as Hge.
    unfold maxUint64.
    destruct (N.leb_spec ((2 ^ 64 - 1) / 10 + 1) acc) as [Hc|Hc];
      [exfalso; change ((2 ^ 64 - 1) / 10 + 1) with 1844674407370955162 in Hc; lia|].
    destruct (N.ltb_spec (2 ^ 64 - 1) (acc * 10 + (byte_val c - 48))); [lia|].
    apply IH; assumption.
Qed.

(** [ParseInt] (and so [Atoi]) reads back what [%d] writes for an
    [int]. *)
Lemma ParseInt_format n : in_int64 n -> ParseInt (formatInt n) = (n, None).
Proof.
  unfold in_int64, maxInt64, minInt64. intros Hn. unfold formatInt, ParseInt.
  destruct (n <? 0)%Z eqn:Hneg.
  - apply Z.ltb_lt in Hneg. eval_bytes.
    pose proof (parse_digits_to_uint (Z.to_N (- n))) as Hp.
    apply parseUintLoop_digits in Hp; [|unfold maxUint64; lia].
    destruct (NilZero.string_of_uint (N.to_uint (Z.to_N (- n)))) as [|c r] eqn:E.
    + destruct (N.to_uint (Z.to_N (- n))); discriminate E.
    + rewrite Hp. cbn [negb andb].
      destruct (N.ltb_spec (2 ^ 63) (Z.to_N (- n))); [lia|].
      rewrite Z2N.id by lia. f_equal. lia.
  - apply Z.ltb_ge in Hneg.
    pose proof (parse_digits_to_uint (Z.to_N n)) as Hp.
    apply parseUintLoop_digits in Hp; [|unfold maxUint64; lia].
    destruct (NilZero.string_of_uint (N.to_uint (Z.to_N n))) as [|c r] eqn:E.
    + destruct (N.to_uint (Z.to_N n)); discriminate E.
    + assert (Hc : byte_eqb c cMinus = false /\ byte_eqb c cPlus = false).
      { destruct (N.to_uint (Z.to_N n)) as [|d|d|d|d|d|d|d|d|d|d]; inversion E; split; reflexivity. }
      destruct Hc as [-> ->]. rewrite Hp. cbn [negb andb].
      destruct (N.leb_spec (2 ^ 63) (Z.to_N n)); [lia|].
      rewrite Z2N.id by lia. reflexivity.
Qed.

(** A value [ParseInt] returns without an error is an [int]. *)
Lemma ParseInt_in_range s n : ParseInt s = (n, None) -> in_int64 n.
Proof.
  unfold ParseInt.
  destruct (match s with
            | String c r => if byte_eqb c cMinus then (true, r)
                            else if byte_eqb c cPlus then (false, r) else (false, s)
            | EmptyString => (false, s) end) as [neg ds].
  destruct ds as [|c r]; [discriminate|].
  destruct (parseUintLoop (String c r) 0) as [un| |]; [|discriminate|discriminate].
  unfold in_int64, maxInt64, minInt64.
  destruct neg; cbn [negb andb].
  - destruct (N.ltb_spec (2 ^ 63) un); [discriminate|].
    intros H0; inversion H0; subst n. lia.
  - destruct (N.leb_spec (2 ^ 63) un); [discriminate|].
    intros H0; inversion H0; subst n. lia.
Qed.

(** Linear arithmetic with division and remainder by constants. *)
Ltac divmod_lia := Z.to_euclidean_division_equations; lia.

(** Case analysis on the comparisons of the goal, dropping the cases
    that contradict the context. *)
Ltac bool_cases :=
  repeat match goal with
    | _ => progress cbn [andb orb negb Nat.eqb String.length]
    | |- context [N.leb ?a ?b] => destruct (N.leb_spec a b); try lia
    | |- context [N.ltb ?a ?b] => destruct (N.ltb_spec a b); try lia
    | |- context [N.eqb ?a ?b] => destruct (N.eqb_spec a b); try lia
    end.

(** [DecodeRune] reads back the rune [EncodeRune] wrote, whatever
    follows it. *)
Lemma decode_encode r s :
  scalar r -> decodeRune (encodeRune r +:+ s) = (r, String.length (encodeRune r)).
Proof.
  unfold scalar, MaxRune, isSurrogate. intros [Hmax Hsur].
  unfold encodeRune, MaxRune, isSurrogate, enc3, str1.
  destruct (N.leb_spec r 127) as [H1|H1].
  { rewrite sapp_cons. unfold decodeRune. rewrite byte_val_chr by lia.
    destruct (N.ltb_spec r 128); [reflexivity|lia]. }
  destruct (N.leb_spec r 2047) as [H2|H2].
  { rewrite !sapp_cons. unfold decodeRune.
    assert (E0 : 192 + r / 64 < 256) by (zify; divmod_lia).
    assert (E1 : 128 + r mod 64 < 256) by (zify; divmod_lia).
    rewrite !byte_val_chr by assumption.
    unfold lead_info, out_of.
    remember (192 + r / 64) as b0. remember (128 + r mod 64) as b1.
    assert (194 <= b0 <= 223) by (subst; zify; divmod_lia).
    assert (128 <= b1 <= 191) by (subst; zify; divmod_lia).
    bool_cases. cbn. f_equal. subst. zify; divmod_lia. }
  assert (Hs : (55296 <=? r) && (r <? 57344) = false) by exact Hsur.
  assert (Hm : (1114111 <? r) = false) by (apply N.ltb_ge; lia).
  rewrite Hm, Hs. cbn [orb].
  destruct (N.leb_spec r 65535) as [H3|H3].
  { rewrite !sapp_cons. unfold decodeRune.
    assert (E0 : 224 + r / 4096 < 256) by (zify; divmod_lia).
    assert (E1 : 128 + (r / 64) mod 64 < 256) by (zify; divmod_lia).
    assert (E2 : 128 + r mod 64 < 256) by (zify; divmod_lia).
    rewrite !byte_val_chr by assumption.
    assert (Hsur' : r < 55296 \/ 57344 <= r).
    { apply andb_false_iff in Hs. destruct Hs as [Hs|Hs];
        [apply N.leb_gt in Hs | apply N.ltb_ge in Hs]; lia. }
    unfold lead_info, out_of.
    remember (224 + r / 4096) as b0. remember (128 + (r / 64) mod 64) as b1.
    remember (128 + r mod 64) as b2.
    assert (224 <= b0 <= 239) by (subst; zify; divmod_lia).
    assert (128 <= b1 <= 191) by (subst; zify; divmod_lia).
    assert (128 <= b2 <= 191) by (subst; zify; divmod_lia).
    assert (b0 = 224 -> 160 <= b1) by (subst; zify; divmod_lia).
    assert (b0 = 237 -> b1 <= 159) by (subst; zify; divmod_lia).
    bool_cases; cbn; f_equal; subst; zify; divmod_lia. }
  rewrite !sapp_cons. unfold decodeRune.
  assert (E0 : 240 + r / 262144 < 256) by (zify; divmod_lia).
  assert (E1 : 128 + (r / 4096) mod 64 < 256) by (zify; divmod_lia).
  assert (E2 : 128 + (r / 64) mod 64 < 256) by (zify; divmod_lia).
  assert (E3 : 128 + r mod 64 < 256) by (zify; divmod_lia).
  rewrite !byte_val_chr by assumption.
  unfold lead_info, out_of.
  remember (240 + r / 262144) as b0. remember (128 + (r / 4096) mod 64) as b1.
  remember (128 + (r / 64) mod 64) as b2. remember (128 + r mod 64) as b3.
  assert (240 <= b0 <= 244) by (subst; zify; divmod_lia).
  assert (128 <= b1 <= 191) by (subst; zify; divmod_lia).
  assert (128 <= b2 <= 191) by (subst; zify; divmod_lia).
  assert (128 <= b3 <= 191) by (subst; zify; divmod_lia).
  assert (b0 = 240 -> 144 <= b1) by (subst; zify; divmod_lia).
  assert (b0 = 244 -> b1 <= 143) by (subst; zify; divmod_lia).
  bool_cases; cbn; f_equal; subst; zify; divmod_lia.
Qed.

Lemma sdrop_app s t : sdrop (String.length s) (s +:+ t) = t.
Proof. induction s as [|c s IH]; [destruct t; reflexivity|]. rewrite sapp_cons. exact IH. Qed.

Lemma stake_app s t : stake (String.length s) (s +:+ t) = s.
Proof.
  induction s as [|c s IH]; [destruct t; reflexivity|].
  rewrite sapp_cons. cbn. rewrite IH. reflexivity.
Qed.

(** The cases [r = 0], ..., [r = 127], and a residue of larger ones. *)
Ltac enum_below_128 r :=
  destruct r as [|r]; [| do 7 (try destruct r as [r|r|]) ].

Lemma encodeRune_head r :
  scalar r -> 128 <= r ->
  exists c rest, encodeRune r = String c rest /\ 128 <= byte_val c
                 /\ (2 <= String.length (encodeRune r))%nat.
Proof.
  unfold scalar, MaxRune. intros [Hmax Hsur] Hr.
  unfold encodeRune, MaxRune. rewrite Hsur.
  destruct (N.leb_spec r 127); [lia|].
  destruct (N.leb_spec r 2047).
  { eexists _, _. split; [reflexivity|]. split; [|cbn; lia].
    rewrite byte_val_chr; zify; divmod_lia. }
  destruct (N.ltb_spec 1114111 r); [lia|]. cbn [orb].
  destruct (N.leb_spec r 65535).
  { unfold enc3. eexists _, _. split; [reflexivity|]. split; [|cbn; lia].
    rewrite byte_val_chr; zify; divmod_lia. }
  eexists _, _. split; [reflexivity|]. split; [|cbn; lia].
  rewrite byte_val_chr; zify; divmod_lia.
Qed.

(** One turn of [appendString] on the encoding of a rune. *)
Lemma escape_step_rune r s :
  scalar r -> escape_step (encodeRune r +:+ s) = (escape_rune r, s).
Proof.
  intros Hr. destruct (N.ltb_spec r 128) as [Hlt|Hge].
  - unfold escape_rune. destruct (N.ltb_spec r 128); [|lia].
    assert (He : encodeRune r = str1 r).
    { unfold encodeRune. destruct (N.leb_spec r 127); [reflexivity|lia]. }
    rewrite He. unfold str1. rewrite sapp_cons. unfold escape_step.
    rewrite byte_val_chr by lia. destruct (N.ltb_spec r 128); [|lia].
    reflexivity.
  - destruct (encodeRune_head r Hr Hge) as (c & rest & He & Hc & Hlen).
    pose proof (decode_encode r s Hr) as Hd.
    unfold escape_rune. destruct (N.ltb_spec r 128); [lia|].
    unfold escape_step. rewrite He in Hd, Hlen |- *. rewrite sapp_cons in Hd |- *.
    destruct (N.ltb_spec (byte_val c) 128); [lia|].
    rewrite Hd.
    assert (Hsz : (String.length (String c rest) =? 1)%nat = false).
    { apply Nat.eqb_neq. lia. }
    rewrite Hsz, andb_false_r.
    rewrite <- sapp_cons, sdrop_app, stake_app.
    destruct ((r =? 8232) || (r =? 8233)); reflexivity.
Qed.

(** One turn of [unquoteBytes] on what [appendString] wrote for a
    rune gives the encoding of the rune back. *)
Lemma unquote_step_rune r t :
  scalar r -> unquote_step (escape_rune r +:+ t) = Some (encodeRune r, t).
Proof.
  intros Hr. destruct (N.ltb_spec r 128) as [Hlt|Hge].
  - clear Hr. enum_below_128 r; try (exfalso; lia); reflexivity.
  - unfold escape_rune. destruct (N.ltb_spec r 128); [lia|].
    destruct (N.eqb_spec r 8232) as [->|]; [reflexivity|].
    destruct (N.eqb_spec r 8233) as [->|]; [reflexivity|].
    cbn [orb].
    destruct (encodeRune_head r Hr Hge) as (c & rest & He & Hc & Hlen).
    pose proof (decode_encode r t Hr) as Hd.
    rewrite He in Hd |- *. rewrite sapp_cons in Hd |- *.
    unfold unquote_step. rewrite Hd.
    unfold cBackslash, cQuote.
    destruct (N.eqb_spec (byte_val c) 92); [lia|].
    destruct (N.eqb_spec (byte_val c) 34); [lia|].
    destruct (N.ltb_spec (byte_val c) 32); [lia|].
    destruct (N.ltb_spec (byte_val c) 128); [lia|].
    cbn [orb]. rewrite <- sapp_cons, sdrop_app, He. reflexivity.
Qed.

Lemma escape_rune_head r :
  scalar r ->
  exists c rest, escape_rune r = String c rest /\ byte_eqb c cQuote = false.
Proof.
  intros Hr. destruct (N.ltb_spec r 128) as [Hlt|Hge].
  - clear Hr. enum_below_128 r; try (exfalso; lia); eexists _, _; split; reflexivity.
  - unfold escape_rune. destruct (N.ltb_spec r 128); [lia|].
    destruct ((r =? 8232) || (r =? 8233)); [eexists _, _; split; reflexivity|].
    destruct (encodeRune_head r Hr Hge) as (c & rest & He & Hc & Hlen).
    exists c, rest. split; [exact He|]. unfold byte_eqb, cQuote.
    apply N.eqb_neq. lia.
Qed.


Lemma encodeRune_nonempty r : exists c rest, encodeRune r = String c rest.
Proof.
  unfold encodeRune, enc3, str1.
  repeat match goal with |- context [if ?b then _ else _] => destruct b end;
    eexists _, _; reflexivity.
Qed.

Lemma escape_loop_runes rs :
  Forall scalar rs ->
  forall fuel, (String.length (encodeRunes rs) <= fuel)%nat ->
  escape_loop fuel (encodeRunes rs) = escaped rs.
Proof.
  induction 1 as [|r rs Hr Hrs IH]; intros fuel Hf.
  - destruct fuel; reflexivity.
  - cbn [encodeRunes escaped fold_right] in *. fold (encodeRunes rs) in *.
    fold (escaped rs).
    rewrite sapp_length in Hf.
    destruct (encodeRune_nonempty r) as (c & rest & He).
    destruct fuel as [|f]; [rewrite He in Hf; cbn in Hf; lia|].
    pose proof (escape_step_rune r (encodeRunes rs) Hr) as Hs.
    rewrite He in Hs, Hf |- *. rewrite sapp_cons in Hs |- *.
    cbn [escape_loop]. rewrite Hs. rewrite IH; [reflexivity|]. cbn in Hf. lia.
Qed.

Lemma escape_runes rs : Forall scalar rs -> escape (encodeRunes rs) = escaped rs.
Proof. intros H. apply escape_loop_runes; [exact H | lia]. Qed.

Lemma unquote_loop_runes rs rest :
  Forall scalar rs ->
  forall fuel, (String.length (escaped rs) < fuel)%nat ->
  unquote_loop fuel (escaped rs +:+ String (chr cQuote) rest)
  = Some (encodeRunes rs, rest).
Proof.
  induction 1 as [|r rs Hr Hrs IH]; intros fuel Hf.
  - destruct fuel as [|f]; [cbn in Hf; lia|]. reflexivity.
  - cbn [encodeRunes escaped fold_right] in *. fold (encodeRunes rs).
    fold (escaped rs) in *. rewrite sapp_length in Hf. rewrite sapp_assoc.
    destruct (escape_rune_head r Hr) as (c & tl & He & Hq).
    pose proof (unquote_step_rune r (escaped rs +:+ String (chr cQuote) rest) Hr) as Hs.
    destruct fuel as [|f]; [lia|].
    rewrite He in Hs, Hf |- *. rewrite sapp_cons in Hs |- *.
    cbn [unquote_loop]. rewrite Hq, Hs. rewrite IH; [reflexivity|]. cbn in Hf. lia.
Qed.

(** A literal written by [quote] is read back by [parse_string]. *)
Lemma parse_string_escape s rest :
  valid_utf8 s ->
  parse_string (escape s +:+ String (chr cQuote) rest) = Some (s, rest).
Proof.
  intros (rs & Hrs & ->). rewrite (escape_runes rs Hrs). unfold parse_string.
  apply unquote_loop_runes; [exact Hrs|]. rewrite sapp_length. cbn. lia.
Qed.

Lemma RuneError_scalar : scalar RuneError.
Proof. split; [unfold RuneError, MaxRune; lia | reflexivity]. Qed.

(** [EncodeRune] writes the encoding of some rune that has one: the
    rune itself, or U+FFFD. *)
Lemma encodeRune_sanitize r : exists r', scalar r' /\ encodeRune r = encodeRune r'.
Proof.
  destruct (N.leb_spec r MaxRune) as [Hm|Hm].
  - destruct (isSurrogate r) eqn:Hs.
    + exists RuneError. split; [apply RuneError_scalar|].
      unfold encodeRune. rewrite Hs. unfold isSurrogate in Hs.
      apply andb_true_iff in Hs. destruct Hs as [H1 H2]. apply N.leb_le in H1.
      destruct (N.leb_spec r 127); [lia|]. destruct (N.leb_spec r 2047); [lia|].
      rewrite orb_true_r. reflexivity.
    + exists r. split; [split; assumption | reflexivity].
  - exists RuneError. split; [apply RuneError_scalar|].
    unfold encodeRune. unfold MaxRune in *.
    destruct (N.leb_spec r 127); [lia|]. destruct (N.leb_spec r 2047); [lia|].
    destruct (N.ltb_spec 1114111 r); [|lia]. reflexivity.
Qed.

Lemma encodeRunes_app a b : encodeRunes (a ++ b) = encodeRunes a +:+ encodeRunes b.
Proof.
  induction a as [|r a IH]; [reflexivity|].
  cbn [app encodeRunes fold_right]. fold (encodeRunes (a ++ b)) (encodeRunes a).
  rewrite IH, sapp_assoc. reflexivity.
Qed.

Lemma valid_utf8_nil : valid_utf8 EmptyString.
Proof. exists []. split; [constructor | reflexivity]. Qed.

Lemma valid_utf8_app s t : valid_utf8 s -> valid_utf8 t -> valid_utf8 (s +:+ t).
Proof.
  intros (a & Ha & ->) (b & Hb & ->). exists (a ++ b). split.
  - apply Forall_app; split; assumption.
  - symmetry. apply encodeRunes_app.
Qed.

Lemma valid_utf8_rune r : valid_utf8 (encodeRune r).
Proof.
  destruct (encodeRune_sanitize r) as (r' & Hr' & ->).
  exists [r']. split; [constructor; [exact Hr' | constructor]|].
  cbn. rewrite sapp_nil_r. reflexivity.
Qed.

Lemma valid_utf8_ascii n : n < 128 -> valid_utf8 (str1 n).
Proof.
  intros H. replace (str1 n) with (encodeRune n); [apply valid_utf8_rune|].
  unfold encodeRune. destruct (N.leb_spec n 127); [reflexivity|lia].
Qed.

(** Whatever [unquoteBytes] writes in one turn is well-formed UTF-8. *)
Lemma unquote_step_valid s out s' :
  unquote_step s = Some (out, s') -> valid_utf8 out.
Proof.
  unfold unquote_step. destruct s as [|c r]; [discriminate|].
  destruct (N.eqb_spec (byte_val c) cBackslash) as [Hb|Hb].
  - destruct r as [|e r']; [discriminate|].
    destruct (N.eqb_spec (byte_val e) cQuote) as [E|_];
      [intros H; inversion H; rewrite E; apply valid_utf8_ascii; reflexivity|].
    destruct (N.eqb_spec (byte_val e) cBackslash) as [E|_];
      [intros H; inversion H; rewrite E; apply valid_utf8_ascii; reflexivity|].
    destruct (N.eqb_spec (byte_val e) cSlash) as [E|_];
      [intros H; inversion H; rewrite E; apply valid_utf8_ascii; reflexivity|].
    cbn [orb].
    do 5 (match goal with
          | |- context [N.eqb (byte_val e) ?n] =>
              destruct (N.eqb_spec (byte_val e) n) as [_|_];
              [intros H; inversion H; apply valid_utf8_ascii; reflexivity|]
          end).
    destruct (byte_val e =? 117); [|discriminate].
    destruct (getu4 (String c (String e r'))) as [rr|]; [|discriminate].
    destruct (isSurrogate rr).
    + destruct (getu4 _) as [rr1|].
      * destruct (_ =? RuneError); intros H; inversion H; apply valid_utf8_rune.
      * intros H; inversion H; apply valid_utf8_rune.
    + intros H; inversion H; apply valid_utf8_rune.
  - destruct ((byte_val c =? cQuote) || (byte_val c <? 32)); [discriminate|].
    destruct (N.ltb_spec (byte_val c) 128) as [Hlt|Hge].
    + intros Hx; inversion Hx; subst. rewrite <- (chr_byte_val c).
      apply valid_utf8_ascii. assumption.
    + destruct (decodeRune (String c r)) as [rr size].
      intros Hx; inversion Hx; apply valid_utf8_rune.
Qed.

(** An unquoted literal is well-formed UTF-8. *)
Lemma unquote_loop_valid fuel : forall s t rest,
  unquote_loop fuel s = Some (t, rest) -> valid_utf8 t.
Proof.
  induction fuel as [|f IH]; intros s t rest; [discriminate|].
  destruct s as [|c r]; [discriminate|]. cbn [unquote_loop].
  destruct (byte_eqb c cQuote).
  - intros H; inversion H; apply valid_utf8_nil.
  - destruct (unquote_step (String c r)) as [[out s']|] eqn:Es; [|discriminate].
    destruct (unquote_loop f s') as [[t' rest']|] eqn:El; [|discriminate].
    intros H; inversion H; subst.
    apply valid_utf8_app; [apply (unquote_step_valid _ _ _ Es) | apply (IH _ _ _ El)].
Qed.


Lemma unquote_loop_plain k X : forall fuel,
  plain_ascii k = true -> (String.length k < fuel)%nat ->
  unquote_loop fuel (k +:+ String (chr cQuote) X) = Some (k, X).
Proof.
  induction k as [|c k IH]; intros fuel Hk Hf.
  - destruct fuel; [cbn in Hf; lia|]. reflexivity.
  - destruct fuel as [|f]; [lia|]. cbn in Hk.
    apply andb_true_iff in Hk. destruct Hk as [Hk Hrest].
    apply andb_true_iff in Hk. destruct Hk as [Hk Hb].
    apply andb_true_iff in Hk. destruct Hk as [Hk Hq].
    apply negb_true_iff in Hb, Hq.
    rewrite sapp_cons. cbn [unquote_loop]. rewrite Hq.
    unfold unquote_step. unfold byte_eqb in Hb, Hq. rewrite Hb, Hq.
    unfold byte_in in Hk. apply andb_true_iff in Hk. destruct Hk as [Hlo Hhi].
    apply N.leb_le in Hlo, Hhi.
    destruct (N.ltb_spec (byte_val c) 32); [lia|].
    destruct (N.ltb_spec (byte_val c) 128); [|lia].
    cbn [orb]. rewrite IH; [reflexivity | exact Hrest | cbn in Hf; lia].
Qed.

Lemma parse_string_plain k X :
  plain_ascii k = true -> parse_string (k +:+ String (chr cQuote) X) = Some (k, X).
Proof.
  intros Hk. apply unquote_loop_plain; [exact Hk|]. rewrite sapp_length. cbn. lia.
Qed.

Lemma formatInt_head y :
  exists c r, formatInt y = String c r
              /\ (byte_val c = cMinus \/ is_digit c = true).
Proof.
  unfold formatInt. destruct (y <? 0)%Z.
  - eexists _, _. split; [reflexivity|]. left. reflexivity.
  - destruct (N.to_uint (Z.to_N y)) as [|d|d|d|d|d|d|d|d|d|d];
      eexists _, _; (split; [reflexivity|]); right; reflexivity.
Qed.

Lemma parse_value_number f d y rest :
  number_end rest ->
  parse_value (S f) d (formatInt y +:+ rest) = Some (JNumber (formatInt y), rest).
Proof.
  intros Hr. pose proof (scan_number_format y rest Hr) as Hs.
  destruct (formatInt_head y) as (c & r & He & Hc). rewrite He in Hs |- *.
  rewrite sapp_cons in Hs |- *. cbn [parse_value]. rewrite Hs.
  destruct Hc as [Hc|Hc].
  - rewrite Hc. reflexivity.
  - unfold is_digit, byte_in in Hc |- *. apply andb_true_iff in Hc.
    destruct Hc as [Hlo Hhi]. apply N.leb_le in Hlo, Hhi.
    unfold cQuote, cLBrace, cLBracket, cMinus.
    repeat match goal with
      | |- context [N.eqb (byte_val c) ?n] =>
          destruct (N.eqb_spec (byte_val c) n); [lia|]
      end.
    cbn [orb].
    destruct (N.leb_spec 48 (byte_val c)); [|lia].
    destruct (N.leb_spec (byte_val c) 57); [|lia]. reflexivity.
Qed.

(** A member whose value is a string literal written by [quote],
    followed by a comma. *)
Lemma parse_members_string f d k s Z :
  plain_ascii k = true -> valid_utf8 s ->
  parse_members (S (S f)) d
    (String (chr cQuote) (k +:+ String (chr cQuote) (String (chr cColon)
       (quote s +:+ String (chr cComma) (String (chr cQuote) Z)))))
  = match parse_members (S f) d (String (chr cQuote) Z) with
    | Some (ms, r) => Some ((k, JString s) :: ms, r)
    | None => None
    end.
Proof.
  intros Hk Hs. cbn [parse_members].
  change (byte_eqb (chr cQuote) cQuote) with true. cbn match.
  rewrite (parse_string_plain k _ Hk).
  cbn [skip_ws]. change (is_space (chr cColon)) with false. cbn match.
  change (byte_eqb (chr cColon) cColon) with true. cbn match.
  unfold quote. rewrite sapp_cons, sapp_assoc. unfold str1. rewrite sapp_cons, sapp_nil_l.
  cbn [skip_ws]. change (is_space (chr cQuote)) with false. cbn match.
  cbn [parse_value]. change (byte_val (chr cQuote) =? cQuote) with true. cbn match.
  rewrite (parse_string_escape s _ Hs).
  cbn [skip_ws]. change (is_space (chr cComma)) with false. cbn match.
  change (byte_eqb (chr cComma) cRBrace) with false.
  change (byte_eqb (chr cComma) cComma) with true. cbn match.
  cbn [skip_ws]. change (is_space (chr cQuote)) with false. cbn match.
  reflexivity.
Qed.

(** The last member: a number written by [formatInt], and the closing
    brace. *)
Lemma parse_members_number f d k y Z :
  plain_ascii k = true ->
  parse_members (S (S f)) d
    (String (chr cQuote) (k +:+ String (chr cQuote) (String (chr cColon)
       (formatInt y +:+ String (chr cRBrace) Z))))
  = Some ([(k, JNumber (formatInt y))], Z).
Proof.
  intros Hk. cbn [parse_members].
  change (byte_eqb (chr cQuote) cQuote) with true. cbn match.
  rewrite (parse_string_plain k _ Hk).
  cbn [skip_ws]. change (is_space (chr cColon)) with false. cbn match.
  change (byte_eqb (chr cColon) cColon) with true. cbn match.
  destruct (formatInt_head y) as (c & r & He & Hc).
  assert (Hsp : skip_ws (formatInt y +:+ String (chr cRBrace) Z)
                = formatInt y +:+ String (chr cRBrace) Z).
  { rewrite He, sapp_cons. cbn [skip_ws].
    assert (is_space c = false) as ->; [|reflexivity].
    unfold is_space, byte_eqb. destruct Hc as [Hc|Hc].
    - rewrite Hc. reflexivity.
    - unfold is_digit, byte_in in Hc. apply andb_true_iff in Hc.
      destruct Hc as [Hlo Hhi]. apply N.leb_le in Hlo, Hhi.
      repeat match goal with
        | |- context [N.eqb (byte_val c) ?n] =>
            destruct (N.eqb_spec (byte_val c) n); [lia|]
        end. reflexivity. }
  rewrite Hsp. rewrite (parse_value_number f d y); [|repeat split; reflexivity].
  cbn [skip_ws]. change (is_space (chr cRBrace)) with false. cbn match.
  change (byte_eqb (chr cRBrace) cRBrace) with true. cbn match. reflexivity.
Qed.


Lemma marshalCar_shape c :
  marshalCar c
  = String (chr cLBrace) (String (chr cQuote) ("id" +:+ String (chr cQuote) (String (chr cColon)
      (quote (ID c) +:+ String (chr cComma) (String (chr cQuote)
        ("make" +:+ String (chr cQuote) (String (chr cColon)
          (quote (Make c) +:+ String (chr cComma) (String (chr cQuote)
            ("model" +:+ String (chr cQuote) (String (chr cColon)
              (quote (Model c) +:+ String (chr cComma) (String (chr cQuote)
                ("year" +:+ String (chr cQuote) (String (chr cColon)
                  (formatInt (Year c) +:+ String (chr cRBrace) EmptyString)))))))))))))))).
Proof. reflexivity. Qed.

(** The scanner reads the text of a record as the object of its four
    members. *)
Lemma decode_marshalCar c :
  valid_utf8 (ID c) -> valid_utf8 (Make c) -> valid_utf8 (Model c) ->
  decode (marshalCar c) = Some (JObject (members_of c)).
Proof.
  intros Hi Hm Hd. unfold decode.
  assert (Hlen : exists n, String.length (marshalCar c) = S (S (S (S (S n))))).
  { rewrite marshalCar_shape. cbn [String.length]. rewrite !sapp_cons. cbn [String.length].
    eexists. reflexivity. }
  destruct Hlen as [n Hlen]. rewrite Hlen. rewrite marshalCar_shape.
  cbn [skip_ws]. change (is_space (chr cLBrace)) with false. cbn match.
  cbn [parse_value]. change (byte_val (chr cLBrace) =? cQuote) with false.
  change (byte_val (chr cLBrace) =? cLBrace) with true.
  change (maxNestingDepth <=? 0) with false. cbn match.
  cbn [skip_ws]. change (is_space (chr cQuote)) with false. cbn match.
  change (byte_eqb (chr cQuote) cRBrace) with false. cbn match.
  rewrite (parse_members_string _ _ "id" (ID c) _ eq_refl Hi).
  rewrite (parse_members_string _ _ "make" (Make c) _ eq_refl Hm).
  rewrite (parse_members_string _ _ "model" (Model c) _ eq_refl Hd).
  rewrite (parse_members_number _ _ "year" (Year c) _ eq_refl).
  reflexivity.
Qed.

Lemma unmarshal_members_of c :
  in_int64 (Year c) -> unmarshal_object (members_of c) = (c, false).
Proof.
  intros Hy. unfold unmarshal_object, members_of. cbn [fold_left].
  unfold decode_member. cbn [fst snd].
  change (field_of_key "id") with (Some FID).
  change (field_of_key "make") with (Some FMake).
  change (field_of_key "model") with (Some FModel).
  change (field_of_key "year") with (Some FYear).
  cbn [set_field zeroCar ID Make Model Year].
  rewrite (ParseInt_format _ Hy). destruct c; reflexivity.
Qed.

(** What [Marshal] writes for a record, [Unmarshal] reads back. *)
Lemma Unmarshal_marshalCar c : wf_car c -> Unmarshal (marshalCar c) = Some c.
Proof.
  intros (Hi & Hm & Hd & Hy). unfold Unmarshal.
  rewrite (decode_marshalCar c Hi Hm Hd), (unmarshal_members_of c Hy). reflexivity.
Qed.

Lemma parse_value_ok fuel depth s v rest :
  parse_value fuel depth s = Some (v, rest) -> json_ok v.
Proof.
  destruct fuel as [|f]; [discriminate|]. destruct s as [|c r]; [discriminate|].
  cbn [parse_value].
  repeat match goal with
    | |- context [if ?b then _ else _] => destruct b
    | |- context [match ?x with Some _ => _ | None => _ end] => destruct x as [[? ?]|] eqn:?
    | |- context [match ?x with Some _ => _ | None => _ end] => destruct x as [?|] eqn:?
    | |- context [match ?x with EmptyString => _ | String _ _ => _ end] => destruct x
    end;
    try discriminate; intros H; inversion H; subst; try exact I.
  cbn. unfold parse_string in *. eapply unquote_loop_valid. eassumption.
Qed.

Lemma parse_members_ok fuel : forall depth s ms rest,
  parse_members fuel depth s = Some (ms, rest) ->
  Forall (fun m => json_ok (snd m)) ms.
Proof.
  induction fuel as [|f IH]; intros depth s ms rest; [discriminate|].
  destruct s as [|c r]; [discriminate|]. cbn [parse_members].
  destruct (byte_eqb c cQuote); [|discriminate].
  destruct (parse_string r) as [[k r1]|]; [|discriminate].
  destruct (skip_ws r1) as [|c2 r2]; [discriminate|].
  destruct (byte_eqb c2 cColon); [|discriminate].
  destruct (parse_value f depth (skip_ws r2)) as [[v r3]|] eqn:Ev; [|discriminate].
  pose proof (parse_value_ok _ _ _ _ _ Ev) as Hv.
  destruct (skip_ws r3) as [|c4 r4]; [discriminate|].
  destruct (byte_eqb c4 cRBrace).
  - intros H; inversion H; subst. constructor; [exact Hv | constructor].
  - destruct (byte_eqb c4 cComma); [|discriminate].
    destruct (parse_members f depth (skip_ws r4)) as [[ms' r5]|] eqn:Em; [|discriminate].
    intros H; inversion H; subst. constructor; [exact Hv | apply (IH _ _ _ _ Em)].
Qed.

Lemma decode_object_ok body ms :
  decode body = Some (JObject ms) -> Forall (fun m => json_ok (snd m)) ms.
Proof.
  unfold decode.
  destruct (parse_value _ 0 (skip_ws body)) as [[v rest]|] eqn:E; [|discriminate].
  destruct (skip_ws rest); [|discriminate]. intros H; inversion H; subst.
  cbn [parse_value] in E. destruct (skip_ws body) as [|c r]; [discriminate|].
  repeat match type of E with
    | context [if ?b then _ else _] => destruct b
    | context [match ?x with Some _ => _ | None => _ end] => destruct x as [[? ?]|] eqn:?
    | context [match ?x with Some _ => _ | None => _ end] => destruct x as [?|] eqn:?
    | context [match ?x with EmptyString => _ | String _ _ => _ end] => destruct x
    end; try discriminate; inversion E; subst; try constructor.
  eapply parse_members_ok. eassumption.
Qed.

Lemma wf_zeroCar : wf_car zeroCar.
Proof.
  repeat split; try apply valid_utf8_nil; unfold minInt64, maxInt64; cbn; lia.
Qed.

Lemma decode_member_wf st m :
  json_ok (snd m) -> wf_car (fst st) -> wf_car (fst (decode_member st m)).
Proof.
  destruct st as [c e], m as [k v]. cbn [fst snd]. intros Hv Hc.
  unfold decode_member. cbn [fst snd]. destruct (field_of_key k) as [f|]; [|exact Hc].
  destruct Hc as (Hi & Hm & Hd & Hy).
  destruct v as [|b|lit|s|l|l]; cbn [json_ok] in Hv; destruct f;
    cbn [set_field fst]; unfold wf_car; cbn [ID Make Model Year]; try tauto.
  destruct (ParseInt lit) as [n [err|]] eqn:Ep; cbn [fst ID Make Model Year];
    [tauto|]. pose proof (ParseInt_in_range _ _ Ep). tauto.
Qed.

Lemma fold_decode_wf ms : forall st,
  Forall (fun m => json_ok (snd m)) ms -> wf_car (fst st) ->
  wf_car (fst (fold_left decode_member ms st)).
Proof.
  induction ms as [|m ms IH]; intros st Hok Hst; [exact Hst|].
  inversion Hok; subst. cbn [fold_left].
  apply IH; [assumption | apply decode_member_wf; assumption].
Qed.

Lemma unmarshal_object_wf ms :
  Forall (fun m => json_ok (snd m)) ms -> wf_car (fst (unmarshal_object ms)).
Proof. intros H. apply fold_decode_wf; [exact H | apply wf_zeroCar]. Qed.

(** A record [Unmarshal] returns is well formed. *)
Lemma Unmarshal_wf body c : Unmarshal body = Some c -> wf_car c.
Proof.
  unfold Unmarshal. destruct (decode body) as [[| | | | |ms]|] eqn:E; try discriminate.
  - intros H; inversion H. apply wf_zeroCar.
  - pose proof (unmarshal_object_wf ms (decode_object_ok _ _ E)) as Hw.
    destruct (unmarshal_object ms) as [c' [|]]; [discriminate|].
    intros H; inversion H; subst. exact Hw.
Qed.


(** ** The fuel of the loops is enough *)

Section Fuel.
Local Open Scope nat_scope.

Lemma skip_ws_length s : String.length (skip_ws s) <= String.length s.
Proof.
  induction s as [|c r IH]; [reflexivity|]. cbn [skip_ws].
  destruct (is_space c); cbn [String.length]; lia.
Qed.

Lemma sdrop_length n : forall s, String.length (sdrop n s) = String.length s - n.
Proof.
  induction n as [|n IH]; intros s; [destruct s; cbn; lia|].
  destruct s as [|c r]; [reflexivity|]. cbn [sdrop String.length]. rewrite IH. lia.
Qed.

Lemma decodeRune_size c r : 1 <= snd (decodeRune (String c r)).
Proof.
  unfold decodeRune.
  repeat match goal with
    | |- context [if ?b then _ else _] => destruct b
    | |- context [match ?x with Some _ => _ | None => _ end] => destruct x as [[[? ?] ?]|]
    | |- context [match ?x with EmptyString => _ | String _ _ => _ end] => destruct x
    end; cbn [snd]; lia.
Qed.

Lemma getu4_length s r : getu4 s = Some r -> 6 <= String.length s.
Proof.
  unfold getu4.
  destruct s as [|c0 [|c1 [|h1 [|h2 [|h3 [|h4 s]]]]]]; try discriminate.
  intros _. cbn [String.length]. lia.
Qed.

Lemma unquote_step_shorter s out s' :
  unquote_step s = Some (out, s') -> String.length s' < String.length s.
Proof.
  unfold unquote_step. destruct s as [|c r]; [discriminate|].
  destruct (byte_val c =? cBackslash)%N.
  - destruct r as [|e r']; [discriminate|].
    repeat match goal with
      | |- context [if ?b then Some (_, r') else _] => destruct b;
          [intros H; inversion H; subst; cbn [String.length]; lia|]
      end.
    destruct (byte_val e =? 117)%N; [|discriminate].
    destruct (getu4 (String c (String e r'))) as [rr|] eqn:E1; [|discriminate].
    pose proof (getu4_length _ _ E1) as H1.
    pose proof (sdrop_length 6 (String c (String e r'))) as H6.
    remember (sdrop 6 (String c (String e r'))) as r6 eqn:Er6.
    pose proof (sdrop_length 6 r6) as H12.
    remember (sdrop 6 r6) as r12 eqn:Er12.
    destruct (isSurrogate rr).
    + destruct (getu4 r6) as [rr1|] eqn:E2.
      * destruct (_ =? RuneError)%N; intros H; inversion H; subst s'; lia.
      * intros H; inversion H; subst s'. lia.
    + intros H; inversion H; subst s'. lia.
  - destruct ((byte_val c =? cQuote)%N || (byte_val c <? 32)%N); [discriminate|].
    destruct (byte_val c <? 128)%N.
    + intros H; inversion H; subst. cbn [String.length]. lia.
    + pose proof (decodeRune_size c r) as Hs.
      destruct (decodeRune (String c r)) as [rr size]. cbn [snd] in Hs.
      pose proof (sdrop_length size (String c r)) as Hd.
      remember (sdrop size (String c r)) as rd eqn:Erd.
      intros H; inversion H; subst s'. cbn [String.length] in *. lia.
Qed.

(** A run of [unquote_loop] that succeeds leaves less than it was
    given, and succeeds alike with any fuel that covers what it read. *)
Lemma unquote_loop_fuel f : forall s t rest,
  unquote_loop f s = Some (t, rest) ->
  String.length rest < String.length s
  /\ forall F, String.length s - String.length rest <= F ->
       unquote_loop F s = Some (t, rest).
Proof.
  induction f as [|f IH]; intros s t rest; [discriminate|].
  destruct s as [|c r]; [discriminate|]. cbn [unquote_loop].
  destruct (byte_eqb c cQuote) eqn:Eq.
  - intros H; inversion H; subst. cbn [String.length]. split; [lia|].
    intros F HF. destruct F as [|F]; [lia|]. cbn [unquote_loop]. rewrite Eq. reflexivity.
  - destruct (unquote_step (String c r)) as [[out s']|] eqn:Es; [|discriminate].
    destruct (unquote_loop f s') as [[t' rest']|] eqn:El; [|discriminate].
    intros H; inversion H; subst.
    pose proof (unquote_step_shorter _ _ _ Es) as Hs.
    destruct (IH _ _ _ El) as [Hr HF]. split; [lia|].
    intros F HF'. destruct F as [|F]; [lia|]. cbn [unquote_loop].
    rewrite Eq, Es. rewrite HF; [reflexivity | lia].
Qed.

(** The fuel of [parse_string] is enough: a literal that some fuel
    reads is read by [parse_string], with the same result. *)
Lemma parse_string_adequate f s t rest :
  unquote_loop f s = Some (t, rest) -> parse_string s = Some (t, rest).
Proof.
  intros H. destruct (unquote_loop_fuel f s t rest H) as [Hr HF].
  apply HF. lia.
Qed.

Lemma parse_string_shorter s t rest :
  parse_string s = Some (t, rest) -> String.length rest < String.length s.
Proof. intros H. apply (unquote_loop_fuel _ _ _ _ H). Qed.

Lemma escape_step_shorter c r :
  String.length (snd (escape_step (String c r))) < String.length (String c r).
Proof.
  unfold escape_step. destruct (byte_val c <? 128)%N; [cbn; lia|].
  pose proof (decodeRune_size c r) as Hs.
  destruct (decodeRune (String c r)) as [rr size]. cbn [snd] in Hs.
  repeat match goal with |- context [if ?b then _ else _] => destruct b end;
    cbn [snd]; rewrite ?sdrop_length; cbn [String.length]; lia.
Qed.

(** The fuel of [escape] is enough: more fuel writes the same text. *)
Lemma escape_loop_adequate f : forall s F,
  String.length s <= f -> String.length s <= F -> escape_loop F s = escape_loop f s.
Proof.
  induction f as [|f IH]; intros s F Hf HF.
  - destruct s; [destruct F; reflexivity | cbn in Hf; lia].
  - destruct s as [|c r]; [destruct F; reflexivity|].
    destruct F as [|F]; [cbn in HF; lia|]. cbn [escape_loop].
    pose proof (escape_step_shorter c r) as Hs.
    destruct (escape_step (String c r)) as [out r']. cbn [snd] in Hs.
    rewrite (IH r' F); [reflexivity | lia | lia].
Qed.

Lemma take_digits_length s : forall ds rest,
  take_digits s = (ds, rest) -> String.length rest <= String.length s.
Proof.
  induction s as [|c r IH]; intros ds rest H; cbn [take_digits] in H.
  - inversion H. reflexivity.
  - destruct (is_digit c).
    + destruct (take_digits r) as [ds' rest'] eqn:E. inversion H; subst.
      specialize (IH _ _ eq_refl). cbn [String.length]. lia.
    + inversion H. reflexivity.
Qed.

Lemma scan_int_shorter s ip rest :
  scan_int s = Some (ip, rest) -> String.length rest < String.length s.
Proof.
  unfold scan_int. destruct s as [|c r]; [discriminate|].
  destruct (byte_eqb c 48).
  - intros H; inversion H; subst. cbn [String.length]. lia.
  - destruct (byte_in 49 57 c); [|discriminate].
    destruct (take_digits r) as [ds rest'] eqn:E.
    pose proof (take_digits_length _ _ _ E).
    intros H0; inversion H0; subst. cbn [String.length]. lia.
Qed.

Lemma scan_frac_length s fp rest :
  scan_frac s = Some (fp, rest) -> String.length rest <= String.length s.
Proof.
  unfold scan_frac. destruct s as [|c r]; [intros H; inversion H; reflexivity|].
  destruct (byte_eqb c cDot).
  - destruct (take_digits r) as [ds rest'] eqn:E.
    pose proof (take_digits_length _ _ _ E).
    destruct ds; [discriminate|]. intros H0; inversion H0; subst.
    cbn [String.length]. lia.
  - intros H; inversion H; reflexivity.
Qed.

Lemma scan_exp_length s ep rest :
  scan_exp s = Some (ep, rest) -> String.length rest <= String.length s.
Proof.
  unfold scan_exp. destruct s as [|c r]; [intros H; inversion H; reflexivity|].
  destruct (byte_eqb c 101 || byte_eqb c 69).
  - destruct (match r with
              | String c1 r' =>
                  if byte_eqb c1 cPlus || byte_eqb c1 cMinus
                  then (String c1 EmptyString, r') else (EmptyString, r)
              | EmptyString => (EmptyString, r)
              end) as [sg r1] eqn:Esg.
    assert (Hr1 : String.length r1 <= String.length r).
    { destruct r as [|c1 r']; [inversion Esg; reflexivity|].
      destruct (byte_eqb c1 cPlus || byte_eqb c1 cMinus); inversion Esg; subst;
        cbn [String.length]; lia. }
    destruct (take_digits r1) as [ds rest'] eqn:E.
    pose proof (take_digits_length _ _ _ E).
    destruct ds; [discriminate|]. intros H0; inversion H0; subst.
    cbn [String.length]. lia.
  - intros H; inversion H; reflexivity.
Qed.

Lemma scan_number_shorter s lit rest :
  scan_number s = Some (lit, rest) -> String.length rest < String.length s.
Proof.
  unfold scan_number.
  destruct (match s with
            | String c r =>
                if byte_eqb c cMinus then (String c EmptyString, r) else (EmptyString, s)
            | EmptyString => (EmptyString, s)
            end) as [sg s1] eqn:Esg.
  assert (Hs1 : String.length s1 <= String.length s).
  { destruct s as [|c r]; [inversion Esg; reflexivity|].
    destruct (byte_eqb c cMinus); inversion Esg; subst; cbn [String.length]; lia. }
  destruct (scan_int s1) as [[ip s2]|] eqn:Ei; [|discriminate].
  destruct (scan_frac s2) as [[fp s3]|] eqn:Ef; [|discriminate].
  destruct (scan_exp s3) as [[ep s4]|] eqn:Ee; [|discriminate].
  pose proof (scan_int_shorter _ _ _ Ei). pose proof (scan_frac_length _ _ _ Ef).
  pose proof (scan_exp_length _ _ _ Ee).
  intros H2; inversion H2; subst. lia.
Qed.

Lemma strip_prefix_shorter w : forall s rest,
  w <> EmptyString -> strip_prefix w s = Some rest ->
  String.length rest < String.length s.
Proof.
  assert (Hle : forall w s rest, strip_prefix w s = Some rest ->
                  String.length rest <= String.length s).
  { induction w0 as [|a w' IH]; intros s rest H; cbn [strip_prefix] in H.
    - inversion H. reflexivity.
    - destruct s as [|b s']; [discriminate|]. destruct (Ascii.eqb a b); [|discriminate].
      apply IH in H. cbn [String.length]. lia. }
  destruct w as [|a w']; [congruence|]. intros s rest _ H. cbn [strip_prefix] in H.
  destruct s as [|b s']; [discriminate|]. destruct (Ascii.eqb a b); [|discriminate].
  apply Hle in H. cbn [String.length]. lia.
Qed.

(** A run of the parser that succeeds leaves less than it was given,
    and succeeds alike with any fuel that covers what it read. *)
Lemma parse_fuel f : forall d s,
  (forall v rest, parse_value f d s = Some (v, rest) ->
     String.length rest < String.length s
     /\ forall F, String.length s - String.length rest <= F ->
          parse_value F d s = Some (v, rest))
  /\ (forall ms rest, parse_members f d s = Some (ms, rest) ->
     String.length rest < String.length s
     /\ forall F, String.length s - String.length rest <= F ->
          parse_members F d s = Some (ms, rest))
  /\ (forall vs rest, parse_elements f d s = Some (vs, rest) ->
     String.length rest < String.length s
     /\ forall F, String.length s - String.length rest <= F ->
          parse_elements F d s = Some (vs, rest)).
Proof.
  induction f as [|f IH]; intros d s.
  { repeat split; intros; discriminate. }
  split; [|split].
  - (* a value *)
    intros v rest H. destruct s as [|c r]; [discriminate|]. cbn [parse_value] in H.
    destruct (byte_val c =? cQuote)%N eqn:E1.
    { destruct (parse_string r) as [[t rest']|] eqn:Ep; [|discriminate].
      inversion H; subst. pose proof (parse_string_shorter _ _ _ Ep).
      cbn [String.length]. split; [lia|]. intros F HF. destruct F as [|F]; [lia|].
      cbn [parse_value]. rewrite E1, Ep. reflexivity. }
    destruct (byte_val c =? cLBrace)%N eqn:E2.
    { destruct (maxNestingDepth <=? d)%N eqn:Ed; [discriminate|].
      pose proof (skip_ws_length r) as Hw.
      destruct (skip_ws r) as [|c1 r1] eqn:Ew; [discriminate|].
      destruct (byte_eqb c1 cRBrace) eqn:Eb.
      - inversion H; subst. cbn [String.length] in *. split; [lia|].
        intros F HF. destruct F as [|F]; [lia|].
        cbn [parse_value]. rewrite E1, E2, Ed, Ew, Eb. reflexivity.
      - destruct (parse_members f (d + 1) (String c1 r1)) as [[ms rest']|] eqn:Em;
          [|discriminate].
        inversion H; subst. destruct (IH (d + 1)%N (String c1 r1)) as (_ & IHm & _).
        destruct (IHm _ _ Em) as [Hr HF]. cbn [String.length] in *. split; [lia|].
        intros F HF'. destruct F as [|F]; [lia|].
        cbn [parse_value]. rewrite E1, E2, Ed, Ew, Eb. rewrite HF; [reflexivity|lia]. }
    destruct (byte_val c =? cLBracket)%N eqn:E3.
    { destruct (maxNestingDepth <=? d)%N eqn:Ed; [discriminate|].
      pose proof (skip_ws_length r) as Hw.
      destruct (skip_ws r) as [|c1 r1] eqn:Ew; [discriminate|].
      destruct (byte_eqb c1 cRBracket) eqn:Eb.
      - inversion H; subst. cbn [String.length] in *. split; [lia|].
        intros F HF. destruct F as [|F]; [lia|].
        cbn [parse_value]. rewrite E1, E2, E3, Ed, Ew, Eb. reflexivity.
      - destruct (parse_elements f (d + 1) (String c1 r1)) as [[vs rest']|] eqn:Em;
          [|discriminate].
        inversion H; subst. destruct (IH (d + 1)%N (String c1 r1)) as (_ & _ & IHe).
        destruct (IHe _ _ Em) as [Hr HF]. cbn [String.length] in *. split; [lia|].
        intros F HF'. destruct F as [|F]; [lia|].
        cbn [parse_value]. rewrite E1, E2, E3, Ed, Ew, Eb. rewrite HF; [reflexivity|lia]. }
    destruct (byte_val c =? 116)%N eqn:E4.
    { destruct (strip_prefix "true" (String c r)) as [rest'|] eqn:Es; [|discriminate].
      inversion H; subst.
      pose proof (strip_prefix_shorter "true" _ _ ltac:(discriminate) Es).
      split; [lia|]. intros F HF. destruct F as [|F]; [lia|].
      cbn [parse_value]. rewrite E1, E2, E3, E4, Es. reflexivity. }
    destruct (byte_val c =? 102)%N eqn:E5.
    { destruct (strip_prefix "false" (String c r)) as [rest'|] eqn:Es; [|discriminate].
      inversion H; subst.
      pose proof (strip_prefix_shorter "false" _ _ ltac:(discriminate) Es).
      split; [lia|]. intros F HF. destruct F as [|F]; [lia|].
      cbn [parse_value]. rewrite E1, E2, E3, E4, E5, Es. reflexivity. }
    destruct (byte_val c =? 110)%N eqn:E6.
    { destruct (strip_prefix "null" (String c r)) as [rest'|] eqn:Es; [|discriminate].
      inversion H; subst.
      pose proof (strip_prefix_shorter "null" _ _ ltac:(discriminate) Es).
      split; [lia|]. intros F HF. destruct F as [|F]; [lia|].
      cbn [parse_value]. rewrite E1, E2, E3, E4, E5, E6, Es. reflexivity. }
    destruct ((byte_val c =? cMinus)%N || is_digit c) eqn:E7; [|discriminate].
    destruct (scan_number (String c r)) as [[lit rest']|] eqn:Es; [|discriminate].
    inversion H; subst. pose proof (scan_number_shorter _ _ _ Es).
    split; [lia|]. intros F HF. destruct F as [|F]; [lia|].
    cbn [parse_value]. rewrite E1, E2, E3, E4, E5, E6, E7, Es. reflexivity.
  - (* the members of an object *)
    intros ms rest H. destruct s as [|c r]; [discriminate|]. cbn [parse_members] in H.
    destruct (byte_eqb c cQuote) eqn:E1; [|discriminate].
    destruct (parse_string r) as [[k r1]|] eqn:Ep; [|discriminate].
    pose proof (parse_string_shorter _ _ _ Ep) as Hk.
    pose proof (skip_ws_length r1) as Hw1.
    destruct (skip_ws r1) as [|c2 r2] eqn:Ew1; [discriminate|].
    destruct (byte_eqb c2 cColon) eqn:E2; [|discriminate].
    pose proof (skip_ws_length r2) as Hw2.
    destruct (parse_value f d (skip_ws r2)) as [[v r3]|] eqn:Ev; [|discriminate].
    destruct (IH d (skip_ws r2)) as (IHv & _ & _). destruct (IHv _ _ Ev) as [Hv HFv].
    pose proof (skip_ws_length r3) as Hw3.
    destruct (skip_ws r3) as [|c4 r4] eqn:Ew3; [discriminate|].
    destruct (byte_eqb c4 cRBrace) eqn:E3.
    + inversion H; subst. cbn [String.length] in *. split; [lia|].
      intros F HF. destruct F as [|F]; [lia|].
      cbn [parse_members]. rewrite E1, Ep, Ew1, E2. rewrite HFv by lia.
      rewrite Ew3, E3. reflexivity.
    + destruct (byte_eqb c4 cComma) eqn:E4; [|discriminate].
      pose proof (skip_ws_length r4) as Hw4.
      destruct (parse_members f d (skip_ws r4)) as [[ms' r5]|] eqn:Em; [|discriminate].
      destruct (IH d (skip_ws r4)) as (_ & IHm & _). destruct (IHm _ _ Em) as [Hm HFm].
      inversion H; subst. cbn [String.length] in *. split; [lia|].
      intros F HF. destruct F as [|F]; [lia|].
      cbn [parse_members]. rewrite E1, Ep, Ew1, E2. rewrite HFv by lia.
      rewrite Ew3, E3, E4. rewrite HFm by lia. reflexivity.
  - (* the elements of an array *)
    intros vs rest H. cbn [parse_elements] in H.
    destruct (parse_value f d s) as [[v r1]|] eqn:Ev; [|discriminate].
    destruct (IH d s) as (IHv & _ & _). destruct (IHv _ _ Ev) as [Hv HFv].
    pose proof (skip_ws_length r1) as Hw1.
    destruct (skip_ws r1) as [|c2 r2] eqn:Ew1; [discriminate|].
    destruct (byte_eqb c2 cRBracket) eqn:E1.
    + inversion H; subst. cbn [String.length] in *. split; [lia|].
      intros F HF. destruct F as [|F]; [lia|].
      cbn [parse_elements]. rewrite HFv by lia. rewrite Ew1, E1. reflexivity.
    + destruct (byte_eqb c2 cComma) eqn:E2; [|discriminate].
      pose proof (skip_ws_length r2) as Hw2.
      destruct (parse_elements f d (skip_ws r2)) as [[vs' r3]|] eqn:Ee; [|discriminate].
      destruct (IH d (skip_ws r2)) as (_ & _ & IHe). destruct (IHe _ _ Ee) as [He HFe].
      inversion H; subst. cbn [String.length] in *. split; [lia|].
      intros F HF. destruct F as [|F]; [lia|].
      cbn [parse_elements]. rewrite HFv by lia. rewrite Ew1, E1, E2.
      rewrite HFe by lia. reflexivity.
Qed.

(** The fuel of [decode] is enough: a text that the parser reads with
    some fuel is read by [decode], with the same result; so [decode]
    gives [None] for a text that no fuel reads. *)
Lemma decode_adequate fuel body v :
  decode_with fuel body = Some v -> decode body = Some v.
Proof.
  unfold decode, decode_with.
  destruct (parse_value fuel 0 (skip_ws body)) as [[v' rest]|] eqn:E; [|discriminate].
  destruct (parse_fuel fuel 0%N (skip_ws body)) as (Hv & _ & _).
  destruct (Hv _ _ E) as [_ HF]. pose proof (skip_ws_length body).
  rewrite (HF (S (String.length body))) by lia. trivial.
Qed.

Lemma decode_none body :
  decode body = None -> forall fuel, decode_with fuel body = None.
Proof.
  intros H fuel. destruct (decode_with fuel body) as [v|] eqn:E; [|reflexivity].
  apply decode_adequate in E. congruence.
Qed.

End Fuel.

(** ** The dispatcher and the environment *)

Section Dispatch.
Context {St : Type} (db : Client St).

Lemma handler_GET req : Method req = "GET"%string -> handler db req = handleGet db req.
Proof. intros H. unfold handler. rewrite H. reflexivity. Qed.

Lemma handler_POST req : Method req = "POST"%string -> handler db req = handlePost db req.
Proof. intros H. unfold handler. rewrite H. reflexivity. Qed.

Lemma handleGet_unset req (w : World St) :
  tableName w = EmptyString ->
  handleGet db req w = (Returned (plain StatusInternalServerError table_unset_body), w).
Proof.
  intros H. unfold handleGet, bind, Getenv. fold (tableName w). rewrite H.
  reflexivity.
Qed.

Lemma handlePost_undecodable req (w : World St) :
  Unmarshal (ReqBody req) = None ->
  handlePost db req w = (Returned (plain StatusBadRequest "invalid request body"), w).
Proof. intros H. unfold handlePost. rewrite H. reflexivity. Qed.

Lemma handlePost_unset req item (w : World St) :
  Unmarshal (ReqBody req) = Some item ->
  tableName w = EmptyString ->
  handlePost db req w = (Returned (plain StatusInternalServerError table_unset_body), w).
Proof.
  intros Hu H. unfold handlePost, bind, Getenv. rewrite Hu. fold (tableName w).
  rewrite H. reflexivity.
Qed.

(** What [handlePost] does once the body is decoded and the table is
    named: one [PutItem] of the item of the record. *)
Lemma handlePost_put req item (w : World St) :
  Unmarshal (ReqBody req) = Some item ->
  tableName w <> EmptyString ->
  handlePost db req w =
    let '(r, st) := PutItem db (tableName w) (itemOfCar item) (dbstate w) in
    (Returned
       match r with
       | Err e => plain StatusInternalServerError e
       | Ok _ => mkResponse StatusCreated (content_type "text/plain")
                   ("item " +:+ ID item +:+ " created")
       end,
     mkWorld (env w) st (calls w ++ [CallPutItem (tableName w) (itemOfCar item)])).
Proof.
  intros Hu H. apply String.eqb_neq in H.
  unfold handlePost, bind, Getenv, dbPutItem. rewrite Hu. fold (tableName w).
  rewrite H. cbn [env dbstate calls].
  destruct (PutItem db (tableName w) (itemOfCar item) (dbstate w)) as [[u|e] st];
    reflexivity.
Qed.

End Dispatch.

(** C9. A request whose method is neither GET nor POST is answered 405
    with the plain body "method not allowed", whatever its query and
    body; the world is left as it was, so no storage call is made. *)
Theorem other_method_not_allowed {St} (db : Client St) req (w : World St) :
  Method req <> "GET"%string ->
  Method req <> "POST"%string ->
  handler db req w
  = (Returned (mkResponse StatusMethodNotAllowed ∅ "method not allowed"), w).
Proof.
  intros Hg Hp. apply String.eqb_neq in Hg, Hp.
  unfold handler. rewrite Hg, Hp. reflexivity.
Qed.

Lemma other_method_not_allowed_witness :
  handler memClient (mkRequest "DELETE" "/" {[ "id"%string := "c1"%string ]} corolla_body) world0
  = (Returned (mkResponse 405 ∅ "method not allowed"), world0).
Proof.
  apply (other_method_not_allowed memClient
           (mkRequest "DELETE" "/" {[ "id"%string := "c1"%string ]} corolla_body) world0);
    discriminate.
Defined.

(** C6, as the code has it.  When [TABLE_NAME] is unset (or empty), a
    GET, and a POST whose body decodes, are answered 500; a POST whose
    body does not decode is answered 400, the body being decoded before
    the environment is read.  In each case the world is left as it was:
    no storage call is made. *)
Theorem table_name_unset {St} (db : Client St) req (w : World St) :
  tableName w = EmptyString ->
  (Method req = "GET"%string ->
   handler db req w
   = (Returned (mkResponse StatusInternalServerError ∅ table_unset_body), w))
  /\ (forall item, Method req = "POST"%string ->
      Unmarshal (ReqBody req) = Some item ->
      handler db req w
      = (Returned (mkResponse StatusInternalServerError ∅ table_unset_body), w))
  /\ (Method req = "POST"%string ->
      Unmarshal (ReqBody req) = None ->
      handler db req w
      = (Returned (mkResponse StatusBadRequest ∅ "invalid request body"), w)).
Proof.
  intros Henv. repeat split.
  - intros Hm. rewrite (handler_GET db req Hm). apply handleGet_unset, Henv.
  - intros item Hm Hu. rewrite (handler_POST db req Hm).
    apply (handlePost_unset db req item w Hu Henv).
  - intros Hm Hu. rewrite (handler_POST db req Hm).
    apply handlePost_undecodable, Hu.
Qed.

Lemma table_name_unset_witness :
  handler memClient (GET "c1") world_noenv
  = (Returned (mkResponse 500 ∅ table_unset_body), world_noenv)
  /\ handler memClient (POST corolla_body) world_noenv
     = (Returned (mkResponse 500 ∅ table_unset_body), world_noenv)
  /\ handler memClient (POST "{") world_noenv
     = (Returned (mkResponse 400 ∅ "invalid request body"), world_noenv).
Proof.
  split; [|split].
  - apply (table_name_unset memClient (GET "c1") world_noenv); reflexivity.
  - apply (table_name_unset memClient (POST corolla_body) world_noenv eq_refl)
      with (item := corolla); reflexivity.
  - apply (table_name_unset memClient (POST "{") world_noenv); reflexivity.
Defined.

(** C6 as stated fails: without [TABLE_NAME], a POST whose body is not
    JSON is answered 400, not 500. *)
Lemma table_name_unset_post_400 :
  tableName world_noenv = EmptyString
  /\ handler memClient (POST "not json") world_noenv
     = (Returned (mkResponse 400 ∅ "invalid request body"), world_noenv).
Proof. split; reflexivity. Qed.

(** ** The read path *)

Section ReadPath.
Context {St : Type} (db : Client St).

Lemma carOfItem_ok (it : Item) year (w : World St) :
  stringsOk it ->
  carOfItem it year w
  = (Returned (mkCar (stringAttr it "ID") (stringAttr it "Make")
                 (stringAttr it "Model") year), w).
Proof.
  intros ([a Ha] & [b Hb] & [c Hc]).
  unfold carOfItem, bind, stringAttr. rewrite Ha, Hb, Hc. reflexivity.
Qed.

Lemma scanItems_ok (items : list Item) : forall cars (w : World St),
  Forall stringsOk items ->
  scanItems items cars w = (Returned (cars ++ map scannedCar items), w).
Proof.
  induction items as [|it items IH]; intros cars w Hok.
  - cbn. rewrite app_nil_r. reflexivity.
  - inversion Hok as [|? ? Hit Hrest]; subst.
    cbn [scanItems]. unfold bind at 1.
    fold (scannedYear it). rewrite (carOfItem_ok it (scannedYear it) w Hit).
    rewrite (IH _ w Hrest). rewrite <- app_assoc. reflexivity.
Qed.

Lemma assertS_world (v : option AttributeValue) (w w' : World St) o :
  assertS v w = (o, w') -> w' = w.
Proof.
  unfold assertS, ret, panic.
  destruct v as [ [ s | s | s | s | s ] | ]; intros H; inversion H; reflexivity.
Qed.

Lemma assertS_panics (v : option AttributeValue) (w : World St) :
  (forall s, v <> Some (AttributeValueMemberS s)) ->
  assertS v w = (Panicked, w).
Proof.
  intros Hbad. destruct v as [ [ s | s | s | s | s ] | ]; try reflexivity.
  exfalso. apply (Hbad s). reflexivity.
Qed.

(** An item that lacks one of the string attributes, or has it of
    another kind, makes the [Car] literal panic. *)
Lemma carOfItem_panics (it : Item) year (w : World St) k :
  k = "ID"%string \/ k = "Make"%string \/ k = "Model"%string ->
  (forall s, it !! k <> Some (AttributeValueMemberS s)) ->
  carOfItem it year w = (Panicked, w).
Proof.
  intros Hk Hbad. unfold carOfItem, bind.
  destruct (assertS (it !! "ID"%string) w) as [[a|] w1] eqn:E1;
    pose proof (assertS_world _ _ _ _ E1) as ->; [|reflexivity].
  destruct (assertS (it !! "Make"%string) w) as [[b|] w2] eqn:E2;
    pose proof (assertS_world _ _ _ _ E2) as ->; [|reflexivity].
  destruct (assertS (it !! "Model"%string) w) as [[c|] w3] eqn:E3;
    pose proof (assertS_world _ _ _ _ E3) as ->; [|reflexivity].
  exfalso. destruct Hk as [ -> | [ -> | -> ] ].
  - rewrite (assertS_panics _ w Hbad) in E1. discriminate.
  - rewrite (assertS_panics _ w Hbad) in E2. discriminate.
  - rewrite (assertS_panics _ w Hbad) in E3. discriminate.
Qed.

Lemma handleGet_scan req (w : World St) :
  tableName w <> EmptyString ->
  queryId req = EmptyString ->
  handleGet db req w =
    let '(r, st) := Scan db (tableName w) (dbstate w) in
    let w' := mkWorld (env w) st (calls w ++ [CallScan (tableName w)]) in
    match r with
    | Err e => (Returned (plain StatusInternalServerError e), w')
    | Ok items =>
        match scanItems items [] w' with
        | (Returned cars, w'') =>
            (Returned (mkResponse StatusOK json_headers (marshalCars cars)), w'')
        | (Panicked, w'') => (Panicked, w'')
        end
    end.
Proof.
  intros Ht Hid. apply String.eqb_neq in Ht.
  unfold handleGet, bind, Getenv, dbScan. fold (tableName w) (queryId req).
  rewrite Ht, Hid. cbn [String.eqb].
  destruct (Scan db (tableName w) (dbstate w)) as [[items|e] st]; reflexivity.
Qed.

Lemma handleGet_lookup req (w : World St) :
  tableName w <> EmptyString ->
  queryId req <> EmptyString ->
  handleGet db req w =
    let '(r, st) := GetItem db (tableName w) (idKey (queryId req)) (dbstate w) in
    let w' := mkWorld (env w) st
                (calls w ++ [CallGetItem (tableName w) (idKey (queryId req))]) in
    match r with
    | Err e => (Returned (plain StatusInternalServerError e), w')
    | Ok None => (Returned (plain StatusNotFound "item not found"), w')
    | Ok (Some it) =>
        match assertN (it !! "Year"%string) with
        | None => (Returned (plain StatusInternalServerError "invalid year field"), w')
        | Some y =>
            match carOfItem it (fst (Atoi y)) w' with
            | (Returned item, w'') =>
                (Returned (mkResponse StatusOK json_headers (marshalCar item)), w'')
            | (Panicked, w'') => (Panicked, w'')
            end
        end
    end.
Proof.
  intros Ht Hid. apply String.eqb_neq in Ht, Hid.
  unfold handleGet, bind, Getenv, dbGetItem. fold (tableName w) (queryId req).
  rewrite Ht, Hid. fold (idKey (queryId req)).
  destruct (GetItem db (tableName w) (idKey (queryId req)) (dbstate w))
    as [[[it|]|e] st]; try reflexivity.
  destruct (assertN (it !! "Year"%string)); reflexivity.
Qed.

End ReadPath.

(** C7. A GET without an [id] parameter (or with an empty one), when the
    table is named and the scan succeeds with no item, is answered 200
    with the body [[]] and the JSON content type. *)
Theorem scan_of_empty_table {St} (db : Client St) req (w : World St) st' :
  Method req = "GET"%string ->
  queryId req = EmptyString ->
  tableName w <> EmptyString ->
  Scan db (tableName w) (dbstate w) = (Ok [], st') ->
  handler db req w
  = (Returned (mkResponse StatusOK (content_type "application/json") "[]"),
     after_call w st' (CallScan (tableName w))).
Proof.
  intros Hm Hid Ht Hs. rewrite (handler_GET db req Hm).
  rewrite (handleGet_scan db req w Ht Hid), Hs. reflexivity.
Qed.

Lemma scan_of_empty_table_witness :
  handler memClient GET_all world0
  = (Returned (mkResponse 200 (content_type "application/json") "[]"),
     after_call world0 ∅ (CallScan "MyItems")).
Proof.
  apply (scan_of_empty_table memClient GET_all world0 ∅);
    [reflexivity | reflexivity | discriminate | reflexivity].
Defined.

(** C8. A GET with an [id] for which the storage reports no item is
    answered 404 with the plain body "item not found". *)
Theorem lookup_not_found {St} (db : Client St) req (w : World St) st' :
  Method req = "GET"%string ->
  queryId req <> EmptyString ->
  tableName w <> EmptyString ->
  GetItem db (tableName w) (idKey (queryId req)) (dbstate w) = (Ok None, st') ->
  handler db req w
  = (Returned (mkResponse StatusNotFound ∅ "item not found"),
     after_call w st' (CallGetItem (tableName w) (idKey (queryId req)))).
Proof.
  intros Hm Hid Ht Hg. rewrite (handler_GET db req Hm).
  rewrite (handleGet_lookup db req w Ht Hid), Hg. reflexivity.
Qed.

Lemma lookup_not_found_witness :
  handler memClient (GET "missing") world_corolla
  = (Returned (mkResponse 404 ∅ "item not found"),
     after_call world_corolla (dbstate world_corolla)
       (CallGetItem "MyItems" (idKey "missing"))).
Proof.
  apply (lookup_not_found memClient (GET "missing") world_corolla
           (dbstate world_corolla));
    [reflexivity | discriminate | discriminate | reflexivity].
Defined.



(** A number attribute whose text is not a decimal integer is not such
    a case: [Atoi] fails, its error is dropped, and both paths answer 200
    with the value [Atoi] returns with the error (0, or the nearest bound
    of the range). *)
Lemma year_text_not_an_integer :
  let it : Item := <[ "Year"%string := AttributeValueMemberN "19.5" ]> item_year_string in
  let w := mkWorld {[ "TABLE_NAME"%string := "MyItems"%string ]}
             ({[ "MyItems"%string := {[ "c9"%string := it ]} ]} : MemState) [] in
  fst (handler memClient (GET "c9") w)
  = Returned (mkResponse 200 (content_type "application/json")
                (marshalCar (mkCar "c9" "Fiat" "Uno" 0)))
  /\ fst (handler memClient GET_all w)
     = Returned (mkResponse 200 (content_type "application/json")
                   (marshalCars [mkCar "c9" "Fiat" "Uno" 0])).
Proof. split; reflexivity. Qed.

(** C3 fails on the code.  An item without [Make] (or with [ID], [Make]
    or [Model] of another kind than string) is not mapped to a record
    with an empty field: the unchecked assertion panics, on the scan and
    on the read by id alike, and the handler returns no response. *)
Theorem item_without_make_panics :
  handler memClient GET_all world_no_make
  = (Panicked, after_call world_no_make (dbstate world_no_make) (CallScan "MyItems"))
  /\ handler memClient (GET "c2") world_no_make
     = (Panicked, after_call world_no_make (dbstate world_no_make)
                    (CallGetItem "MyItems" (idKey "c2"))).
Proof. split; reflexivity. Qed.

(** The same for every storage capability: a scan whose items are well
    formed up to one that has a string attribute missing or of another
    kind ends in a panic. *)
Lemma scan_ill_typed_item_panics {St} (db : Client St) req (w : World St)
    pre bad post st' k :
  Method req = "GET"%string ->
  queryId req = EmptyString ->
  tableName w <> EmptyString ->
  Scan db (tableName w) (dbstate w) = (Ok (pre ++ bad :: post), st') ->
  Forall stringsOk pre ->
  k = "ID"%string \/ k = "Make"%string \/ k = "Model"%string ->
  (forall s, bad !! k <> Some (AttributeValueMemberS s)) ->
  fst (handler db req w) = Panicked.
Proof.
  intros Hm Hid Ht Hs Hpre Hk Hbad. rewrite (handler_GET db req Hm).
  rewrite (handleGet_scan db req w Ht Hid), Hs. cbn zeta.
  assert (Hgen : forall items cars (w0 : World St), Forall stringsOk items ->
            scanItems (items ++ bad :: post) cars w0 = (Panicked, w0)).
  { induction items as [|it items IH]; intros cars w0 Hok.
    - cbn [app scanItems]. unfold bind at 1.
      rewrite (carOfItem_panics bad _ w0 k Hk Hbad). reflexivity.
    - inversion Hok as [|? ? Hit Hrest]; subst.
      cbn [app scanItems]. unfold bind at 1.
      rewrite (carOfItem_ok it _ w0 Hit). apply IH, Hrest. }
  rewrite (Hgen pre [] _ Hpre). reflexivity.
Qed.

(** ** The write path: what the decoder accepts *)

Lemma set_field_sticky f v c : snd (set_field f v (c, true)) = true.
Proof.
  destruct f, v; cbn; try reflexivity; destruct (ParseInt lit) as [n [e|]]; reflexivity.
Qed.

Lemma decode_member_sticky st m : snd st = true -> snd (decode_member st m) = true.
Proof.
  destruct st as [c e]. cbn. intros ->. unfold decode_member.
  destruct (field_of_key (fst m)); [apply set_field_sticky | reflexivity].
Qed.

Lemma fold_decode_sticky ms : forall st,
  snd st = true -> snd (fold_left decode_member ms st) = true.
Proof.
  induction ms as [|m ms IH]; intros st H; [exact H|].
  cbn. apply IH, decode_member_sticky, H.
Qed.

Lemma set_year_not_number v st :
  not_number v = true -> snd (set_field FYear v st) = true.
Proof. destruct st as [c e], v; cbn; congruence. Qed.

Lemma fold_decode_bad_year ms k v : forall st,
  In (k, v) ms -> field_of_key k = Some FYear -> not_number v = true ->
  snd (fold_left decode_member ms st) = true.
Proof.
  induction ms as [|m ms IH]; intros st Hin Hk Hv; [destruct Hin|].
  cbn. destruct Hin as [->|Hin].
  - apply fold_decode_sticky. unfold decode_member. cbn [fst snd]. rewrite Hk.
    apply set_year_not_number, Hv.
  - apply (IH _ Hin Hk Hv).
Qed.

Lemma fold_decode_filter ms : forall st,
  fold_left decode_member (List.filter known_member ms) st
  = fold_left decode_member ms st.
Proof.
  induction ms as [|m ms IH]; intros st; [reflexivity|].
  cbn [List.filter fold_left].
  destruct (known_member m) eqn:K; cbn [fold_left]; [apply IH|].
  assert (decode_member st m = st) as ->; [|apply IH].
  unfold decode_member, known_member in *.
  destruct (field_of_key (fst m)); [discriminate | reflexivity].
Qed.

Lemma Unmarshal_object body ms :
  decode body = Some (JObject ms) ->
  Unmarshal body
  = (let '(c, err) := unmarshal_object ms in if err : bool then None else Some c).
Proof. intros H. unfold Unmarshal. rewrite H. reflexivity. Qed.

Lemma itemOfCar_dom (item : Car) :
  dom (itemOfCar item)
  = ({[ "ID"%string; "Make"%string; "Model"%string; "Year"%string ]} : gset string).
Proof. unfold itemOfCar. rewrite !dom_insert_L, dom_singleton_L. set_solver. Qed.

(** C2, as the code has it.  A POST whose body is an object with a
    [year] member that is a string, a boolean, an array or an object is
    answered 400 and the world is left as it was: no storage call is
    made.  (The key is compared as the decoder compares it, so [Year]
    and [YEAR] are the same member.) *)
Theorem year_of_wrong_kind_rejected {St} (db : Client St) req (w : World St) ms k v :
  Method req = "POST"%string ->
  decode (ReqBody req) = Some (JObject ms) ->
  In (k, v) ms ->
  field_of_key k = Some FYear ->
  not_number v = true ->
  handler db req w
  = (Returned (mkResponse StatusBadRequest ∅ "invalid request body"), w).
Proof.
  intros Hm Hd Hin Hk Hv. rewrite (handler_POST db req Hm).
  apply handlePost_undecodable. rewrite (Unmarshal_object _ ms Hd).
  pose proof (fold_decode_bad_year ms k v (zeroCar, false) Hin Hk Hv) as He.
  unfold unmarshal_object. destruct (fold_left decode_member ms (zeroCar, false)) as [c e].
  cbn in He. rewrite He. reflexivity.
Qed.

Lemma year_of_wrong_kind_rejected_witness :
  handler memClient (POST body_year_string) world0
  = (Returned (mkResponse 400 ∅ "invalid request body"), world0).
Proof.
  apply (year_of_wrong_kind_rejected memClient (POST body_year_string) world0
           [("id"%string, JString "c1"); ("make"%string, JString "Toyota");
            ("model"%string, JString "Corolla"); ("year"%string, JString "2020")]
           "year" (JString "2020")); try reflexivity.
  cbn. tauto.
Defined.

(** C2 as stated fails: a body without [year], and one whose [year] is
    [null], are accepted; the record is written with the year 0. *)
Lemma missing_year_is_written :
  handler memClient (POST body_no_year) world0
  = (Returned (created (mkCar "c1" "Toyota" "Corolla" 0)),
     after_call world0
       {[ "MyItems"%string :=
            {[ "c1"%string := itemOfCar (mkCar "c1" "Toyota" "Corolla" 0) ]} ]}
       (CallPutItem "MyItems" (itemOfCar (mkCar "c1" "Toyota" "Corolla" 0))))
  /\ fst (handler memClient (POST body_year_null) world0)
     = Returned (created (mkCar "c1" "Toyota" "Corolla" 0))
  /\ itemOfCar (mkCar "c1" "Toyota" "Corolla" 0) !! "Year"%string
     = Some (AttributeValueMemberN "0").
Proof. repeat split; reflexivity. Qed.

(** C10, as the code has it.  Two POST bodies that are objects with the
    same members, apart from members whose key is not the name of a field
    (exactly or up to the folding of [encoding/json]), get the same
    response and leave the same world: the same call with the same item.
    The handler makes no call, or one [PutItem] of an item with the four
    attributes [ID], [Make], [Model] and [Year]. *)
Theorem unknown_members_ignored {St} (db : Client St) req (w : World St) b1 b2 ms1 ms2 :
  Method req = "POST"%string ->
  decode b1 = Some (JObject ms1) ->
  decode b2 = Some (JObject ms2) ->
  List.filter known_member ms1 = List.filter known_member ms2 ->
  handler db (with_body req b1) w = handler db (with_body req b2) w
  /\ (calls (snd (handler db (with_body req b1) w)) = calls w
      \/ exists item,
           calls (snd (handler db (with_body req b1) w))
           = calls w ++ [CallPutItem (tableName w) (itemOfCar item)]
           /\ dom (itemOfCar item)
              = ({[ "ID"%string; "Make"%string; "Model"%string; "Year"%string ]}
                 : gset string)).
Proof.
  intros Hm H1 H2 Hf.
  assert (Hu : Unmarshal b1 = Unmarshal b2).
  { rewrite (Unmarshal_object _ _ H1), (Unmarshal_object _ _ H2).
    unfold unmarshal_object.
    rewrite <- (fold_decode_filter ms1), <- (fold_decode_filter ms2), Hf.
    reflexivity. }
  rewrite !(handler_POST db (with_body req _) Hm). split.
  - unfold handlePost. cbn [ReqBody with_body]. rewrite Hu. reflexivity.
  - destruct (Unmarshal b1) as [item|] eqn:E.
    + destruct (String.eqb (tableName w) EmptyString) eqn:Et.
      * apply String.eqb_eq in Et.
        rewrite (handlePost_unset db (with_body req b1) item w E Et). left. reflexivity.
      * apply String.eqb_neq in Et.
        rewrite (handlePost_put db (with_body req b1) item w E Et).
        destruct (PutItem db (tableName w) (itemOfCar item) (dbstate w)) as [r st].
        right. exists item. split; [reflexivity | apply itemOfCar_dom].
    + rewrite (handlePost_undecodable db (with_body req b1) w E). left. reflexivity.
Qed.

Lemma unknown_members_ignored_witness :
  handler memClient (with_body (POST EmptyString) body_extra) world0
  = handler memClient (with_body (POST EmptyString) corolla_body) world0.
Proof.
  apply (unknown_members_ignored memClient (POST EmptyString) world0
           body_extra corolla_body
           [("colour"%string, JString "red"); ("id"%string, JString "c1");
            ("make"%string, JString "Toyota");
            ("owner"%string, JObject [("n"%string, JArray [JNumber "1"; JNumber "2"])]);
            ("model"%string, JString "Corolla"); ("year"%string, JNumber "2020")]
           [("id"%string, JString "c1"); ("make"%string, JString "Toyota");
            ("model"%string, JString "Corolla"); ("year"%string, JNumber "2020")]);
    reflexivity.
Defined.

(** C10 as stated fails: a member named [Year] is not one of [id],
    [make], [model] and [year], yet it is decoded into the field [Year],
    and a body is refused for it. *)
Lemma member_named_Year_is_decoded :
  fst (handler memClient (POST (q "{'id':'c1','Year':'x'}")) world0)
  = Returned (mkResponse 400 ∅ "invalid request body")
  /\ fst (handler memClient (POST (q "{'id':'c1'}")) world0)
     = Returned (created (mkCar "c1" "" "" 0)).
Proof. split; reflexivity. Qed.


(** ** The in-memory capability and the item of a record *)

Lemma memTable_insert tbl (t : gmap string Item) (st : MemState) :
  memTable tbl (<[tbl:=t]> st) = t.
Proof. unfold memTable. rewrite lookup_insert_eq. reflexivity. Qed.

(** The in-memory capability returns what was put. *)
Lemma memClient_returns_what_was_put : returns_what_was_put memClient.
Proof.
  intros tbl it k st st' Hk Hput.
  change (memPutItem tbl it st = (Ok tt, st')) in Hput.
  change (exists st'', memGetItem tbl (idKey k) st' = (Ok (Some it), st'')).
  unfold memPutItem, keyOf in Hput. rewrite Hk in Hput. inversion Hput; subst.
  eexists. unfold memGetItem, keyOf, idKey. rewrite lookup_singleton_eq.
  rewrite memTable_insert, lookup_insert_eq. reflexivity.
Qed.

Lemma itemOfCar_lookups (c : Car) :
  itemOfCar c !! "ID"%string = Some (AttributeValueMemberS (ID c))
  /\ itemOfCar c !! "Make"%string = Some (AttributeValueMemberS (Make c))
  /\ itemOfCar c !! "Model"%string = Some (AttributeValueMemberS (Model c))
  /\ itemOfCar c !! "Year"%string = Some (AttributeValueMemberN (formatInt (Year c))).
Proof. unfold itemOfCar. repeat split; simplify_map_eq; reflexivity. Qed.

Lemma itemOfCar_stringsOk c : stringsOk (itemOfCar c).
Proof.
  destruct (itemOfCar_lookups c) as (H1 & H2 & H3 & _).
  repeat split; eexists; eassumption.
Qed.

(** Reading back, by its id, the item of a well-formed record. *)
Lemma handleGet_itemOfCar {St} (db : Client St) req (w : World St) c st' :
  tableName w <> EmptyString ->
  queryId req = ID c -> ID c <> EmptyString ->
  in_int64 (Year c) ->
  GetItem db (tableName w) (idKey (ID c)) (dbstate w) = (Ok (Some (itemOfCar c)), st') ->
  handleGet db req w
  = (Returned (mkResponse StatusOK json_headers (marshalCar c)),
     after_call w st' (CallGetItem (tableName w) (idKey (ID c)))).
Proof.
  intros Ht Hq Hid Hy Hg.
  assert (Hq' : queryId req <> EmptyString) by (rewrite Hq; exact Hid).
  rewrite (handleGet_lookup db req w Ht Hq'), Hq, Hg. cbn zeta.
  destruct (itemOfCar_lookups c) as (H1 & H2 & H3 & H4).
  rewrite H4. cbn [assertN]. unfold Atoi. rewrite (ParseInt_format _ Hy). cbn [fst].
  rewrite (carOfItem_ok (itemOfCar c) (Year c) _ (itemOfCar_stringsOk c)).
  unfold stringAttr. rewrite H1, H2, H3. destruct c; reflexivity.
Qed.

(** The world after a POST that was answered 201. *)
Lemma handlePost_created {St} (db : Client St) req (w w1 : World St) c resp :
  Unmarshal (ReqBody req) = Some c ->
  handlePost db req w = (Returned resp, w1) ->
  StatusCode resp = StatusCreated ->
  tableName w <> EmptyString
  /\ resp = created c
  /\ exists st1, PutItem db (tableName w) (itemOfCar c) (dbstate w) = (Ok tt, st1)
                 /\ w1 = after_call w st1 (CallPutItem (tableName w) (itemOfCar c)).
Proof.
  intros Hu Hp Hs.
  destruct (String.eqb (tableName w) EmptyString) eqn:Et.
  - apply String.eqb_eq in Et. rewrite (handlePost_unset db req c w Hu Et) in Hp.
    inversion Hp; subst. discriminate Hs.
  - apply String.eqb_neq in Et. split; [exact Et|].
    rewrite (handlePost_put db req c w Hu Et) in Hp.
    destruct (PutItem db (tableName w) (itemOfCar c) (dbstate w)) as [[[]|e] st1];
      inversion Hp; subst; [|discriminate Hs].
    split; [reflexivity|]. exists st1. split; reflexivity.
Qed.

(** ** Writing a record and reading it back *)

(** After a POST that decoded the record [c] and was answered 201, a GET
    with the id of [c], which is not empty, is answered 200 with the
    JSON text of [c], which decodes to [c]. *)
Lemma get_after_created {St} (db : Client St) post get (w w1 : World St) c resp :
  returns_what_was_put db ->
  Method post = "POST"%string ->
  Unmarshal (ReqBody post) = Some c ->
  ID c <> EmptyString ->
  handler db post w = (Returned resp, w1) ->
  StatusCode resp = StatusCreated ->
  Method get = "GET"%string ->
  queryId get = ID c ->
  exists w2,
    handler db get w1
    = (Returned (mkResponse StatusOK (content_type "application/json") (marshalCar c)), w2)
    /\ Unmarshal (marshalCar c) = Some c.
Proof.
  intros Hlaw Hmp Hu Hid Hpost Hs Hmg Hq.
  rewrite (handler_POST db post Hmp) in Hpost.
  destruct (handlePost_created db post w w1 c resp Hu Hpost Hs)
    as (Ht & _ & st1 & Hput & ->).
  destruct (Unmarshal_wf _ _ Hu) as (Hi & Hm & Hd & Hy).
  destruct (itemOfCar_lookups c) as (Hk & _).
  destruct (Hlaw _ _ _ _ _ Hk Hput) as [st2 Hget].
  eexists. split.
  - rewrite (handler_GET db get Hmg).
    exact (handleGet_itemOfCar db get (after_call w st1 _) c st2 Ht Hq Hid Hy Hget).
  - apply Unmarshal_marshalCar. unfold wf_car. tauto.
Qed.

(** C1, as the code has it.  Against a storage capability that returns
    what was put: when a POST whose body decodes to the record [R], with
    a non-empty [ID], has been answered 201, a GET with [id = ID R] is
    answered 200 with a JSON body that decodes to [R]. *)
Theorem write_then_read {St} (db : Client St) post get (w w1 : World St) R resp :
  returns_what_was_put db ->
  Method post = "POST"%string ->
  Unmarshal (ReqBody post) = Some R ->
  ID R <> EmptyString ->
  handler db post w = (Returned resp, w1) ->
  StatusCode resp = StatusCreated ->
  Method get = "GET"%string ->
  queryId get = ID R ->
  exists resp2 w2,
    handler db get w1 = (Returned resp2, w2)
    /\ StatusCode resp2 = StatusOK
    /\ Body resp2 = marshalCar R
    /\ Unmarshal (Body resp2) = Some R.
Proof.
  intros Hlaw Hmp Hu Hid Hpost Hs Hmg Hq.
  destruct (get_after_created db post get w w1 R resp Hlaw Hmp Hu Hid Hpost Hs Hmg Hq)
    as (w2 & Hget & Hdec).
  eexists _, w2. split; [exact Hget|]. cbn [StatusCode Body]. tauto.
Qed.

Lemma write_then_read_witness :
  exists resp2 w2,
    handler memClient (GET "c1") (snd (handler memClient (POST corolla_body) world0))
    = (Returned resp2, w2)
    /\ StatusCode resp2 = 200%Z
    /\ Body resp2 = marshalCar corolla
    /\ Unmarshal (Body resp2) = Some corolla.
Proof.
  apply (write_then_read memClient (POST corolla_body) (GET "c1") world0
           (snd (handler memClient (POST corolla_body) world0)) corolla
           (created corolla) memClient_returns_what_was_put);
    first [reflexivity | discriminate].
Defined.

(** C1 as stated fails for the record with the empty [ID]: its write is
    answered 201, and the GET with [id] equal to that [ID] scans the
    table; the body of the 200 response is an array, which does not
    decode to a record. *)
Lemma empty_id_is_scanned :
  let R := mkCar "" "Toyota" "Corolla" 2020 in
  let w1 := snd (handler memClient (POST body_empty_id) world0) in
  Unmarshal body_empty_id = Some R
  /\ fst (handler memClient (POST body_empty_id) world0) = Returned (created R)
  /\ fst (handler memClient (GET (ID R)) w1)
     = Returned (mkResponse 200 (content_type "application/json") (marshalCars [R]))
  /\ calls (snd (handler memClient (GET (ID R)) w1))
     = [CallPutItem "MyItems" (itemOfCar R); CallScan "MyItems"]
  /\ Unmarshal (marshalCars [R]) = None.
Proof. repeat split; reflexivity. Qed.

(** C5, as the code has it.  Against a storage capability that returns
    what was put: after a write of [A] and then a write of [B] with the
    [ID] of [A], not empty, the second answered 201, a GET with that id
    is answered 200 with a JSON body that decodes to [B]: every field is
    the one of [B]. *)
Theorem second_write_replaces {St} (db : Client St) postA postB get
    (w w1 w2 : World St) A B respA respB :
  returns_what_was_put db ->
  Method postA = "POST"%string ->
  Unmarshal (ReqBody postA) = Some A ->
  Method postB = "POST"%string ->
  Unmarshal (ReqBody postB) = Some B ->
  ID B = ID A ->
  ID A <> EmptyString ->
  handler db postA w = (Returned respA, w1) ->
  handler db postB w1 = (Returned respB, w2) ->
  StatusCode respB = StatusCreated ->
  Method get = "GET"%string ->
  queryId get = ID A ->
  exists resp3 w3,
    handler db get w2 = (Returned resp3, w3)
    /\ StatusCode resp3 = StatusOK
    /\ Body resp3 = marshalCar B
    /\ Unmarshal (Body resp3) = Some B.
Proof.
  intros Hlaw _ _ HmB HuB Hsame Hid _ HpostB Hs Hmg Hq.
  rewrite <- Hsame in Hid, Hq.
  destruct (get_after_created db postB get w1 w2 B respB Hlaw HmB HuB Hid HpostB Hs Hmg Hq)
    as (w3 & Hget & Hdec).
  eexists _, w3. split; [exact Hget|]. cbn [StatusCode Body]. tauto.
Qed.

Lemma second_write_replaces_witness :
  exists resp3 w3,
    handler memClient (GET "c1")
      (snd (handler memClient (POST body_civic)
              (snd (handler memClient (POST corolla_body) world0))))
    = (Returned resp3, w3)
    /\ StatusCode resp3 = 200%Z
    /\ Body resp3 = marshalCar civic
    /\ Unmarshal (Body resp3) = Some civic.
Proof.
  apply (second_write_replaces memClient (POST corolla_body) (POST body_civic) (GET "c1")
           world0 (snd (handler memClient (POST corolla_body) world0))
           (snd (handler memClient (POST body_civic)
                   (snd (handler memClient (POST corolla_body) world0))))
           corolla civic (created corolla) (created civic)
           memClient_returns_what_was_put);
    first [reflexivity | discriminate].
Defined.

(** With the in-memory capability the table holds, under the key, the
    item of the second record and nothing of the first. *)
Lemma second_write_replaces_in_memory :
  dbstate (snd (handler memClient (POST body_civic)
                  (snd (handler memClient (POST corolla_body) world0))))
  = {[ "MyItems"%string := {[ "c1"%string := itemOfCar civic ]} ]}.
Proof. reflexivity. Qed.

(** C5 as stated fails for two records with the empty [ID]: the GET
    with that id scans the table, and the body of its response is an
    array, which does not decode to a record. *)
Lemma empty_id_overwrite_is_scanned :
  let A := mkCar "" "Toyota" "Corolla" 2020 in
  let B := mkCar "" "Honda" "Civic" 2021 in
  let w1 := snd (handler memClient (POST body_empty_id) world0) in
  let w2 := snd (handler memClient (POST body_empty_id_civic) w1) in
  Unmarshal body_empty_id = Some A
  /\ Unmarshal body_empty_id_civic = Some B
  /\ fst (handler memClient (POST body_empty_id_civic) w1) = Returned (created B)
  /\ fst (handler memClient (GET (ID A)) w2)
     = Returned (mkResponse 200 (content_type "application/json") (marshalCars [B]))
  /\ Unmarshal (marshalCars [B]) = None.
Proof. repeat split; reflexivity. Qed.

(** * Further properties *)

(** ** What an invocation does to the world *)

Lemma carOfItem_world {St} (it : Item) year (w w' : World St) o :
  carOfItem it year w = (o, w') -> w' = w.
Proof.
  unfold carOfItem, bind.
  destruct (assertS (it !! "ID"%string) w) as [[a|] w1] eqn:E1;
    pose proof (assertS_world _ _ _ _ E1) as ->;
    [|intros H; inversion H; reflexivity].
  destruct (assertS (it !! "Make"%string) w) as [[b|] w2] eqn:E2;
    pose proof (assertS_world _ _ _ _ E2) as ->;
    [|intros H; inversion H; reflexivity].
  destruct (assertS (it !! "Model"%string) w) as [[c|] w3] eqn:E3;
    pose proof (assertS_world _ _ _ _ E3) as ->;
    intros H; inversion H; reflexivity.
Qed.

Lemma scanItems_world {St} (items : list Item) : forall cars (w w' : World St) o,
  scanItems items cars w = (o, w') -> w' = w.
Proof.
  induction items as [|it items IH]; intros cars w w' o H.
  - inversion H. reflexivity.
  - cbn [scanItems] in H. unfold bind at 1 in H.
    destruct (carOfItem it _ w) as [[c|] w1] eqn:E;
      pose proof (carOfItem_world _ _ _ _ _ E) as ->.
    + apply (IH _ _ _ _ H).
    + inversion H. reflexivity.
Qed.

(** The world after [handleGet]. *)
Lemma handleGet_world {St} (db : Client St) req (w : World St) :
  env (snd (handleGet db req w)) = env w
  /\ calls (snd (handleGet db req w))
     = calls w ++ (if String.eqb (tableName w) EmptyString then []
                   else if String.eqb (queryId req) EmptyString
                        then [CallScan (tableName w)]
                        else [CallGetItem (tableName w) (idKey (queryId req))]).
Proof.
  destruct (String.eqb (tableName w) EmptyString) eqn:Et.
  { apply String.eqb_eq in Et. rewrite (handleGet_unset db req w Et).
    cbn [snd]. rewrite app_nil_r. split; reflexivity. }
  apply String.eqb_neq in Et.
  destruct (String.eqb (queryId req) EmptyString) eqn:Eq.
  - apply String.eqb_eq in Eq. rewrite (handleGet_scan db req w Et Eq).
    destruct (Scan db (tableName w) (dbstate w)) as [[items|e] st]; cbn zeta;
      [|split; reflexivity].
    destruct (scanItems items [] _) as [[cars|] w2] eqn:Es;
      pose proof (scanItems_world _ _ _ _ _ Es) as ->; split; reflexivity.
  - apply String.eqb_neq in Eq. rewrite (handleGet_lookup db req w Et Eq).
    destruct (GetItem db (tableName w) (idKey (queryId req)) (dbstate w))
      as [[[it|]|e] st]; cbn zeta; try (split; reflexivity).
    destruct (assertN (it !! "Year"%string)) as [y|]; [|split; reflexivity].
    destruct (carOfItem it _ _) as [[c|] w2] eqn:Ec;
      pose proof (carOfItem_world _ _ _ _ _ Ec) as ->; split; reflexivity.
Qed.

(** The world after [handlePost]. *)
Lemma handlePost_world {St} (db : Client St) req (w : World St) :
  env (snd (handlePost db req w)) = env w
  /\ calls (snd (handlePost db req w))
     = calls w ++ match Unmarshal (ReqBody req) with
                  | None => []
                  | Some item =>
                      if String.eqb (tableName w) EmptyString then []
                      else [CallPutItem (tableName w) (itemOfCar item)]
                  end.
Proof.
  destruct (Unmarshal (ReqBody req)) as [item|] eqn:Eu.
  - destruct (String.eqb (tableName w) EmptyString) eqn:Et.
    + apply String.eqb_eq in Et. rewrite (handlePost_unset db req item w Eu Et).
      cbn [snd]. rewrite app_nil_r. split; reflexivity.
    + apply String.eqb_neq in Et. rewrite (handlePost_put db req item w Eu Et).
      destruct (PutItem db (tableName w) (itemOfCar item) (dbstate w)) as [r st].
      split; reflexivity.
  - rewrite (handlePost_undecodable db req w Eu). cbn [snd]. rewrite app_nil_r.
    split; reflexivity.
Qed.

(** X1. Whatever the storage answers, and also when it panics, an
    invocation leaves the environment as it was and makes the calls
    [calls_of] lists: none, or one, on the table [TABLE_NAME] names.  A
    GET makes no [PutItem], a POST nothing but a [PutItem], any other
    method no call. *)
Theorem invocation_calls {St} (db : Client St) req (w : World St) :
  env (snd (handler db req w)) = env w
  /\ calls (snd (handler db req w)) = calls w ++ calls_of req (tableName w).
Proof.
  unfold handler, calls_of.
  destruct (String.eqb (Method req) "GET"); [apply handleGet_world|].
  destruct (String.eqb (Method req) "POST"); [apply handlePost_world|].
  cbn [snd ret]. rewrite app_nil_r. split; reflexivity.
Qed.

(** ** Errors of the storage, status codes, panics *)

(** X2. An error of the storage is answered 500 with the text of the
    error as the body and no header, on each of the three paths: the
    scan, the read by id and the write. *)
Theorem storage_error_is_500 {St} (db : Client St) req (w : World St) e st' :
  tableName w <> EmptyString ->
  (Method req = "GET"%string -> queryId req = EmptyString ->
   Scan db (tableName w) (dbstate w) = (Err e, st') ->
   handler db req w
   = (Returned (mkResponse StatusInternalServerError ∅ e),
      after_call w st' (CallScan (tableName w))))
  /\ (Method req = "GET"%string -> queryId req <> EmptyString ->
      GetItem db (tableName w) (idKey (queryId req)) (dbstate w) = (Err e, st') ->
      handler db req w
      = (Returned (mkResponse StatusInternalServerError ∅ e),
         after_call w st' (CallGetItem (tableName w) (idKey (queryId req)))))
  /\ (forall item, Method req = "POST"%string ->
      Unmarshal (ReqBody req) = Some item ->
      PutItem db (tableName w) (itemOfCar item) (dbstate w) = (Err e, st') ->
      handler db req w
      = (Returned (mkResponse StatusInternalServerError ∅ e),
         after_call w st' (CallPutItem (tableName w) (itemOfCar item)))).
Proof.
  intros Ht. split; [|split].
  - intros Hm Hq Hs. rewrite (handler_GET db req Hm).
    rewrite (handleGet_scan db req w Ht Hq), Hs. reflexivity.
  - intros Hm Hq Hg. rewrite (handler_GET db req Hm).
    rewrite (handleGet_lookup db req w Ht Hq), Hg. reflexivity.
  - intros item Hm Hu Hp. rewrite (handler_POST db req Hm).
    rewrite (handlePost_put db req item w Hu Ht), Hp. reflexivity.
Qed.

Lemma storage_error_is_500_witness :
  handler (failingClient "throttled") GET_all world_failing
  = (Returned (mkResponse 500 ∅ "throttled"),
     after_call world_failing tt (CallScan "MyItems"))
  /\ handler (failingClient "throttled") (GET "c1") world_failing
     = (Returned (mkResponse 500 ∅ "throttled"),
        after_call world_failing tt (CallGetItem "MyItems" (idKey "c1")))
  /\ handler (failingClient "throttled") (POST corolla_body) world_failing
     = (Returned (mkResponse 500 ∅ "throttled"),
        after_call world_failing tt (CallPutItem "MyItems" (itemOfCar corolla))).
Proof.
  split; [|split].
  - apply (storage_error_is_500 (failingClient "throttled") GET_all world_failing
             "throttled" tt ltac:(discriminate)); reflexivity.
  - apply (storage_error_is_500 (failingClient "throttled") (GET "c1") world_failing
             "throttled" tt ltac:(discriminate)); first [reflexivity | discriminate].
  - apply (storage_error_is_500 (failingClient "throttled") (POST corolla_body)
             world_failing "throttled" tt ltac:(discriminate)) with (item := corolla);
      reflexivity.
Defined.

(** The response of [handleGet], when it returns one. *)
Lemma handleGet_response {St} (db : Client St) req (w w' : World St) resp :
  handleGet db req w = (Returned resp, w') ->
  (StatusCode resp = StatusOK \/ StatusCode resp = StatusNotFound
   \/ StatusCode resp = StatusInternalServerError)
  /\ Headers resp = headers_of_status (StatusCode resp).
Proof.
  destruct (String.eqb (tableName w) EmptyString) eqn:Et.
  { apply String.eqb_eq in Et. rewrite (handleGet_unset db req w Et).
    intros H; inversion H; subst. cbn. tauto. }
  apply String.eqb_neq in Et.
  destruct (String.eqb (queryId req) EmptyString) eqn:Eq.
  - apply String.eqb_eq in Eq. rewrite (handleGet_scan db req w Et Eq).
    destruct (Scan db (tableName w) (dbstate w)) as [[items|e] st]; cbn zeta.
    + destruct (scanItems items [] _) as [[cars|] w2]; intros H; inversion H; subst.
      cbn. tauto.
    + intros H; inversion H; subst. cbn. tauto.
  - apply String.eqb_neq in Eq. rewrite (handleGet_lookup db req w Et Eq).
    destruct (GetItem db (tableName w) (idKey (queryId req)) (dbstate w))
      as [[[it|]|e] st]; cbn zeta; try (intros H; inversion H; subst; cbn; tauto).
    destruct (assertN (it !! "Year"%string)) as [y|];
      [|intros H; inversion H; subst; cbn; tauto].
    destruct (carOfItem it _ _) as [[c|] w2]; intros H; inversion H; subst.
    cbn. tauto.
Qed.

Lemma handlePost_response {St} (db : Client St) req (w w' : World St) resp :
  handlePost db req w = (Returned resp, w') ->
  (StatusCode resp = StatusCreated \/ StatusCode resp = StatusBadRequest
   \/ StatusCode resp = StatusInternalServerError)
  /\ Headers resp = headers_of_status (StatusCode resp).
Proof.
  destruct (Unmarshal (ReqBody req)) as [item|] eqn:Eu.
  - destruct (String.eqb (tableName w) EmptyString) eqn:Et.
    + apply String.eqb_eq in Et. rewrite (handlePost_unset db req item w Eu Et).
      intros H; inversion H; subst. cbn. tauto.
    + apply String.eqb_neq in Et. rewrite (handlePost_put db req item w Eu Et).
      destruct (PutItem db (tableName w) (itemOfCar item) (dbstate w)) as [[u|e] st];
        intros H; inversion H; subst; cbn; tauto.
  - rewrite (handlePost_undecodable db req w Eu).
    intros H; inversion H; subst. cbn. tauto.
Qed.

(** X3. A response of the handler has one of six statuses: 200, 404 or
    500 for a GET, 201, 400 or 500 for a POST, 405 for another method.
    It carries a [Content-Type] header when the status is 200
    ([application/json]) or 201 ([text/plain]), and no header
    otherwise. *)
Theorem response_statuses {St} (db : Client St) req (w w' : World St) resp :
  handler db req w = (Returned resp, w') ->
  In (StatusCode resp) (statuses_of (Method req))
  /\ Headers resp = headers_of_status (StatusCode resp).
Proof.
  unfold handler, statuses_of.
  destruct (String.eqb (Method req) "GET").
  { intros H. destruct (handleGet_response db req w w' resp H) as [Hs Hh].
    split; [|exact Hh]. destruct Hs as [Hs|[Hs|Hs]]; rewrite Hs; cbn; tauto. }
  destruct (String.eqb (Method req) "POST").
  { intros H. destruct (handlePost_response db req w w' resp H) as [Hs Hh].
    split; [|exact Hh]. destruct Hs as [Hs|[Hs|Hs]]; rewrite Hs; cbn; tauto. }
  intros H. inversion H; subst. split; [left|]; reflexivity.
Qed.

Lemma response_statuses_witness :
  In 404%Z (statuses_of "GET")
  /\ Headers (plain 404 "item not found") = headers_of_status 404.
Proof.
  apply (response_statuses memClient (GET "missing") world_corolla
           (after_call world_corolla (dbstate world_corolla)
              (CallGetItem "MyItems" (idKey "missing")))
           (plain 404 "item not found")).
  reflexivity.
Defined.

(** X4. The handler returns a response, and does not panic, when the
    method is not GET, and for a GET when the storage hands out only
    items whose [ID], [Make] and [Model] are string attributes. *)
Theorem no_panic_on_typed_items {St} (db : Client St) req (w : World St) :
  (Method req = "GET"%string -> serves_typed_items db w) ->
  exists resp w', handler db req w = (Returned resp, w').
Proof.
  intros Hty. unfold handler.
  destruct (String.eqb (Method req) "GET") eqn:Eg.
  - apply String.eqb_eq in Eg. destruct (Hty Eg) as [Hscan Hget].
    destruct (String.eqb (tableName w) EmptyString) eqn:Et.
    { apply String.eqb_eq in Et. rewrite (handleGet_unset db req w Et). eauto. }
    apply String.eqb_neq in Et.
    destruct (String.eqb (queryId req) EmptyString) eqn:Eq.
    + apply String.eqb_eq in Eq. rewrite (handleGet_scan db req w Et Eq).
      destruct (Scan db (tableName w) (dbstate w)) as [[items|e] st] eqn:Es;
        cbn zeta; [|eauto].
      rewrite (scanItems_ok items [] _ (Hscan _ _ _ Es)). eauto.
    + apply String.eqb_neq in Eq. rewrite (handleGet_lookup db req w Et Eq).
      destruct (GetItem db (tableName w) (idKey (queryId req)) (dbstate w))
        as [[[it|]|e] st] eqn:Egi; cbn zeta; eauto.
      destruct (assertN (it !! "Year"%string)) as [y|]; [|eauto].
      rewrite (carOfItem_ok it _ _ (Hget _ _ _ _ Egi)). eauto.
  - destruct (String.eqb (Method req) "POST") eqn:Ep; [|unfold ret; eauto].
    destruct (Unmarshal (ReqBody req)) as [item|] eqn:Eu.
    + destruct (String.eqb (tableName w) EmptyString) eqn:Et.
      * apply String.eqb_eq in Et. rewrite (handlePost_unset db req item w Eu Et). eauto.
      * apply String.eqb_neq in Et. rewrite (handlePost_put db req item w Eu Et).
        destruct (PutItem db (tableName w) (itemOfCar item) (dbstate w)) as [r st].
        eauto.
    + rewrite (handlePost_undecodable db req w Eu). eauto.
Qed.

Lemma memTable_typed tbl (st : MemState) k it :
  typed_store st -> memTable tbl st !! k = Some it -> stringsOk it.
Proof.
  intros Hst. unfold memTable. destruct (st !! tbl) as [t|] eqn:E; cbn [default].
  - apply (Hst tbl t k it E).
  - rewrite lookup_empty. discriminate.
Qed.

(** The in-memory capability keeps its items typed. *)
Lemma memClient_keeps_typed_items : keeps_typed_items memClient typed_store.
Proof.
  split; [|split].
  - intros tbl st r st' Hst H. change (memScan tbl st = (r, st')) in H.
    unfold memScan in H. injection H as <- <-. split; [exact Hst|].
    intros items Hi. injection Hi as <-. apply Forall_forall. intros it Hin.
    apply list_elem_of_fmap in Hin. destruct Hin as ([k it'] & -> & Hin).
    apply elem_of_map_to_list in Hin. apply (memTable_typed tbl st k it' Hst Hin).
  - intros tbl key st r st' Hst H. change (memGetItem tbl key st = (r, st')) in H.
    unfold memGetItem in H. destruct (keyOf key) as [k|]; injection H as <- <-.
    + split; [exact Hst|]. intros it Hi. injection Hi as Hl.
      apply (memTable_typed tbl st k it Hst Hl).
    + split; [exact Hst|]. discriminate.
  - intros tbl it st r st' Hst Hit H. change (memPutItem tbl it st = (r, st')) in H.
    unfold memPutItem in H. destruct (keyOf it) as [k|]; injection H as <- <-;
      [|exact Hst].
    intros tbl' t k' it' Ht Hk.
    destruct (decide (tbl = tbl')) as [->|Hne].
    + rewrite lookup_insert_eq in Ht. injection Ht as <-.
      destruct (decide (k = k')) as [->|Hnk].
      * rewrite lookup_insert_eq in Hk. injection Hk as <-. exact Hit.
      * rewrite lookup_insert_ne in Hk by exact Hnk.
        apply (memTable_typed tbl' st k' it' Hst Hk).
    + rewrite lookup_insert_ne in Ht by exact Hne. apply (Hst tbl' t k' it' Ht Hk).
Qed.

(** One invocation under the invariant: a response, and the invariant
    again. *)
Lemma handler_keeps_typed_items {St} (db : Client St) (I : St -> Prop) req (w : World St) :
  keeps_typed_items db I -> I (dbstate w) ->
  exists resp w', handler db req w = (Returned resp, w') /\ I (dbstate w').
Proof.
  intros (Hscan & Hget & Hput) Hw. unfold handler.
  destruct (String.eqb (Method req) "GET").
  - destruct (String.eqb (tableName w) EmptyString) eqn:Et.
    { apply String.eqb_eq in Et. rewrite (handleGet_unset db req w Et). eauto. }
    apply String.eqb_neq in Et.
    destruct (String.eqb (queryId req) EmptyString) eqn:Eq.
    + apply String.eqb_eq in Eq. rewrite (handleGet_scan db req w Et Eq).
      destruct (Scan db (tableName w) (dbstate w)) as [r st] eqn:Es.
      destruct (Hscan _ _ _ _ Hw Es) as [Hst Hitems].
      destruct r as [items|e]; cbn zeta; [|eauto].
      rewrite (scanItems_ok items [] _ (Hitems _ eq_refl)). eauto.
    + apply String.eqb_neq in Eq. rewrite (handleGet_lookup db req w Et Eq).
      destruct (GetItem db (tableName w) (idKey (queryId req)) (dbstate w))
        as [r st] eqn:Eg.
      destruct (Hget _ _ _ _ _ Hw Eg) as [Hst Hit].
      destruct r as [[it|]|e]; cbn zeta; eauto.
      destruct (assertN (it !! "Year"%string)) as [y|]; [|eauto].
      rewrite (carOfItem_ok it _ _ (Hit _ eq_refl)). eauto.
  - destruct (String.eqb (Method req) "POST"); [|unfold ret; eauto].
    destruct (Unmarshal (ReqBody req)) as [item|] eqn:Eu.
    + destruct (String.eqb (tableName w) EmptyString) eqn:Et.
      * apply String.eqb_eq in Et. rewrite (handlePost_unset db req item w Eu Et). eauto.
      * apply String.eqb_neq in Et. rewrite (handlePost_put db req item w Eu Et).
        destruct (PutItem db (tableName w) (itemOfCar item) (dbstate w)) as [r st] eqn:Ep.
        pose proof (Hput _ _ _ _ _ Hw (itemOfCar_stringsOk item) Ep). eauto.
    + rewrite (handlePost_undecodable db req w Eu). eauto.
Qed.

(** X5. When the storage keeps its items typed (string [ID], [Make] and
    [Model]), as it does when the handler is the only writer, a process
    started on such a storage answers every event with a response: no
    invocation panics, so the loop of [lambda.Start] takes all the
    events, and the storage is left with typed items. *)
Theorem main_answers_every_event {St} (db : Client St) (I : St -> Prop) events
    (w : World St) :
  keeps_typed_items db I -> I (dbstate w) ->
  length (fst (main db events w)) = length events
  /\ Forall (fun o => exists resp, o = Returned resp) (fst (main db events w))
  /\ I (dbstate (snd (main db events w))).
Proof.
  intros Hdb. revert w. unfold main.
  induction events as [|req rest IH]; intros w Hw.
  - cbn. repeat split; [constructor | exact Hw].
  - cbn [Start].
    destruct (handler_keeps_typed_items db I req w Hdb Hw) as (resp & w' & -> & Hw').
    destruct (IH w' Hw') as (Hl & Ho & Hi).
    destruct (Start (handler db) rest w') as [outs w'']. cbn [fst snd length] in *.
    repeat split; [lia | constructor; [eauto | exact Ho] | exact Hi].
Qed.

Lemma main_answers_every_event_witness :
  length (fst (main memClient [POST corolla_body; GET "c1"; GET_all; DELETE] world0)) = 4%nat
  /\ Forall (fun o => exists resp, o = Returned resp)
       (fst (main memClient [POST corolla_body; GET "c1"; GET_all; DELETE] world0))
  /\ typed_store
       (dbstate (snd (main memClient [POST corolla_body; GET "c1"; GET_all; DELETE]
                        world0))).
Proof.
  apply (main_answers_every_event memClient typed_store
           [POST corolla_body; GET "c1"; GET_all; DELETE] world0
           memClient_keeps_typed_items).
  intros tbl t k it Ht. cbn [dbstate world0] in Ht. rewrite lookup_empty in Ht.
  discriminate.
Defined.

(** A process stops at a panic: the events after it are not taken. *)
Example main_stops_at_a_panic :
  fst (main memClient [GET_all; GET "c2"; DELETE] world_no_make) = [Panicked].
Proof. reflexivity. Qed.

Lemma no_panic_on_typed_items_witness :
  exists resp w', handler memClient GET_all world_corolla = (Returned resp, w').
Proof.
  apply (no_panic_on_typed_items memClient GET_all world_corolla).
  intros _. split.
  - intros tbl items st H.
    apply (proj1 memClient_keeps_typed_items tbl (dbstate world_corolla) (Ok items) st);
      [|exact H| reflexivity].
    intros tbl' t k it Ht Hk. cbn [dbstate world_corolla] in Ht.
    apply lookup_singleton_Some in Ht. destruct Ht as [_ <-].
    apply lookup_singleton_Some in Hk. destruct Hk as [_ <-]. apply itemOfCar_stringsOk.
  - intros tbl key it st H.
    apply (proj1 (proj2 memClient_keeps_typed_items) tbl key (dbstate world_corolla)
             (Ok (Some it)) st); [|exact H| reflexivity].
    intros tbl' t k it' Ht Hk. cbn [dbstate world_corolla] in Ht.
    apply lookup_singleton_Some in Ht. destruct Ht as [_ <-].
    apply lookup_singleton_Some in Hk. destruct Hk as [_ <-]. apply itemOfCar_stringsOk.
Defined.

(** ** The JSON text of any stored strings *)

Lemma byte_val_lt c : byte_val c < 256.
Proof. unfold byte_val. apply N_ascii_bounded. Qed.

Lemma lead_info_cases p0 sz lo hi :
  lead_info p0 = Some (sz, lo, hi) ->
  (sz = 2%nat /\ 194 <= p0 <= 223 /\ lo = 128 /\ hi = 191)
  \/ (sz = 3%nat /\ 224 <= p0 <= 239 /\ 128 <= lo /\ hi <= 191
      /\ (p0 = 224 -> lo = 160) /\ (p0 = 237 -> hi = 159))
  \/ (sz = 4%nat /\ 240 <= p0 <= 244 /\ 128 <= lo /\ hi <= 191
      /\ (p0 = 240 -> lo = 144) /\ (p0 = 244 -> hi = 143)).
Proof.
  unfold lead_info.
  repeat match goal with
    | |- context [N.leb ?a ?b] => destruct (N.leb_spec a b)
    | |- context [N.eqb ?a ?b] => destruct (N.eqb_spec a b)
    end; cbn [andb]; intros Heq; try discriminate Heq; injection Heq as <- <- <-;
    first [ left; repeat split; lia
          | right; left; repeat split; lia
          | right; right; repeat split; lia ].
Qed.

(** What [DecodeRune] reads at a byte that is not ASCII: nothing, or the
    encoding of a rune. *)
Lemma decodeRune_cases c s1 :
  128 <= byte_val c ->
  decodeRune (String c s1) = (RuneError, 1%nat)
  \/ exists r tail, scalar r /\ 128 <= r /\ String c s1 = encodeRune r +:+ tail.
Proof.
  intros Hc. pose proof (byte_val_lt c) as Hlt.
  unfold decodeRune. destruct (N.ltb_spec (byte_val c) 128); [lia|].
  destruct (lead_info (byte_val c)) as [[[sz lo] hi]|] eqn:El; [|left; reflexivity].
  destruct s1 as [|c1 s2]; [left; reflexivity|].
  pose proof (byte_val_lt c1) as Hlt1.
  unfold out_of.
  destruct (N.ltb_spec (byte_val c1) lo); [left; reflexivity|].
  destruct (N.ltb_spec hi (byte_val c1)); [left; reflexivity|]. cbn [orb].
  rewrite <- (chr_byte_val c), <- (chr_byte_val c1).
  remember (byte_val c) as p0. remember (byte_val c1) as b1.
  destruct (lead_info_cases _ _ _ _ El)
    as [ (-> & Hp & -> & ->) | [ (-> & Hp & Hlo & Hhi & H224 & H237)
                               | (-> & Hp & Hlo & Hhi & H240 & H244) ] ].
  - (* two bytes *)
    right. cbn [Nat.eqb].
    exists ((p0 mod 32) * 64 + b1 mod 64), s2.
    assert (Hr : 128 <= (p0 mod 32) * 64 + b1 mod 64 <= 2047) by (zify; divmod_lia).
    split; [|split; [lia|]].
    + split; [unfold MaxRune; lia|]. unfold isSurrogate.
      destruct (N.leb_spec 55296 ((p0 mod 32) * 64 + b1 mod 64)); [lia|reflexivity].
    + unfold encodeRune.
      destruct (N.leb_spec ((p0 mod 32) * 64 + b1 mod 64) 127); [lia|].
      destruct (N.leb_spec ((p0 mod 32) * 64 + b1 mod 64) 2047); [|lia].
      rewrite !sapp_cons, sapp_nil_l. f_equal; [|f_equal]; f_equal; zify; divmod_lia.
  - (* three bytes *)
    cbn [Nat.eqb].
    destruct s2 as [|c2 s3]; [left; reflexivity|].
    pose proof (byte_val_lt c2) as Hlt2.
    destruct (N.ltb_spec (byte_val c2) 128); [left; reflexivity|].
    destruct (N.ltb_spec 191 (byte_val c2)); [left; reflexivity|]. cbn [orb].
    rewrite <- (chr_byte_val c2). remember (byte_val c2) as b2.
    right.
    exists ((p0 mod 16) * 4096 + (b1 mod 64) * 64 + b2 mod 64), s3.
    remember ((p0 mod 16) * 4096 + (b1 mod 64) * 64 + b2 mod 64) as r.
    assert (Hr : 2048 <= r <= 65535).
    { subst r. destruct (N.eq_dec p0 224) as [E|E]; [specialize (H224 E)|];
        zify; divmod_lia. }
    assert (Hs : r < 55296 \/ 57344 <= r).
    { subst r. destruct (N.eq_dec p0 237) as [E|E]; [specialize (H237 E)|];
        zify; divmod_lia. }
    split; [|split; [lia|]].
    + split; [unfold MaxRune; lia|]. unfold isSurrogate.
      destruct (N.leb_spec 55296 r); destruct (N.ltb_spec r 57344); try reflexivity; lia.
    + unfold encodeRune, MaxRune, isSurrogate, enc3.
      destruct (N.leb_spec r 127); [lia|].
      destruct (N.leb_spec r 2047); [lia|].
      destruct (N.ltb_spec 1114111 r); [lia|].
      assert (Hsb : (55296 <=? r) && (r <? 57344) = false).
      { destruct (N.leb_spec 55296 r); destruct (N.ltb_spec r 57344);
          try reflexivity; lia. }
      rewrite Hsb. cbn [orb].
      destruct (N.leb_spec r 65535); [|lia].
      rewrite !sapp_cons, sapp_nil_l.
      f_equal; [|f_equal; [|f_equal]]; f_equal; subst r; zify; divmod_lia.
  - (* four bytes *)
    cbn [Nat.eqb].
    destruct s2 as [|c2 s3]; [left; reflexivity|].
    pose proof (byte_val_lt c2) as Hlt2.
    destruct (N.ltb_spec (byte_val c2) 128); [left; reflexivity|].
    destruct (N.ltb_spec 191 (byte_val c2)); [left; reflexivity|]. cbn [orb].
    rewrite <- (chr_byte_val c2). remember (byte_val c2) as b2.
    destruct s3 as [|c3 s4]; [left; reflexivity|].
    pose proof (byte_val_lt c3) as Hlt3.
    destruct (N.ltb_spec (byte_val c3) 128); [left; reflexivity|].
    destruct (N.ltb_spec 191 (byte_val c3)); [left; reflexivity|]. cbn [orb].
    rewrite <- (chr_byte_val c3). remember (byte_val c3) as b3.
    right.
    exists ((p0 mod 8) * 262144 + (b1 mod 64) * 4096 + (b2 mod 64) * 64 + b3 mod 64), s4.
    remember ((p0 mod 8) * 262144 + (b1 mod 64) * 4096 + (b2 mod 64) * 64 + b3 mod 64) as r.
    assert (Hr : 65536 <= r <= 1114111).
    { subst r. destruct (N.eq_dec p0 240) as [E|E]; [specialize (H240 E)|];
        (destruct (N.eq_dec p0 244) as [E'|E']; [specialize (H244 E')|]);
        zify; divmod_lia. }
    split; [|split; [lia|]].
    + split; [unfold MaxRune; lia|]. unfold isSurrogate.
      destruct (N.leb_spec 55296 r); destruct (N.ltb_spec r 57344); try reflexivity; lia.
    + unfold encodeRune, MaxRune, isSurrogate.
      destruct (N.leb_spec r 127); [lia|].
      destruct (N.leb_spec r 2047); [lia|].
      destruct (N.ltb_spec 1114111 r); [lia|].
      assert (Hsb : (55296 <=? r) && (r <? 57344) = false).
      { destruct (N.leb_spec 55296 r); destruct (N.ltb_spec r 57344);
          try reflexivity; lia. }
      rewrite Hsb. cbn [orb].
      destruct (N.leb_spec r 65535); [lia|].
      rewrite !sapp_cons, sapp_nil_l.
      f_equal; [|f_equal; [|f_equal; [|f_equal]]]; f_equal; subst r; zify; divmod_lia.
Qed.

(** One turn of [appendString] and one turn of [unquoteBytes]: what the
    first writes for the head of any string, the second reads, as
    well-formed UTF-8. *)
Lemma escape_unquote_step c r :
  exists out s' o h tl,
    escape_step (String c r) = (out, s')
    /\ (String.length s' <= String.length r)%nat
    /\ out = String h tl /\ byte_eqb h cQuote = false
    /\ valid_utf8 o
    /\ forall X, unquote_step (out +:+ X) = Some (o, X).
Proof.
  assert (Hrune : forall rr tail, scalar rr -> String c r = encodeRune rr +:+ tail ->
            exists out s' o h tl,
              escape_step (String c r) = (out, s')
              /\ (String.length s' <= String.length r)%nat
              /\ out = String h tl /\ byte_eqb h cQuote = false
              /\ valid_utf8 o
              /\ forall X, unquote_step (out +:+ X) = Some (o, X)).
  { intros rr tail Hs He.
    destruct (escape_rune_head rr Hs) as (h & tl & Hh & Hq).
    exists (escape_rune rr), tail, (encodeRune rr), h, tl.
    split; [rewrite He; apply (escape_step_rune rr tail Hs)|].
    split.
    { destruct (encodeRune_nonempty rr) as (c' & rest' & Hn).
      assert (Hl : String.length (String c r) = String.length (encodeRune rr +:+ tail))
        by (rewrite He; reflexivity).
      rewrite sapp_length, Hn in Hl. cbn [String.length] in Hl. lia. }
    split; [exact Hh|]. split; [exact Hq|]. split; [apply valid_utf8_rune|].
    intros X. apply (unquote_step_rune rr X Hs). }
  destruct (N.ltb_spec (byte_val c) 128) as [Hlt|Hge].
  - apply (Hrune (byte_val c) r).
    + split; [unfold MaxRune; lia|]. unfold isSurrogate.
      destruct (N.leb_spec 55296 (byte_val c)); [lia|reflexivity].
    + unfold encodeRune. destruct (N.leb_spec (byte_val c) 127); [|lia].
      unfold str1. rewrite chr_byte_val. reflexivity.
  - destruct (decodeRune_cases c r Hge) as [Hd|(rr & tail & Hs & _ & He)];
      [|apply (Hrune rr tail Hs He)].
    exists (bslash "ufffd"), r, (encodeRune RuneError), (chr cBackslash), "ufffd"%string.
    split.
    { unfold escape_step. destruct (N.ltb_spec (byte_val c) 128); [lia|].
      rewrite Hd. reflexivity. }
    split; [lia|]. split; [reflexivity|]. split; [reflexivity|].
    split; [apply valid_utf8_rune|]. intros X. reflexivity.
Qed.

(** The literal [appendString] writes for any string is read by
    [unquoteBytes], up to the closing quote, as well-formed UTF-8. *)
Lemma unquote_escape_loop f : forall s,
  (String.length s <= f)%nat ->
  exists t, valid_utf8 t
    /\ forall rest F, (String.length (escape_loop f s) < F)%nat ->
         unquote_loop F (escape_loop f s +:+ String (chr cQuote) rest) = Some (t, rest).
Proof.
  induction f as [|f IH]; intros s Hs.
  - exists EmptyString. split; [apply valid_utf8_nil|]. intros rest F HF.
    destruct s; cbn [escape_loop]; (destruct F as [|F]; [cbn in HF; lia|]); reflexivity.
  - destruct s as [|c r].
    { exists EmptyString. split; [apply valid_utf8_nil|]. intros rest F HF.
      destruct F as [|F]; [cbn in HF; lia|]. reflexivity. }
    destruct (escape_unquote_step c r) as (out & s' & o & h & tl & He & Hl & Ho & Hq & Hv & Hu).
    destruct (IH s') as (t & Ht & Hloop).
    { cbn [String.length] in Hs. lia. }
    exists (o +:+ t). split; [apply valid_utf8_app; assumption|].
    intros rest F HF. cbn [escape_loop] in HF |- *. rewrite He in HF |- *.
    rewrite sapp_length in HF. rewrite sapp_assoc.
    specialize (Hu (escape_loop f s' +:+ String (chr cQuote) rest)).
    rewrite Ho in Hu, HF |- *. rewrite sapp_cons in Hu |- *.
    destruct F as [|F]; [lia|]. cbn [unquote_loop]. rewrite Hq, Hu.
    rewrite (Hloop rest F); [reflexivity|]. cbn [String.length] in HF. lia.
Qed.

(** The string literal [Marshal] writes for any string is read back,
    as a well-formed string. *)
Lemma parse_string_escape_any s :
  exists t, valid_utf8 t
    /\ forall rest, parse_string (escape s +:+ String (chr cQuote) rest) = Some (t, rest).
Proof.
  destruct (unquote_escape_loop (String.length s) s (Nat.le_refl _)) as (t & Ht & Hl).
  exists t. split; [exact Ht|]. intros rest. unfold parse_string, escape.
  apply Hl. rewrite sapp_length. cbn [String.length]. lia.
Qed.

(** What [parse_string] reads in the literal of [s]. *)
Lemma parse_string_quote s :
  exists t, valid_utf8 t /\ (valid_utf8 s -> t = s)
    /\ forall rest, parse_string (escape s +:+ String (chr cQuote) rest) = Some (t, rest).
Proof.
  destruct (parse_string_escape_any s) as (t & Ht & Hp).
  exists t. split; [exact Ht|]. split; [|exact Hp].
  intros Hs. pose proof (parse_string_escape s EmptyString Hs) as H.
  rewrite (Hp EmptyString) in H. injection H as H. exact H.
Qed.

(** A member whose value is a string literal that reads as [t],
    followed by a comma. *)
Lemma parse_members_literal f d k s t Z :
  plain_ascii k = true ->
  (forall rest, parse_string (escape s +:+ String (chr cQuote) rest) = Some (t, rest)) ->
  parse_members (S (S f)) d
    (String (chr cQuote) (k +:+ String (chr cQuote) (String (chr cColon)
       (quote s +:+ String (chr cComma) (String (chr cQuote) Z)))))
  = match parse_members (S f) d (String (chr cQuote) Z) with
    | Some (ms, r) => Some ((k, JString t) :: ms, r)
    | None => None
    end.
Proof.
  intros Hk Hs. cbn [parse_members].
  change (byte_eqb (chr cQuote) cQuote) with true. cbn match.
  rewrite (parse_string_plain k _ Hk).
  cbn [skip_ws]. change (is_space (chr cColon)) with false. cbn match.
  change (byte_eqb (chr cColon) cColon) with true. cbn match.
  unfold quote. rewrite sapp_cons, sapp_assoc. unfold str1. rewrite sapp_cons, sapp_nil_l.
  cbn [skip_ws]. change (is_space (chr cQuote)) with false. cbn match.
  cbn [parse_value]. change (byte_val (chr cQuote) =? cQuote) with true. cbn match.
  rewrite (Hs _).
  cbn [skip_ws]. change (is_space (chr cComma)) with false. cbn match.
  change (byte_eqb (chr cComma) cRBrace) with false.
  change (byte_eqb (chr cComma) cComma) with true. cbn match.
  cbn [skip_ws]. change (is_space (chr cQuote)) with false. cbn match.
  reflexivity.
Qed.

Lemma marshalCar_app_shape c rest :
  marshalCar c +:+ rest
  = String (chr cLBrace) (String (chr cQuote) ("id" +:+ String (chr cQuote) (String (chr cColon)
      (quote (ID c) +:+ String (chr cComma) (String (chr cQuote)
        ("make" +:+ String (chr cQuote) (String (chr cColon)
          (quote (Make c) +:+ String (chr cComma) (String (chr cQuote)
            ("model" +:+ String (chr cQuote) (String (chr cColon)
              (quote (Model c) +:+ String (chr cComma) (String (chr cQuote)
                ("year" +:+ String (chr cQuote) (String (chr cColon)
                  (formatInt (Year c) +:+ String (chr cRBrace) rest)))))))))))))))).
Proof.
  rewrite marshalCar_shape.
  repeat (progress rewrite ?sapp_cons, ?sapp_assoc, ?sapp_nil_l). reflexivity.
Qed.

Lemma skip_ws_marshalCar c rest : skip_ws (marshalCar c +:+ rest) = marshalCar c +:+ rest.
Proof. rewrite marshalCar_app_shape. reflexivity. Qed.

Lemma parse_elements_S f d s :
  parse_elements (S f) d s
  = match parse_value f d s with
    | Some (v, r1) =>
      match skip_ws r1 with
      | String c2 r2 =>
        if byte_eqb c2 cRBracket then Some ([v], r2)
        else if byte_eqb c2 cComma then
          match parse_elements f d (skip_ws r2) with
          | Some (vs, r3) => Some (v :: vs, r3)
          | None => None
          end
        else None
      | EmptyString => None
      end
    | None => None
    end.
Proof. reflexivity. Qed.

(** The scanner reads the text of any record, whatever follows it. *)
Lemma parse_value_marshalCar_any c :
  exists v, object_read c v
    /\ forall f d rest, (maxNestingDepth <=? d) = false ->
         parse_value (S (S (S (S (S (S f)))))) d (marshalCar c +:+ rest) = Some (v, rest).
Proof.
  destruct (parse_string_quote (ID c)) as (i & Hi & Hi' & Pi).
  destruct (parse_string_quote (Make c)) as (m & Hm & Hm' & Pm).
  destruct (parse_string_quote (Model c)) as (d0 & Hd & Hd' & Pd).
  eexists. split; [exists i, m, d0; repeat split; try eassumption; reflexivity|].
  intros f d rest Hdepth. rewrite marshalCar_app_shape.
  cbn [parse_value]. change (byte_val (chr cLBrace) =? cQuote) with false.
  change (byte_val (chr cLBrace) =? cLBrace) with true. cbn match.
  rewrite Hdepth.
  cbn [skip_ws]. change (is_space (chr cQuote)) with false. cbn match.
  change (byte_eqb (chr cQuote) cRBrace) with false. cbn match.
  rewrite (parse_members_literal _ _ "id" (ID c) i _ eq_refl Pi).
  rewrite (parse_members_literal _ _ "make" (Make c) m _ eq_refl Pm).
  rewrite (parse_members_literal _ _ "model" (Model c) d0 _ eq_refl Pd).
  rewrite (parse_members_number _ _ "year" (Year c) _ eq_refl).
  reflexivity.
Qed.

Lemma skip_ws_join_cars c cs rest :
  skip_ws (join_cars (c :: cs) +:+ rest) = join_cars (c :: cs) +:+ rest
  /\ exists a r, join_cars (c :: cs) +:+ rest = String a r /\ byte_eqb a cRBracket = false.
Proof.
  assert (H : exists tail, join_cars (c :: cs) +:+ rest = marshalCar c +:+ tail).
  { destruct cs as [|c' cs]; [eexists; reflexivity|].
    change (join_cars (c :: c' :: cs))
      with (marshalCar c +:+ str1 cComma +:+ join_cars (c' :: cs)).
    rewrite !sapp_assoc. eexists; reflexivity. }
  destruct H as [tail ->]. split; [apply skip_ws_marshalCar|].
  rewrite marshalCar_app_shape. eexists _, _. split; reflexivity.
Qed.

(** The elements of the array [Marshal] writes for any records. *)
Lemma parse_elements_join_cars_any cs : forall c,
  exists vs, Forall2 object_read (c :: cs) vs
    /\ forall f rest,
         parse_elements (S (6 + length cs + f)) 1
           (join_cars (c :: cs) +:+ String (chr cRBracket) rest)
         = Some (vs, rest).
Proof.
  induction cs as [|c' cs IH]; intros c;
    destruct (parse_value_marshalCar_any c) as (v & Hv & Pv).
  - exists [v]. split; [constructor; [exact Hv|constructor]|].
    intros f rest. cbn [join_cars length Nat.add]. rewrite parse_elements_S.
    rewrite (Pv f 1 _ eq_refl). reflexivity.
  - destruct (IH c') as (vs & Hvs & Pvs).
    exists (v :: vs). split; [constructor; assumption|].
    intros f rest.
    change (join_cars (c :: c' :: cs))
      with (marshalCar c +:+ str1 cComma +:+ join_cars (c' :: cs)).
    rewrite !sapp_assoc. cbn [length Nat.add]. rewrite parse_elements_S.
    rewrite (Pv (S (length cs + f)) 1 _ eq_refl).
    unfold str1. rewrite sapp_cons, sapp_nil_l.
    cbn [skip_ws]. change (is_space (chr cComma)) with false. cbn match.
    change (byte_eqb (chr cComma) cRBracket) with false.
    change (byte_eqb (chr cComma) cComma) with true. cbn match.
    rewrite (proj1 (skip_ws_join_cars c' cs _)).
    change (S (S (S (S (S (S (S (length cs + f))))))))
      with (S (6 + length cs + f)).
    rewrite (Pvs f rest). reflexivity.
Qed.

(** The JSON text of any record is a JSON object. *)
Lemma decode_marshalCar_any c :
  exists v, object_read c v /\ decode (marshalCar c) = Some v.
Proof.
  destruct (parse_value_marshalCar_any c) as (v & Hv & Pv).
  exists v. split; [exact Hv|]. apply (decode_adequate 6).
  unfold decode_with. rewrite <- (sapp_nil_r (marshalCar c)).
  rewrite skip_ws_marshalCar, (Pv 0%nat 0 EmptyString eq_refl). reflexivity.
Qed.

(** The JSON text of any list of records is a JSON array. *)
Lemma decode_marshalCars_any cs :
  exists vs, Forall2 object_read cs vs /\ decode (marshalCars cs) = Some (JArray vs).
Proof.
  destruct cs as [|c cs]; [exists []; split; [constructor|reflexivity]|].
  destruct (parse_elements_join_cars_any cs c) as (vs & Hvs & Pvs).
  exists vs. split; [exact Hvs|].
  apply (decode_adequate (S (S (6 + length cs + 0)))).
  unfold decode_with, marshalCars, str1.
  rewrite sapp_cons, sapp_nil_l. cbn [skip_ws].
  change (is_space (chr cLBracket)) with false. cbn match.
  cbn [parse_value]. change (byte_val (chr cLBracket) =? cQuote) with false.
  change (byte_val (chr cLBracket) =? cLBrace) with false.
  change (byte_val (chr cLBracket) =? cLBracket) with true.
  change (maxNestingDepth <=? 0) with false. cbn match.
  destruct (skip_ws_join_cars c cs (String (chr cRBracket) "")) as (Hws & a & r & Ha & Hb).
  rewrite Hws. rewrite Ha at 1. rewrite Hb. rewrite <- Ha.
  change (0 + 1) with 1.
  rewrite (Pvs 0%nat ""). reflexivity.
Qed.

(** ** The read path on what the write path puts *)

Lemma scannedCar_itemOfCar c : in_int64 (Year c) -> scannedCar (itemOfCar c) = c.
Proof.
  intros Hy. destruct (itemOfCar_lookups c) as (H1 & H2 & H3 & H4).
  unfold scannedCar, scannedYear, stringAttr. rewrite H1, H2, H3, H4.
  cbn [assertN]. unfold Atoi. rewrite (ParseInt_format _ Hy). destruct c; reflexivity.
Qed.

(** The loop of the scan maps the items of records back to the
    records, in their order. *)
Lemma scanItems_itemOfCar {St} (cs : list Car) : forall acc (w : World St),
  Forall (fun c => in_int64 (Year c)) cs ->
  scanItems (map itemOfCar cs) acc w = (Returned (acc ++ cs), w).
Proof.
  intros acc w Hcs.
  rewrite (scanItems_ok (map itemOfCar cs) acc w).
  - f_equal. f_equal. f_equal. rewrite map_map.
    induction Hcs as [|c cs Hc _ IH]; [reflexivity|].
    cbn [map]. rewrite (scannedCar_itemOfCar c Hc), IH. reflexivity.
  - apply Forall_forall. intros it Hin. apply list_elem_of_fmap in Hin.
    destruct Hin as (c & -> & _). apply itemOfCar_stringsOk.
Qed.

Lemma object_read_valid c v :
  valid_utf8 (ID c) -> valid_utf8 (Make c) -> valid_utf8 (Model c) ->
  object_read c v -> v = object_of c.
Proof.
  intros Hi Hm Hd (i & m & d & -> & _ & _ & _ & Ei & Em & Ed).
  rewrite (Ei Hi), (Em Hm), (Ed Hd). reflexivity.
Qed.

(** The array [Marshal] writes for a list of well-formed records decodes
    to the array of the objects of the records. *)
Lemma decode_marshalCars cs :
  Forall (fun c => valid_utf8 (ID c) /\ valid_utf8 (Make c) /\ valid_utf8 (Model c)) cs ->
  decode (marshalCars cs) = Some (JArray (map object_of cs)).
Proof.
  intros Hcs. destruct (decode_marshalCars_any cs) as (vs & Hvs & ->).
  do 2 f_equal. induction Hvs as [|c v cs vs Hv _ IH]; [reflexivity|].
  inversion Hcs as [|? ? (Hi & Hm & Hd) Hcs']; subst.
  cbn [map]. rewrite (object_read_valid c v Hi Hm Hd Hv), (IH Hcs'). reflexivity.
Qed.

(** X6. A scan that returns the items of well-formed records, as the
    handler writes them, is answered 200 with the JSON array of the
    records in the order of the scan: the loop of the scan inverts the
    item [handlePost] builds, and the body decodes to the array of the
    objects of the records. *)
Theorem scan_of_written_items {St} (db : Client St) req (w : World St) cs st' :
  Method req = "GET"%string ->
  tableName w <> EmptyString ->
  queryId req = EmptyString ->
  Forall wf_car cs ->
  Scan db (tableName w) (dbstate w) = (Ok (map itemOfCar cs), st') ->
  handler db req w
  = (Returned (mkResponse StatusOK json_headers (marshalCars cs)),
     after_call w st' (CallScan (tableName w)))
  /\ decode (marshalCars cs) = Some (JArray (map object_of cs)).
Proof.
  intros Hm Ht Hq Hcs Hscan. split.
  - rewrite (handler_GET db req Hm), (handleGet_scan db req w Ht Hq), Hscan. cbn zeta.
    rewrite scanItems_itemOfCar; [reflexivity|].
    eapply Forall_impl; [exact Hcs|]. intros c Hc. unfold wf_car in Hc. tauto.
  - apply decode_marshalCars. eapply Forall_impl; [exact Hcs|].
    intros c Hc. unfold wf_car in Hc. tauto.
Qed.

Lemma scan_of_written_items_witness :
  handler memClient GET_all world_two
  = (Returned (mkResponse StatusOK json_headers (marshalCars [corolla; jazz])),
     after_call world_two (dbstate world_two) (CallScan "MyItems"))
  /\ decode (marshalCars [corolla; jazz]) = Some (JArray (map object_of [corolla; jazz])).
Proof.
  apply (scan_of_written_items memClient GET_all world_two [corolla; jazz]
           (dbstate world_two)).
  - reflexivity.
  - discriminate.
  - reflexivity.
  - constructor; [exact (Unmarshal_wf corolla_body corolla eq_refl)|].
    constructor; [exact (Unmarshal_wf body_jazz jazz eq_refl)|constructor].
  - reflexivity.
Defined.

(** X7. The one write an invocation makes is of an item the read paths
    accept: when an invocation has made a [PutItem], the table is the
    one [TABLE_NAME] names, the item is the item of the record the body
    decoded to, that record is well formed, and the loop of the scan
    maps the item back to the record without a panic. *)
Theorem put_item_is_readable {St} (db : Client St) req (w : World St) tbl it :
  calls (snd (handler db req w)) = calls w ++ [CallPutItem tbl it] ->
  tbl = tableName w /\ tbl <> EmptyString
  /\ exists c, Unmarshal (ReqBody req) = Some c /\ wf_car c /\ it = itemOfCar c
       /\ forall St' acc (w0 : World St'),
            scanItems [it] acc w0 = (Returned (acc ++ [c]), w0).
Proof.
  unfold handler.
  destruct (String.eqb (Method req) "GET").
  { destruct (handleGet_world db req w) as [_ Hc]. rewrite Hc. intros H.
    apply app_inv_head in H.
    destruct (String.eqb (tableName w) EmptyString); [discriminate|].
    destruct (String.eqb (queryId req) EmptyString); discriminate. }
  destruct (String.eqb (Method req) "POST").
  - destruct (handlePost_world db req w) as [_ Hc]. rewrite Hc. intros H.
    apply app_inv_head in H.
    destruct (Unmarshal (ReqBody req)) as [c|] eqn:Eu; [|discriminate].
    destruct (String.eqb (tableName w) EmptyString) eqn:Et; [discriminate|].
    apply String.eqb_neq in Et. injection H as <- <-.
    split; [reflexivity|]. split; [exact Et|].
    exists c. pose proof (Unmarshal_wf _ _ Eu) as Hwf.
    split; [reflexivity|]. split; [exact Hwf|]. split; [reflexivity|].
    intros St' acc w0. apply (scanItems_itemOfCar [c] acc w0).
    constructor; [|constructor]. unfold wf_car in Hwf. tauto.
  - cbn [snd ret]. intros H. rewrite <- (app_nil_r (calls w)) in H at 1.
    apply app_inv_head in H. discriminate.
Qed.

Lemma put_item_is_readable_witness :
  "MyItems"%string = tableName world0 /\ "MyItems"%string <> EmptyString
  /\ exists c, Unmarshal (ReqBody (POST corolla_body)) = Some c /\ wf_car c
       /\ itemOfCar corolla = itemOfCar c
       /\ forall St' acc (w0 : World St'),
            scanItems [itemOfCar corolla] acc w0 = (Returned (acc ++ [c]), w0).
Proof.
  apply (put_item_is_readable memClient (POST corolla_body) world0 "MyItems"
           (itemOfCar corolla)).
  reflexivity.
Defined.

(** ** The bodies a POST rejects *)

Lemma set_field_err f v c e : snd (set_field f v (c, e)) = e || wrong_kind f v.
Proof.
  destruct f, v; cbn [set_field wrong_kind snd]; rewrite ?orb_false_r, ?orb_true_r;
    try reflexivity;
    destruct (ParseInt lit) as [n [err|]]; cbn [snd]; rewrite ?orb_false_r, ?orb_true_r;
    reflexivity.
Qed.

(** The decoder saves an error exactly when the object has a member it
    cannot store, wherever the member stands. *)
Lemma fold_decode_err ms : forall st,
  snd (fold_left decode_member ms st) = snd st || existsb bad_member ms.
Proof.
  induction ms as [|m ms IH]; intros [c e]; cbn [fold_left existsb snd].
  - rewrite orb_false_r. reflexivity.
  - rewrite IH. unfold decode_member, bad_member.
    destruct (field_of_key (fst m)) as [f|]; cbn [snd].
    + rewrite set_field_err, orb_assoc. reflexivity.
    + reflexivity.
Qed.

Lemma Unmarshal_rejected body : Unmarshal body = None <-> rejected body = true.
Proof.
  unfold Unmarshal, rejected.
  destruct (decode body) as [[| | | | |ms]|]; try (split; [reflexivity|discriminate]);
    try (split; reflexivity); try (split; discriminate).
  pose proof (fold_decode_err ms (zeroCar, false)) as H. cbn [snd orb] in H.
  unfold unmarshal_object. destruct (fold_left decode_member ms (zeroCar, false)) as [c e].
  cbn [snd] in H. rewrite <- H. destruct e; split; congruence.
Qed.

(** X8. A POST is answered 400 exactly for the bodies [rejected]
    describes: a text that is not one JSON value, a value that is
    neither an object nor [null], an object with a member, named as a
    field of the record up to the case of the letters, whose value the
    field cannot hold.  Nothing else of the invocation decides it, and
    then the world is left as it was: no call of the storage. *)
Theorem bad_request_iff_rejected {St} (db : Client St) req (w : World St) :
  Method req = "POST"%string ->
  (rejected (ReqBody req) = true
   <-> fst (handler db req w) = Returned (plain StatusBadRequest "invalid request body"))
  /\ (rejected (ReqBody req) = true -> snd (handler db req w) = w).
Proof.
  intros Hm. rewrite (handler_POST db req Hm).
  destruct (Unmarshal (ReqBody req)) as [c|] eqn:Eu.
  - assert (Hr : rejected (ReqBody req) = false).
    { destruct (rejected (ReqBody req)) eqn:E; [|reflexivity].
      apply Unmarshal_rejected in E. congruence. }
    rewrite Hr. split; [|discriminate]. split; [discriminate|].
    destruct (String.eqb (tableName w) EmptyString) eqn:Et.
    + apply String.eqb_eq in Et. rewrite (handlePost_unset db req c w Eu Et).
      discriminate.
    + apply String.eqb_neq in Et. rewrite (handlePost_put db req c w Eu Et).
      destruct (PutItem db (tableName w) (itemOfCar c) (dbstate w)) as [[u|e] st];
        discriminate.
  - rewrite (handlePost_undecodable db req w Eu).
    apply Unmarshal_rejected in Eu. rewrite Eu. repeat split; reflexivity.
Qed.

Lemma bad_request_iff_rejected_witness :
  (rejected (ReqBody (POST body_year_string)) = true
   <-> fst (handler memClient (POST body_year_string) world0)
       = Returned (plain StatusBadRequest "invalid request body"))
  /\ (rejected (ReqBody (POST body_year_string)) = true ->
      snd (handler memClient (POST body_year_string) world0) = world0).
Proof.
  apply (bad_request_iff_rejected memClient (POST body_year_string) world0).
  reflexivity.
Defined.

(** ** Records under different keys *)

Lemma memClient_put_keeps_other_keys : put_keeps_other_keys memClient.
Proof.
  intros tbl it k k' st r st' res st1 Hk Hne Hput Hget.
  change (memPutItem tbl it st = (r, st')) in Hput.
  change (memGetItem tbl (idKey k') st = (res, st1)) in Hget.
  change (exists st2, memGetItem tbl (idKey k') st' = (res, st2)).
  unfold memPutItem, keyOf in Hput. rewrite Hk in Hput. injection Hput as <- <-.
  unfold memGetItem, keyOf, idKey in *. rewrite lookup_singleton_eq in *.
  injection Hget as <- <-. eexists.
  rewrite memTable_insert, lookup_insert_ne by exact Hne. reflexivity.
Qed.

(** X9. Records under different keys do not disturb one another.
    Against a storage capability that returns what was put and whose
    [PutItem] leaves the other keys as they are: when a POST of the
    record [A], with a non-empty [ID], has been answered 201, and a
    second POST follows whose body is rejected or decodes to a record
    with another [ID], then, whatever the second was answered, a GET
    with the id of [A] is answered 200 with the JSON text of [A]. *)
Theorem write_under_another_key {St} (db : Client St) postA postB get
    (w w1 w2 : World St) A respA respB :
  returns_what_was_put db ->
  put_keeps_other_keys db ->
  Method postA = "POST"%string ->
  Unmarshal (ReqBody postA) = Some A ->
  ID A <> EmptyString ->
  handler db postA w = (Returned respA, w1) ->
  StatusCode respA = StatusCreated ->
  Method postB = "POST"%string ->
  (forall B, Unmarshal (ReqBody postB) = Some B -> ID B <> ID A) ->
  handler db postB w1 = (Returned respB, w2) ->
  Method get = "GET"%string ->
  queryId get = ID A ->
  exists w3,
    handler db get w2 = (Returned (mkResponse StatusOK json_headers (marshalCar A)), w3).
Proof.
  intros Hlaw Hkeep HmA HuA Hid HpostA Hs HmB Hother HpostB Hmg Hq.
  rewrite (handler_POST db postA HmA) in HpostA.
  destruct (handlePost_created db postA w w1 A respA HuA HpostA Hs)
    as (Ht & _ & st1 & Hput & ->).
  destruct (Unmarshal_wf _ _ HuA) as (_ & _ & _ & Hy).
  destruct (itemOfCar_lookups A) as (Hk & _).
  destruct (Hlaw _ _ _ _ _ Hk Hput) as [st1' Hget].
  rewrite (handler_POST db postB HmB) in HpostB.
  rewrite (handler_GET db get Hmg).
  destruct (Unmarshal (ReqBody postB)) as [B|] eqn:HuB.
  - assert (Ht1 : tableName (after_call w st1 (CallPutItem (tableName w) (itemOfCar A)))
                  <> EmptyString) by exact Ht.
    rewrite (handlePost_put db postB B _ HuB Ht1) in HpostB.
    change (tableName (after_call w st1 (CallPutItem (tableName w) (itemOfCar A))))
      with (tableName w) in HpostB.
    change (dbstate (after_call w st1 (CallPutItem (tableName w) (itemOfCar A))))
      with st1 in HpostB.
    destruct (PutItem db (tableName w) (itemOfCar B) st1) as [r st2] eqn:HputB.
    injection HpostB as _ <-.
    destruct (itemOfCar_lookups B) as (HkB & _).
    destruct (Hkeep _ _ _ _ _ _ _ _ _ HkB (Hother B eq_refl) HputB Hget) as [st3 Hget2].
    eexists.
    apply (handleGet_itemOfCar db get _ A st3); [exact Ht | exact Hq | exact Hid | exact Hy |].
    exact Hget2.
  - rewrite (handlePost_undecodable db postB _ HuB) in HpostB.
    injection HpostB as _ <-. eexists.
    apply (handleGet_itemOfCar db get _ A st1'); [exact Ht | exact Hq | exact Hid | exact Hy |].
    exact Hget.
Qed.

Lemma write_under_another_key_witness :
  exists w3,
    handler memClient (GET "c1")
      (snd (handler memClient (POST body_jazz)
              (snd (handler memClient (POST corolla_body) world0))))
    = (Returned (mkResponse StatusOK json_headers (marshalCar corolla)), w3).
Proof.
  apply (write_under_another_key memClient (POST corolla_body) (POST body_jazz) (GET "c1")
           world0 (snd (handler memClient (POST corolla_body) world0))
           (snd (handler memClient (POST body_jazz)
                   (snd (handler memClient (POST corolla_body) world0))))
           corolla (created corolla) (created jazz)
           memClient_returns_what_was_put memClient_put_keeps_other_keys);
    try reflexivity; try discriminate.
  intros B HB. change (Unmarshal body_jazz = Some B) in HB.
  assert (HJ : Unmarshal body_jazz = Some jazz) by reflexivity.
  rewrite HJ in HB. injection HB as <-. discriminate.
Defined.

(** ** The deployment program *)

(** The policy document of the role is a JSON text. *)
Example assumeRolePolicy_is_json :
  exists ms, decode Infra.assumeRolePolicy = Some (JObject ms)
             /\ map fst ms = ["Version"; "Statement"]%string.
Proof. eexists. split; reflexivity. Qed.

Ltac run_step eng :=
  match goal with
  | |- context [eng ?r ?s] =>
      let o := fresh "o" in let e := fresh "e" in let st := fresh "st" in
      let E := fresh "E" in
      destruct (eng r s) as [[o|e] st] eqn:E;
      cbn [Infra.engine Infra.registered Infra.exports app]
  end.


(** The tables a run registers, however it ends. *)
Lemma Run_tables {St} (eng : Infra.Engine St) st n attrs hk bm :
  In (Infra.Table n attrs hk bm) (Infra.registered (snd (Infra.Run eng st))) ->
  n = "MyItems"%string /\ attrs = [("ID", "S")]%string /\ hk = "ID"%string
  /\ bm = "PAY_PER_REQUEST"%string.
Proof.
  unfold Infra.Run, Infra.main, Infra.bind, Infra.New, Infra.Export, Infra.ret.
  cbn [Infra.engine Infra.registered Infra.exports app].
  repeat (run_step eng;
          [|cbn [snd Infra.registered In]; intros H;
            repeat (destruct H as [H|H]; [try discriminate H|]);
            try contradiction; injection H as <- <- <- <-; repeat split]).
  cbn [snd Infra.registered In]. intros H.
  repeat (destruct H as [H|H]; [try discriminate H|]);
    try contradiction; injection H as <- <- <- <-; repeat split.
Qed.



(** The function is the fifth resource: a run that fails there has
    registered the table, the role and its two policies, and no API. *)
Example deploy_failing_at_the_function :
  map Infra.resource_name (Infra.registered (snd (Infra.Run (engineFailing 4) 0%nat)))
  = ["MyItems"; "lambdaRole"; "lambdaBasicExec"; "lambdaDynamoAccess"; "myApiLambda"]%string.
Proof. reflexivity. Qed.



(** X12. The handler and the table agree on the key.  A table the
    deployment registers has the hash key [ID], declared a string; every
    item [handlePost] puts has that attribute, of that kind, and the key
    [handleGet] looks an id up with is that attribute alone, of that
    kind. *)
Theorem handler_items_have_the_hash_key {St} (eng : Infra.Engine St) st n attrs hk bm :
  In (Infra.Table n attrs hk bm) (Infra.registered (snd (Infra.Run eng st))) ->
  (forall c, has_hash_key attrs hk (itemOfCar c))
  /\ (forall id, has_hash_key attrs hk (idKey id) /\ dom (idKey id) = ({[ hk ]} : gset string)).
Proof.
  intros H. destruct (Run_tables eng st n attrs hk bm H) as (-> & -> & -> & ->).
  split.
  - intros c. destruct (itemOfCar_lookups c) as (Hk & _).
    eexists. split; [exact Hk|]. left. reflexivity.
  - intros id. split.
    + eexists. split; [apply lookup_singleton_eq|]. left. reflexivity.
    + unfold idKey. apply dom_singleton_L.
Qed.

Lemma handler_items_have_the_hash_key_witness :
  (forall c, has_hash_key [("ID", "S")]%string "ID" (itemOfCar c))
  /\ (forall id, has_hash_key [("ID", "S")]%string "ID" (idKey id)
                 /\ dom (idKey id) = ({[ "ID"%string ]} : gset string)).
Proof.
  apply (handler_items_have_the_hash_key (engineFailing 0) 0%nat "MyItems"
           [("ID", "S")]%string "ID" "PAY_PER_REQUEST").
  left. reflexivity.
Defined.

(** ** The body of a 200 response *)

(** X13. A response with the status 200 carries JSON, whatever the
    storage holds: the header says [application/json], and the body is
    the text of a record (a GET with an id) or of a list of records (a
    GET without), which the scanner of [encoding/json] accepts and
    reads as the object, or the array of the objects, of those records,
    with well-formed strings.  Bytes of a stored string that are not
    UTF-8 do not break the body. *)
Theorem ok_body_is_json {St} (db : Client St) req (w w' : World St) resp :
  handler db req w = (Returned resp, w') ->
  StatusCode resp = StatusOK ->
  Method req = "GET"%string
  /\ Headers resp = json_headers
  /\ ((queryId req <> EmptyString
       /\ exists c v, Body resp = marshalCar c /\ decode (Body resp) = Some v
                      /\ object_read c v)
      \/ (queryId req = EmptyString
          /\ exists cs vs, Body resp = marshalCars cs
                           /\ decode (Body resp) = Some (JArray vs)
                           /\ Forall2 object_read cs vs)).
Proof.
  unfold handler. destruct (String.eqb (Method req) "GET") eqn:Eg.
  - apply String.eqb_eq in Eg. intros H Hs. split; [exact Eg|].
    destruct (String.eqb (tableName w) EmptyString) eqn:Et.
    { apply String.eqb_eq in Et. rewrite (handleGet_unset db req w Et) in H.
      injection H as <- <-. discriminate Hs. }
    apply String.eqb_neq in Et.
    destruct (String.eqb (queryId req) EmptyString) eqn:Eq.
    + apply String.eqb_eq in Eq. rewrite (handleGet_scan db req w Et Eq) in H.
      destruct (Scan db (tableName w) (dbstate w)) as [[items|e] st]; cbn zeta in H;
        [|injection H as <- <-; discriminate Hs].
      destruct (scanItems items [] _) as [[cars|] w2]; [|discriminate H].
      injection H as <- <-. split; [reflexivity|]. right. split; [exact Eq|].
      destruct (decode_marshalCars_any cars) as (vs & Hvs & Hd).
      exists cars, vs. repeat split; assumption.
    + apply String.eqb_neq in Eq. rewrite (handleGet_lookup db req w Et Eq) in H.
      destruct (GetItem db (tableName w) (idKey (queryId req)) (dbstate w))
        as [[[it|]|e] st]; cbn zeta in H;
        try (injection H as <- <-; discriminate Hs).
      destruct (assertN (it !! "Year"%string)) as [y|];
        [|injection H as <- <-; discriminate Hs].
      destruct (carOfItem it _ _) as [[c|] w2]; [|discriminate H].
      injection H as <- <-. split; [reflexivity|]. left. split; [exact Eq|].
      destruct (decode_marshalCar_any c) as (v & Hv & Hd).
      exists c, v. repeat split; assumption.
  - intros H Hs. exfalso.
    destruct (String.eqb (Method req) "POST").
    + destruct (handlePost_response db req w w' resp H) as [[E|[E|E]] _];
        rewrite E in Hs; discriminate Hs.
    + injection H as <- <-. discriminate Hs.
Qed.

Lemma ok_body_is_json_witness :
  Method (GET "c7") = "GET"%string
  /\ Headers (mkResponse StatusOK json_headers (marshalCar car_bad_utf8)) = json_headers
  /\ ((queryId (GET "c7") <> EmptyString
       /\ exists c v,
            Body (mkResponse StatusOK json_headers (marshalCar car_bad_utf8)) = marshalCar c
            /\ decode (Body (mkResponse StatusOK json_headers (marshalCar car_bad_utf8)))
               = Some v
            /\ object_read c v)
      \/ (queryId (GET "c7") = EmptyString
          /\ exists cs vs,
               Body (mkResponse StatusOK json_headers (marshalCar car_bad_utf8))
               = marshalCars cs
               /\ decode (Body (mkResponse StatusOK json_headers (marshalCar car_bad_utf8)))
                  = Some (JArray vs)
               /\ Forall2 object_read cs vs)).
Proof.
  apply (ok_body_is_json memClient (GET "c7") world_bad_utf8
           (after_call world_bad_utf8 (dbstate world_bad_utf8)
              (CallGetItem "MyItems" (idKey "c7")))
           (mkResponse StatusOK json_headers (marshalCar car_bad_utf8)));
    reflexivity.
Defined.

(** The body written for the record with the bytes that are not UTF-8:
    each such byte is written as the escape of U+FFFD. *)
Example marshalCar_bad_utf8 :
  marshalCar car_bad_utf8
  = q "{'id':'c7','make':'\ufffdiat','model':'\ufffd','year':1999}".
Proof. reflexivity. Qed.

(** ** What a GET returns, a POST accepts *)

(** Whatever the text, [Atoi] gives an [int]: zero on a syntax error,
    the nearest bound on a range error. *)
Lemma Atoi_in_int64 s : in_int64 (fst (Atoi s)).
Proof.
  unfold Atoi. destruct (ParseInt s) as [n [err|]] eqn:E.
  - unfold ParseInt in E.
    destruct (match s with
              | String c r =>
                  if byte_eqb c cMinus then (true, r)
                  else if byte_eqb c cPlus then (false, r) else (false, s)
              | EmptyString => (false, s)
              end) as [neg ds].
    assert (Hb : forall b : bool, in_int64 (if b then minInt64 else maxInt64)).
    { intros []; unfold in_int64, minInt64, maxInt64; lia. }
    assert (H0 : in_int64 0) by (unfold in_int64, minInt64, maxInt64; lia).
    destruct ds as [|c r]; [injection E as <- _; exact H0|].
    destruct (parseUintLoop (String c r) 0) as [un| |].
    + destruct (negb neg && (2 ^ 63 <=? un)); [injection E as <- _; apply (Hb false)|].
      destruct (neg && (2 ^ 63 <? un)); [injection E as <- _; apply (Hb true)|].
      discriminate E.
    + injection E as <- _. exact H0.
    + injection E as <- _. apply Hb.
  - apply (ParseInt_in_range s n E).
Qed.

Lemma carOfItem_year {St} (it : Item) year (w w' : World St) c :
  carOfItem it year w = (Returned c, w') -> Year c = year.
Proof.
  unfold carOfItem, bind, assertS, ret, panic.
  destruct (it !! "ID"%string) as [[a| | | |]|]; try discriminate.
  destruct (it !! "Make"%string) as [[b| | | |]|]; try discriminate.
  destruct (it !! "Model"%string) as [[d| | | |]|]; try discriminate.
  intros H. injection H as <- _. reflexivity.
Qed.

(** [Unmarshal] accepts the text [Marshal] writes for any record with a
    year in the range of [int]. *)
Lemma Unmarshal_marshalCar_any c :
  in_int64 (Year c) ->
  exists c', Unmarshal (marshalCar c) = Some c' /\ wf_car c' /\ Year c' = Year c
             /\ (valid_utf8 (ID c) -> ID c' = ID c)
             /\ (valid_utf8 (Make c) -> Make c' = Make c)
             /\ (valid_utf8 (Model c) -> Model c' = Model c).
Proof.
  intros Hy. destruct (decode_marshalCar_any c)
    as (v & (i & m & d & -> & Hi & Hm & Hd & Ei & Em & Ed) & Hdec).
  exists (mkCar i m d (Year c)). split.
  - unfold Unmarshal. rewrite Hdec.
    pose proof (unmarshal_members_of (mkCar i m d (Year c)) Hy) as H.
    unfold members_of in H. cbn [ID Make Model Year] in H. rewrite H. reflexivity.
  - cbn [ID Make Model Year]. split; [unfold wf_car; cbn [ID Make Model Year]; tauto|].
    split; [reflexivity|]. tauto.
Qed.

(** X14. What a GET by id returns, a POST accepts.  The body of a 200
    response to a GET with an id is a text [json.Unmarshal] decodes into
    a well-formed [Car], whatever strings and whatever year text the
    stored item holds; so a POST of that body is never answered 400. *)
Theorem read_body_is_accepted {St St'} (db : Client St) (db' : Client St') get
    (w w1 : World St) (w' : World St') resp :
  handler db get w = (Returned resp, w1) ->
  StatusCode resp = StatusOK ->
  queryId get <> EmptyString ->
  (exists c, Unmarshal (Body resp) = Some c /\ wf_car c)
  /\ rejected (Body resp) = false
  /\ fst (handler db' (POST (Body resp)) w')
     <> Returned (plain StatusBadRequest "invalid request body").
Proof.
  intros H Hs Hq.
  assert (Hu : exists c, Unmarshal (Body resp) = Some c /\ wf_car c).
  { unfold handler in H. destruct (String.eqb (Method get) "GET").
    - destruct (String.eqb (tableName w) EmptyString) eqn:Et.
      { apply String.eqb_eq in Et. rewrite (handleGet_unset db get w Et) in H.
        injection H as <- <-. discriminate Hs. }
      apply String.eqb_neq in Et. rewrite (handleGet_lookup db get w Et Hq) in H.
      destruct (GetItem db (tableName w) (idKey (queryId get)) (dbstate w))
        as [[[it|]|e] st]; cbn zeta in H;
        try (injection H as <- <-; discriminate Hs).
      destruct (assertN (it !! "Year"%string)) as [y|];
        [|injection H as <- <-; discriminate Hs].
      destruct (carOfItem it _ _) as [[c|] w2] eqn:Ec; [|discriminate H].
      injection H as <- <-. cbn [Body].
      pose proof (carOfItem_year _ _ _ _ _ Ec) as Hy.
      destruct (Unmarshal_marshalCar_any c) as (c' & Hc' & Hwf & _).
      { rewrite Hy. apply Atoi_in_int64. }
      exists c'. split; assumption.
    - exfalso. destruct (String.eqb (Method get) "POST").
      + destruct (handlePost_response db get w w1 resp H) as [[E|[E|E]] _];
          rewrite E in Hs; discriminate Hs.
      + injection H as <- <-. discriminate Hs. }
  split; [exact Hu|]. destruct Hu as (c & Hc & _).
  assert (Hr : rejected (Body resp) = false).
  { destruct (rejected (Body resp)) eqn:E; [|reflexivity].
    apply Unmarshal_rejected in E. congruence. }
  split; [exact Hr|].
  intros Hbad.
  assert (Hp : Method (POST (Body resp)) = "POST"%string) by reflexivity.
  rewrite (handler_POST db' _ Hp) in Hbad.
  change (ReqBody (POST (Body resp))) with (Body resp) in *.
  destruct (String.eqb (tableName w') EmptyString) eqn:Et.
  - apply String.eqb_eq in Et.
    rewrite (handlePost_unset db' (POST (Body resp)) c w' Hc Et) in Hbad.
    discriminate Hbad.
  - apply String.eqb_neq in Et.
    rewrite (handlePost_put db' (POST (Body resp)) c w' Hc Et) in Hbad.
    destruct (PutItem db' (tableName w') (itemOfCar c) (dbstate w')) as [[u|e] st];
      discriminate Hbad.
Qed.

Lemma read_body_is_accepted_witness :
  (exists c, Unmarshal (Body (mkResponse StatusOK json_headers (marshalCar car_bad_utf8)))
             = Some c /\ wf_car c)
  /\ rejected (Body (mkResponse StatusOK json_headers (marshalCar car_bad_utf8))) = false
  /\ fst (handler memClient
            (POST (Body (mkResponse StatusOK json_headers (marshalCar car_bad_utf8))))
            world0)
     <> Returned (plain StatusBadRequest "invalid request body").
Proof.
  apply (read_body_is_accepted memClient memClient (GET "c7") world_bad_utf8
           (after_call world_bad_utf8 (dbstate world_bad_utf8)
              (CallGetItem "MyItems" (idKey "c7")))
           world0
           (mkResponse StatusOK json_headers (marshalCar car_bad_utf8)));
    first [reflexivity | discriminate].
Defined.
